(** * Order-retention filter: a shallow embedding of [LambdaFunction.py]

    The handler reads a CSV object, resolves the status and order-date
    columns from the header row, drops the rows that are pending or
    cancelled and not newer than thirty days, and writes the remaining rows
    under a derived key.

    Conventions of the embedding.
    - A Python [str] is a [string]; the character with code [n] stands for
      the code point U+00nn, so the model covers the texts whose code points
      are below U+0100.  [str.strip], [str.lower], [str.splitlines] and the
      regular-expression class [\d] are given their CPython 3.11 meaning on
      that range.
    - Exceptions are values of [exn]; a computation that may raise returns a
      [result].
    - Library code ([datetime], [_strptime], [csv]) is embedded as far as the
      handler drives it: the "excel" dialect, the directives of
      [DATE_FORMATS].
    - What an invocation meets outside itself -- the S3 client, the clock and
      [urllib.parse.unquote_plus] -- is an [env]; the body of a stored object
      is taken as its decoded text.  An invocation is a function from the
      [env] and the event to an [outcome]: the value returned or the
      exception raised, and the [put_object] calls made.
    - [print] is not modelled: the log is not part of any result. *)

From Stdlib Require Import ZArith Lia Bool List Ascii String DecimalString.
From stdpp Require Import base option list gmap strings.
Import ListNotations.

Open Scope string_scope.
Open Scope Z_scope.

(** ** Exceptions and results *)

Inductive exn : Type :=
| ValueError        (* datetime / strptime / DictWriter *)
| KeyError          (* missing required column *)
| OverflowError     (* date arithmetic out of range *)
| CsvError          (* _csv.Error *)
| IndexError        (* event without records *)
| ClientError.      (* a failed S3 call *)

Inductive result (A : Type) : Type :=
| Ok (a : A)
| Raise (e : exn).
Arguments Ok {A} a.
Arguments Raise {A} e.

#[global] Instance result_ret : MRet result := fun A a => Ok a.
#[global] Instance result_bind : MBind result := fun A B k r =>
  match r with
  | Ok a => k a
  | Raise e => Raise e
  end.

Definition is_ok {A} (r : result A) : bool :=
  match r with Ok _ => true | Raise _ => false end.

(** ** Python string methods *)

Module Str.

Definition code (c : ascii) : N := N_of_ascii c.

(** [str.isspace] on one character. *)
Definition isspace (c : ascii) : bool :=
  let n := code c in
  (((9 <=? n) && (n <=? 13)) || ((28 <=? n) && (n <=? 32))
   || (n =? 133) || (n =? 160))%N.

(** The characters at which [str.splitlines] breaks. *)
Definition islinebreak (c : ascii) : bool :=
  let n := code c in
  (((10 <=? n) && (n <=? 13)) || ((28 <=? n) && (n <=? 30)) || (n =? 133))%N.

Definition isdigit (c : ascii) : bool :=
  let n := code c in ((48 <=? n) && (n <=? 57))%N.

Definition lower_char (c : ascii) : ascii :=
  let n := code c in
  if (((65 <=? n) && (n <=? 90))
      || ((192 <=? n) && (n <=? 222) && negb (n =? 215)))%N
  then ascii_of_N (n + 32) else c.

Fixpoint lower (s : string) : string :=
  match s with
  | EmptyString => EmptyString
  | String c s' => String (lower_char c) (lower s')
  end.

Fixpoint lstrip (s : string) : string :=
  match s with
  | EmptyString => EmptyString
  | String c s' => if isspace c then lstrip s' else s
  end.

Fixpoint rstrip (s : string) : string :=
  match s with
  | EmptyString => EmptyString
  | String c s' =>
      let r := rstrip s' in
      if isspace c && String.eqb r "" then "" else String c r
  end.

Definition strip (s : string) : string := lstrip (rstrip s).

(** [startswith p s]: [s.startswith(p)]. *)
Fixpoint startswith (p s : string) : bool :=
  match p, s with
  | EmptyString, _ => true
  | String a p', String b s' => Ascii.eqb a b && startswith p' s'
  | String _ _, EmptyString => false
  end.

(** [s.replace(old, new, count)] for a non-empty [old]; [count = None] is
    Python's default of replacing every occurrence.  The scan goes left to
    right; [skip] counts the characters of a matched occurrence that are
    still to be passed over. *)
Fixpoint replace_from (old new : string) (count : option nat) (skip : nat)
         (s : string) : string :=
  match s with
  | EmptyString => EmptyString
  | String c s' =>
      match skip with
      | S k => replace_from old new count k s'
      | O =>
          let allowed := match count with Some O => false | _ => true end in
          if allowed && startswith old s then
            let count' := match count with
                          | Some (S n) => Some n
                          | other => other
                          end in
            new ++ replace_from old new count' (Nat.pred (String.length old)) s'
          else String c (replace_from old new count O s')
      end
  end.

Definition replace (old new : string) (count : option nat) (s : string) : string :=
  replace_from old new count O s.

End Str.

(** [str.splitlines()]: a CR immediately followed by LF is one boundary, and
    a final boundary does not open an empty last line. *)
Fixpoint splitlines (s : string) : list string :=
  match s with
  | EmptyString => []
  | String c s' =>
      if Str.islinebreak c then
        if Ascii.eqb c "013" && Str.startswith (String "010" "") s'
        then splitlines s'
        else "" :: splitlines s'
      else
        match splitlines s' with
        | [] => [String c ""]
        | l :: ls => String c l :: ls
        end
  end.

(** ** [datetime] *)

Record datetime : Type := mkdatetime {
  year : Z; month : Z; day : Z;
  hour : Z; minute : Z; second : Z; microsecond : Z
}.

Module Datetime.

Definition MINYEAR : Z := 1.
Definition MAXYEAR : Z := 9999.
Definition MAXORDINAL : Z := 3652059.

Definition DAYS_IN_MONTH : list Z :=
  [-1; 31; 28; 31; 30; 31; 30; 31; 31; 30; 31; 30; 31].
Definition DAYS_BEFORE_MONTH : list Z :=
  [-1; 0; 31; 59; 90; 120; 151; 181; 212; 243; 273; 304; 334].

Definition is_leap (y : Z) : bool :=
  (y mod 4 =? 0) && (negb (y mod 100 =? 0) || (y mod 400 =? 0)).

Definition days_before_year (y : Z) : Z :=
  let y' := y - 1 in y' * 365 + y' / 4 - y' / 100 + y' / 400.

Definition days_in_month (y m : Z) : Z :=
  if (m =? 2) && is_leap y then 29 else nth (Z.to_nat m) DAYS_IN_MONTH 0.

Definition days_before_month (y m : Z) : Z :=
  nth (Z.to_nat m) DAYS_BEFORE_MONTH 0
  + (if (2 <? m) && is_leap y then 1 else 0).

Definition ymd2ord (y m d : Z) : Z :=
  days_before_year y + days_before_month y m + d.

Definition DI400Y : Z := 146097.
Definition DI100Y : Z := 36524.
Definition DI4Y : Z := 1461.

Definition ord2ymd (n : Z) : Z * Z * Z :=
  let n := n - 1 in
  let n400 := n / DI400Y in let n := n mod DI400Y in
  let y := n400 * 400 + 1 in
  let n100 := n / DI100Y in let n := n mod DI100Y in
  let n4 := n / DI4Y in let n := n mod DI4Y in
  let n1 := n / 365 in let n := n mod 365 in
  let y := y + n100 * 100 + n4 * 4 + n1 in
  if (n1 =? 4) || (n100 =? 4) then (y - 1, 12, 31)
  else
    let leapyear := (n1 =? 3) && (negb (n4 =? 24) || (n100 =? 3)) in
    let m := Z.shiftr (n + 50) 5 in
    let preceding :=
      nth (Z.to_nat m) DAYS_BEFORE_MONTH 0
      + (if (2 <? m) && leapyear then 1 else 0) in
    if n <? preceding then
      let m' := m - 1 in
      let preceding' :=
        preceding - (nth (Z.to_nat m') DAYS_IN_MONTH 0
                     + (if (m' =? 2) && leapyear then 1 else 0)) in
      (y, m', n - preceding' + 1)
    else (y, m, n - preceding + 1).

(** The checks of the [datetime] constructor on the date fields. *)
Definition check_date_fields (y m d : Z) : bool :=
  (MINYEAR <=? y) && (y <=? MAXYEAR) && (1 <=? m) && (m <=? 12)
  && (1 <=? d) && (d <=? days_in_month y m).

Definition make (y m d hh mm ss us : Z) : result datetime :=
  if check_date_fields y m d
     && (0 <=? hh) && (hh <=? 23) && (0 <=? mm) && (mm <=? 59)
     && (0 <=? ss) && (ss <=? 59) && (0 <=? us) && (us <=? 999999)
  then Ok (mkdatetime y m d hh mm ss us)
  else Raise ValueError.

(** [a > b] on naive datetimes: the field tuples compared in order. *)
Fixpoint lex_gt (a b : list Z) : bool :=
  match a, b with
  | x :: a', y :: b' => (y <? x) || ((x =? y) && lex_gt a' b')
  | _, _ => false
  end.

Definition fields (t : datetime) : list Z :=
  [year t; month t; day t; hour t; minute t; second t; microsecond t].

Definition gt (a b : datetime) : bool := lex_gt (fields a) (fields b).

Definition toordinal (t : datetime) : Z := ymd2ord (year t) (month t) (day t).

(** [t - timedelta(days=n)]: only the date part moves; the result must
    fall within ordinals 1..MAXORDINAL. *)
Definition sub_days (t : datetime) (n : Z) : result datetime :=
  let o := toordinal t - n in
  if (0 <? o) && (o <=? MAXORDINAL) then
    let '(y, m, d) := ord2ymd o in
    Ok (mkdatetime y m d (hour t) (minute t) (second t) (microsecond t))
  else Raise OverflowError.

End Datetime.

(** ** [datetime.strptime] *)

Module Strptime.

(** The regular expressions of the directives are alternations of short
    sequences of one-character atoms. *)
Inductive atom : Type :=
| Digit                      (* \d *)
| Range (lo hi : ascii)      (* [lo-hi] *)
| Char (c : ascii).

Definition alt : Type := list atom.

Inductive item : Type :=
| Group (name : ascii) (alts : list alt)   (* (?P<name>a1|a2|...) *)
| Literal (c : ascii).

(** The entries of [TimeRE] for the directives in use. *)
Definition directive (d : ascii) : option (list alt) :=
  if Ascii.eqb d "Y" then
    Some [[Digit; Digit; Digit; Digit]]
  else if Ascii.eqb d "m" then
    Some [[Char "1"; Range "0" "2"]; [Char "0"; Range "1" "9"]; [Range "1" "9"]]
  else if Ascii.eqb d "d" then
    Some [[Char "3"; Range "0" "1"]; [Range "1" "2"; Digit];
          [Char "0"; Range "1" "9"]; [Range "1" "9"]; [Char " "; Range "1" "9"]]
  else None.

(** Literal format characters that stand for themselves in the compiled
    pattern: ASCII punctuation, which has no case and is not white space. *)
Definition plain (c : ascii) : bool :=
  let n := Str.code c in
  (((33 <=? n) && (n <=? 47)) || ((58 <=? n) && (n <=? 64)))%N
  && negb (Ascii.eqb c "%").

(** [TimeRE.pattern]: [None] for a format outside the modelled fragment
    or with a bad directive. *)
Fixpoint pattern (fmt : string) : option (list item) :=
  match fmt with
  | EmptyString => Some []
  | String c rest =>
      if Ascii.eqb c "%" then
        match rest with
        | String d rest' =>
            match directive d, pattern rest' with
            | Some alts, Some p => Some (Group d alts :: p)
            | _, _ => None
            end
        | EmptyString => None
        end
      else if plain c then
        match pattern rest with
        | Some p => Some (Literal c :: p)
        | None => None
        end
      else None
  end.

Definition atom_matches (a : atom) (c : ascii) : bool :=
  match a with
  | Digit => Str.isdigit c
  | Range lo hi => ((Str.code lo <=? Str.code c) && (Str.code c <=? Str.code hi))%N
  | Char c' => Ascii.eqb c' c
  end.

(** Match one alternative at the start of [s]: the text matched and the
    rest. *)
Fixpoint match_alt (a : alt) (s : string) : option (string * string) :=
  match a with
  | [] => Some ("", s)
  | x :: a' =>
      match s with
      | String c s' =>
          if atom_matches x c then
            match match_alt a' s' with
            | Some (txt, rest) => Some (String c txt, rest)
            | None => None
            end
          else None
      | EmptyString => None
      end
  end.

(** [re.match]: the first match in backtracking order, alternatives tried
    left to right; the groups found and the unmatched rest. *)
Fixpoint re_match (p : list item) (s : string)
  : option (list (ascii * string) * string) :=
  match p with
  | [] => Some ([], s)
  | Literal c :: p' =>
      match s with
      | String c' s' => if Ascii.eqb c c' then re_match p' s' else None
      | EmptyString => None
      end
  | Group name alts :: p' =>
      (fix try (alts : list alt) :=
         match alts with
         | [] => None
         | a :: alts' =>
             match match_alt a s with
             | Some (txt, rest) =>
                 match re_match p' rest with
                 | Some (g, rest') => Some ((name, txt) :: g, rest')
                 | None => try alts'
                 end
             | None => try alts'
             end
         end) alts
  end.

Definition digit_value (c : ascii) : Z := Z.of_N (Str.code c) - 48.

Fixpoint int_digits (acc : Z) (s : string) : Z :=
  match s with
  | EmptyString => acc
  | String c s' => int_digits (acc * 10 + digit_value c) s'
  end.

(** [int(text)] for the text of a group: white space around the digits is
    ignored. *)
Definition int (s : string) : Z := int_digits 0 (Str.strip s).

Fixpoint group (name : ascii) (g : list (ascii * string)) : option string :=
  match g with
  | [] => None
  | (n, txt) :: g' => if Ascii.eqb n name then Some txt else group name g'
  end.

Definition group_int (name : ascii) (default : Z) (g : list (ascii * string)) : Z :=
  match group name g with
  | Some txt => int txt
  | None => default
  end.

(** [datetime.strptime(data_string, format)]. *)
Definition strptime (data_string fmt : string) : result datetime :=
  match pattern fmt with
  | None => Raise ValueError
  | Some p =>
      match re_match p data_string with
      | None => Raise ValueError                  (* does not match format *)
      | Some (g, rest) =>
          if negb (String.eqb rest "") then Raise ValueError   (* unconverted data remains *)
          else
            Datetime.make (group_int "Y" 1900 g) (group_int "m" 1 g)
                          (group_int "d" 1 g) 0 0 0 0
      end
  end.

End Strptime.

(** ** [parse_date] *)

Definition DATE_FORMATS : list string :=
  ["%Y-%m-%d"; "%m/%d/%Y"; "%Y/%m/%d"; "%d-%m-%Y"].

(** The [for fmt in ...] loop of [parse_date]: any exception of an attempt
    is swallowed, the first success is returned, and running out of formats
    raises [ValueError]. *)
Fixpoint parse_date_loop (fmts : list string) (s : string) : result datetime :=
  match fmts with
  | [] => Raise ValueError
  | fmt :: fmts' =>
      match Strptime.strptime (Str.strip s) fmt with
      | Ok dt => Ok dt
      | Raise _ => parse_date_loop fmts' s
      end
  end.

Definition parse_date (s : string) : result datetime :=
  parse_date_loop DATE_FORMATS s.

(** ** The [csv] module, "excel" dialect

    Comma as delimiter, the double quote as quotechar, doublequote, no
    escapechar, no skipinitialspace, lineterminator CR LF, QUOTE_MINIMAL, not
    strict. *)

Module Csv.

Definition delimiter : ascii := ",".
Definition quotechar : ascii := "034".
Definition CR : ascii := "013".
Definition LF : ascii := "010".
Definition lineterminator : string := String CR (String LF "").

(** [csv.field_size_limit()]. *)
Definition field_limit : N := 131072.

(** The parser states that can be reached without an escapechar. *)
Inductive parser_state : Type :=
| START_RECORD | START_FIELD | IN_FIELD
| IN_QUOTED_FIELD | QUOTE_IN_QUOTED_FIELD | EAT_CRNL.

Definition state_eqb (a b : parser_state) : bool :=
  match a, b with
  | START_RECORD, START_RECORD | START_FIELD, START_FIELD
  | IN_FIELD, IN_FIELD | IN_QUOTED_FIELD, IN_QUOTED_FIELD
  | QUOTE_IN_QUOTED_FIELD, QUOTE_IN_QUOTED_FIELD | EAT_CRNL, EAT_CRNL => true
  | _, _ => false
  end.

Record reader : Type := mkreader {
  fields : list string;      (* the fields of the record completed so far *)
  field : string;            (* the field being collected *)
  state : parser_state
}.

Definition parse_reset : reader := mkreader [] "" START_RECORD.

Definition set_state (r : reader) (s : parser_state) : reader :=
  mkreader (fields r) (field r) s.

Definition parse_add_char (r : reader) (c : ascii) : result reader :=
  if (field_limit <=? N.of_nat (String.length (field r)))%N
  then Raise CsvError
  else Ok (mkreader (fields r) (field r ++ String c "") (state r)).

Definition parse_save_field (r : reader) : reader :=
  mkreader (fields r ++ [field r]) "" (state r).

Definition is_newline (c : ascii) : bool := Ascii.eqb c LF || Ascii.eqb c CR.

(** The body of [START_FIELD], which [START_RECORD] falls through to. *)
Definition start_field (r : reader) (c : option ascii) : result reader :=
  match c with
  | None => Ok (set_state (parse_save_field r) START_RECORD)
  | Some ch =>
      if is_newline ch then Ok (set_state (parse_save_field r) EAT_CRNL)
      else if Ascii.eqb ch quotechar then Ok (set_state r IN_QUOTED_FIELD)
      else if Ascii.eqb ch delimiter then Ok (parse_save_field r)
      else r' ← parse_add_char r ch; Ok (set_state r' IN_FIELD)
  end.

(** [parse_process_char]; [None] is the end-of-line marker that the reader
    feeds after the characters of each line. *)
Definition parse_process_char (r : reader) (c : option ascii) : result reader :=
  match state r with
  | START_RECORD =>
      match c with
      | None => Ok r
      | Some ch =>
          if is_newline ch then Ok (set_state r EAT_CRNL)
          else start_field (set_state r START_FIELD) c
      end
  | START_FIELD => start_field r c
  | IN_FIELD =>
      match c with
      | None => Ok (set_state (parse_save_field r) START_RECORD)
      | Some ch =>
          if is_newline ch then Ok (set_state (parse_save_field r) EAT_CRNL)
          else if Ascii.eqb ch delimiter
          then Ok (set_state (parse_save_field r) START_FIELD)
          else parse_add_char r ch
      end
  | IN_QUOTED_FIELD =>
      match c with
      | None => Ok r
      | Some ch =>
          if Ascii.eqb ch quotechar then Ok (set_state r QUOTE_IN_QUOTED_FIELD)
          else parse_add_char r ch
      end
  | QUOTE_IN_QUOTED_FIELD =>
      match c with
      | None => Ok (set_state (parse_save_field r) START_RECORD)
      | Some ch =>
          if Ascii.eqb ch quotechar
          then r' ← parse_add_char r ch; Ok (set_state r' IN_QUOTED_FIELD)
          else if Ascii.eqb ch delimiter
          then Ok (set_state (parse_save_field r) START_FIELD)
          else if is_newline ch
          then Ok (set_state (parse_save_field r) EAT_CRNL)
          else r' ← parse_add_char r ch; Ok (set_state r' IN_FIELD)
      end
  | EAT_CRNL =>
      match c with
      | None => Ok (set_state r START_RECORD)
      | Some ch => if is_newline ch then Ok r else Raise CsvError
      end
  end.

Fixpoint process_chars (r : reader) (s : string) : result reader :=
  match s with
  | EmptyString => Ok r
  | String c s' => r' ← parse_process_char r (Some c); process_chars r' s'
  end.

Definition process_line (r : reader) (line : string) : result reader :=
  r' ← process_chars r line; parse_process_char r' None.

(** At the end of the input a record is still delivered when a field is
    under way. *)
Definition pending (r : reader) : bool :=
  negb (String.eqb (field r) "") || state_eqb (state r) IN_QUOTED_FIELD.

(** The [do ... while] loop of [Reader_iternext], entered with parser [r]
    and the lines not yet consumed: the record (or [None] for
    StopIteration) and the lines left over. *)
Fixpoint iternext_from (r : reader) (lines : list string)
  : result (option (list string) * list string) :=
  match lines with
  | [] =>
      if pending r then Ok (Some (fields (parse_save_field r)), [])
      else Ok (None, [])
  | l :: ls =>
      r' ← process_line r l;
      if state_eqb (state r') START_RECORD then Ok (Some (fields r'), ls)
      else iternext_from r' ls
  end.

(** [next(reader)]. *)
Definition iternext (lines : list string)
  : result (option (list string) * list string) :=
  iternext_from parse_reset lines.

(** Everything the iterator yields until it stops, and how it stops:
    [None] for StopIteration, [Some e] for an exception. *)
Fixpoint records_from (r : reader) (lines : list string)
  : list (list string) * option exn :=
  match lines with
  | [] => if pending r then ([fields (parse_save_field r)], None) else ([], None)
  | l :: ls =>
      match process_line r l with
      | Raise e => ([], Some e)
      | Ok r' =>
          if state_eqb (state r') START_RECORD then
            let '(rs, e) := records_from parse_reset ls in (fields r' :: rs, e)
          else records_from r' ls
      end
  end.

Definition records (lines : list string) : list (list string) * option exn :=
  records_from parse_reset lines.

(** *** The writer *)

(** Characters that force a field into quotes. *)
Definition special (c : ascii) : bool :=
  Ascii.eqb c delimiter || Ascii.eqb c quotechar
  || Ascii.eqb c CR || Ascii.eqb c LF.

Fixpoint has_special (s : string) : bool :=
  match s with
  | EmptyString => false
  | String c s' => special c || has_special s'
  end.

(** The copy phase of [join_append_data]: a quotechar is doubled. *)
Fixpoint join_append_data (s : string) : string :=
  match s with
  | EmptyString => EmptyString
  | String c s' =>
      if Ascii.eqb c quotechar
      then String quotechar (String quotechar (join_append_data s'))
      else String c (join_append_data s')
  end.

(** One field as it is appended to the record; [None] is Python's [None]. *)
Definition join_append (f : option string) (quoted : bool) : string :=
  let s := default "" f in
  if quoted || has_special s
  then String quotechar (join_append_data s ++ String quotechar "")
  else join_append_data s.

Fixpoint join_fields (fs : list (option string)) : string :=
  match fs with
  | [] => ""
  | [f] => join_append f false
  | f :: fs' => join_append f false ++ String delimiter (join_fields fs')
  end.

(** [writer.writerow]: the text handed to the file's [write]. *)
Definition writerow (fs : list (option string)) : string :=
  let rec := join_fields fs in
  let rec := if negb (Nat.eqb (List.length fs) 0) && String.eqb rec ""
             then join_append None true else rec in
  rec ++ lineterminator.

End Csv.

(** ** [csv.DictReader] and [csv.DictWriter] *)

(** A row dictionary as [DictReader] builds it: the entries under the header
    names hold a string, or [None] where the record was too short; the
    fields beyond the header, when there are some, sit under the key
    [None]. *)
Record row : Type := mkrow {
  cells : gmap string (option string);
  restkey : option (list string)
}.

Module DictReader.

(** [dict(zip(fieldnames, record))]: a later entry replaces an earlier one
    with the same key. *)
Definition dict_zip (ks vs : list string) : gmap string (option string) :=
  foldl (fun d kv => <[kv.1 := Some kv.2]> d) ∅ (zip ks vs).

(** [for key in keys: d[key] = restval], with [restval = None]. *)
Definition fill_restval (keys : list string) (d : gmap string (option string))
  : gmap string (option string) :=
  foldl (fun d k => <[k := None]> d) d keys.

(** The dictionary that [__next__] makes of one non-empty record. *)
Definition make_row (fieldnames rec : list string) : row :=
  let d := dict_zip fieldnames rec in
  let lf := List.length fieldnames in
  let lr := List.length rec in
  if (lf <? lr)%nat then mkrow d (Some (drop lf rec))
  else if (lr <? lf)%nat then mkrow (fill_restval (drop lr fieldnames) d) None
  else mkrow d None.

Definition is_blank (rec : list string) : bool :=
  match rec with [] => true | _ :: _ => false end.

(** The rows that iterating the [DictReader] yields once the header has been
    read, and how the iteration ends; blank records are passed over. *)
Definition rows (fieldnames : list string) (lines : list string)
  : list row * option exn :=
  let '(recs, e) := Csv.records lines in
  (map (make_row fieldnames) (filter (fun r => is_blank r = false) recs), e).

End DictReader.

Module DictWriter.

(** [rowdict.keys() - fieldnames] is not empty. *)
Definition wrong_fields (fieldnames : list string) (r : row) : bool :=
  negb (forallb (fun k => bool_decide (k ∈ fieldnames))
                (map fst (map_to_list (cells r))))
  || match restkey r with Some _ => true | None => false end.

(** [_dict_to_list] with [extrasaction = raise] and [restval] the empty
    string. *)
Definition dict_to_list (fieldnames : list string) (r : row)
  : result (list (option string)) :=
  if wrong_fields fieldnames r then Raise ValueError
  else Ok (map (fun k => default (Some "") (cells r !! k)) fieldnames).

Definition writerow (fieldnames : list string) (r : row) : result string :=
  fs ← dict_to_list fieldnames r; Ok (Csv.writerow fs).

Definition writeheader (fieldnames : list string) : result string :=
  writerow fieldnames (mkrow (DictReader.dict_zip fieldnames fieldnames) None).

(** [writerows]: the text written for the rows, or the exception of the
    first row that cannot be written. *)
Fixpoint writerows (fieldnames : list string) (rs : list row) : result string :=
  match rs with
  | [] => Ok ""
  | r :: rs' =>
      line ← writerow fieldnames r;
      rest ← writerows fieldnames rs';
      Ok (line ++ rest)
  end.

End DictWriter.

(** ** The handler *)

(** A notification record: the bucket name and the URL-escaped object key.
    The handler looks at the first record of the event only. *)
Record s3_record : Type := mkrecord {
  bucket_name : string;
  object_key : string
}.

Record event : Type := mkevent { Records : list s3_record }.

(** What the invocation gets from outside: [urllib.parse.unquote_plus], the
    S3 client (the body of a fetched object as decoded text) and the clock. *)
Record env : Type := mkenv {
  unquote_plus : string -> string;
  get_object : string -> string -> result string;
  put_object : string -> string -> string -> string -> result unit;
  now : datetime
}.

Record put_call : Type := mkput {
  put_bucket : string;
  put_key : string;
  put_body : string;
  put_content_type : string
}.

Record response : Type := mkresponse {
  statusCode : Z;
  body : string
}.

(** The result of an invocation: what it returns or raises, and the
    [put_object] calls it made. *)
Record outcome : Type := mkoutcome {
  returned : result response;
  puts : list put_call
}.

Definition raising (e : exn) : outcome := mkoutcome (Raise e) [].

(** The key under which a header enters [header_map]. *)
Definition normalize (h : string) : string :=
  Str.replace "_" "" None (Str.replace " " "" None (Str.lower (Str.strip h))).

(** The dict comprehension: a later header replaces an earlier one with the
    same normal form. *)
Definition header_map (fieldnames : list string) : gmap string string :=
  foldl (fun m h => <[normalize h := h]> m) ∅ fieldnames.

(** [for cand in cands: if cand in header_map: key = header_map[cand]; break]. *)
Fixpoint first_candidate (cands : list string) (hm : gmap string string)
  : option string :=
  match cands with
  | [] => None
  | cand :: cands' =>
      match hm !! cand with
      | Some h => Some h
      | None => first_candidate cands' hm
      end
  end.

Definition status_candidates : list string := ["status"; "orderstatus"].
Definition date_candidates : list string := ["orderdate"; "date"; "order_date"].

Definition find_status_key (hm : gmap string string) : option string :=
  first_candidate status_candidates hm.

Definition find_date_key (hm : gmap string string) : option string :=
  first_candidate (map (Str.replace "_" "" None) date_candidates) hm.

(** Python's [not key] for a key that is [None] or a string. *)
Definition falsy (k : option string) : bool :=
  match k with
  | None => true
  | Some s => String.eqb s ""
  end.

(** [row.get(key) or ""]. *)
Definition get_or_empty (r : row) (key : string) : string :=
  match cells r !! key with
  | Some (Some s) => s
  | _ => ""
  end.

Record loop_state : Type := mkloop {
  kept_rows : list row;
  total : nat;
  filtered_out : nat
}.

Definition loop_init : loop_state := mkloop [] 0 0.

Definition terminal_status (s : string) : bool :=
  String.eqb s "pending" || String.eqb s "cancelled".

(** One pass through the body of [for row in reader]. *)
Definition loop_body (status_key date_key : string) (cutoff : datetime)
           (st : loop_state) (r : row) : loop_state :=
  let total' := S (total st) in
  let status_raw := Str.lower (Str.strip (get_or_empty r status_key)) in
  let date_raw := Str.strip (get_or_empty r date_key) in
  match parse_date date_raw with
  | Raise _ => mkloop (kept_rows st) total' (S (filtered_out st))
  | Ok order_dt =>
      if negb (terminal_status status_raw) || Datetime.gt order_dt cutoff
      then mkloop (kept_rows st ++ [r]) total' (filtered_out st)
      else mkloop (kept_rows st) total' (S (filtered_out st))
  end.

Definition row_loop (status_key date_key : string) (cutoff : datetime)
           (rows : list row) : loop_state :=
  foldl (loop_body status_key date_key cutoff) loop_init rows.

Definition processed_key_of (raw_key : string) : string :=
  Str.replace "raw/" "processed/" (Some 1%nat) raw_key.

Definition str_of_nat (n : nat) : string :=
  DecimalString.NilEmpty.string_of_uint (Nat.to_uint n).

Definition summary (kept total : nat) (processed_key : string) : string :=
  "Kept " ++ str_of_nat kept ++ " of " ++ str_of_nat total
          ++ " rows -> " ++ processed_key.

Definition content_type : string := "text/csv; charset=utf-8".

(** The text of the output object for the kept rows. *)
Definition render (fieldnames : list string) (kept : list row) : result string :=
  header ← DictWriter.writeheader fieldnames;
  rest ← (match kept with
          | [] => Ok ""
          | _ :: _ => DictWriter.writerows fieldnames kept
          end);
  Ok (header ++ rest).

(** Serialising the kept rows and the [put_object] call, with the summary
    that is returned when the call succeeds. *)
Definition write_output (e : env) (bucket raw_key : string)
           (fieldnames : list string) (st : loop_state) : outcome :=
  match render fieldnames (kept_rows st) with
  | Raise ex => raising ex
  | Ok text =>
      let processed_key := processed_key_of raw_key in
      let call := mkput bucket processed_key text content_type in
      match put_object e bucket processed_key text content_type with
      | Raise ex => mkoutcome (Raise ex) [call]
      | Ok _ =>
          mkoutcome
            (Ok (mkresponse 200
                   (summary (List.length (kept_rows st)) (total st) processed_key)))
            [call]
      end
  end.

(** The handler from the point where the header has been read; [lines] are
    the lines after the header record. *)
Definition process (e : env) (bucket raw_key : string)
           (fieldnames : list string) (lines : list string) : outcome :=
  let hm := header_map fieldnames in
  let status_key := find_status_key hm in
  let date_key := find_date_key hm in
  if falsy status_key || falsy date_key then raising KeyError
  else
    match status_key, date_key with
    | Some sk, Some dk =>
        match Datetime.sub_days (now e) 30 with
        | Raise ex => raising ex
        | Ok cutoff =>
            let '(rows, stop) := DictReader.rows fieldnames lines in
            let st := row_loop sk dk cutoff rows in
            match stop with
            | Some ex => raising ex
            | None => write_output e bucket raw_key fieldnames st
            end
        end
    | _, _ => raising KeyError
    end.

Definition lambda_handler (e : env) (ev : event) : outcome :=
  match Records ev with
  | [] => raising IndexError
  | rec :: _ =>
      let bucket := bucket_name rec in
      let raw_key := unquote_plus e (object_key rec) in
      match get_object e bucket raw_key with
      | Raise ex => raising ex
      | Ok text =>
          let lines := splitlines text in
          match lines with
          | [] => mkoutcome (Ok (mkresponse 200 "Empty file")) []
          | _ :: _ =>
              match Csv.iternext lines with
              | Raise ex => raising ex
              | Ok (None, _) => raising KeyError
              | Ok (Some fieldnames, rest) => process e bucket raw_key fieldnames rest
              end
          end
      end
  end.

(** ** Notions used to state the properties *)

(** [sub] occurs in [s] at offset [n]. *)
Definition occurs_at (sub s : string) (n : nat) : Prop :=
  exists pre post, s = pre ++ sub ++ post /\ String.length pre = n.

(** Every character of [s] is white space. *)
Fixpoint all_space (s : string) : bool :=
  match s with
  | EmptyString => true
  | String c s' => Str.isspace c && all_space s'
  end.

(** [s] without the characters that [drop] selects. *)
Fixpoint remove_chars (drop : ascii -> bool) (s : string) : string :=
  match s with
  | EmptyString => EmptyString
  | String c s' =>
      if drop c then remove_chars drop s' else String c (remove_chars drop s')
  end.

Definition space_or_underscore (c : ascii) : bool :=
  Ascii.eqb c " " || Ascii.eqb c "_".

(** The normal form of a header as the specification words it: lower-cased,
    spaces and underscores removed. *)
Definition worded_normalize (h : string) : string :=
  remove_chars space_or_underscore (Str.lower h).

(** The same wording with every white-space character counted as a space. *)
Definition worded_normalize_ws (h : string) : string :=
  remove_chars (fun c => Str.isspace c || Ascii.eqb c "_") (Str.lower h).

(** A datetime whose fields are in range. *)
Definition valid_datetime (t : datetime) : Prop :=
  Datetime.check_date_fields (year t) (month t) (day t) = true
  /\ 0 <= hour t <= 23 /\ 0 <= minute t <= 59 /\ 0 <= second t <= 59
  /\ 0 <= microsecond t <= 999999.

(** The point in time of a datetime, in microseconds from the start of
    ordinal day 0. *)
Definition instant (t : datetime) : Z :=
  (((Datetime.toordinal t * 24 + hour t) * 60 + minute t) * 60 + second t) * 1000000
  + microsecond t.

(** The month and day of the [r]-th day (from 0) of a year, as [_ord2ymd]
    finds them: an estimate of the month, corrected when it is too large. *)
Definition month_day (leapyear : bool) (r : Z) : Z * Z :=
  let m := Z.shiftr (r + 50) 5 in
  let preceding :=
    nth (Z.to_nat m) Datetime.DAYS_BEFORE_MONTH 0
    + (if (2 <? m) && leapyear then 1 else 0) in
  if r <? preceding then
    let m' := m - 1 in
    let preceding' :=
      preceding - (nth (Z.to_nat m') Datetime.DAYS_IN_MONTH 0
                   + (if (m' =? 2) && leapyear then 1 else 0)) in
    (m', r - preceding' + 1)
  else (m, r - preceding + 1).

(** The month and day found are a date of the year, and the [r]-th one. *)
Definition month_day_ok (leapyear : bool) (r : Z) : bool :=
  let '(m, d) := month_day leapyear r in
  (1 <=? m) && (m <=? 12) && (1 <=? d)
  && (d <=? (if (m =? 2) && leapyear then 29
             else nth (Z.to_nat m) Datetime.DAYS_IN_MONTH 0))
  && (nth (Z.to_nat m) Datetime.DAYS_BEFORE_MONTH 0
      + (if (2 <? m) && leapyear then 1 else 0) + d =? r + 1).

(** Microseconds in a day. *)
Definition day_us : Z := 24 * 60 * 60 * 1000000.

(** The decision of the loop body on one row: [true] when the row goes to
    [kept_rows]. *)
Definition retained (status_key date_key : string) (cutoff : datetime) (r : row) : bool :=
  match parse_date (Str.strip (get_or_empty r date_key)) with
  | Raise _ => false
  | Ok order_dt =>
      negb (terminal_status (Str.lower (Str.strip (get_or_empty r status_key))))
      || Datetime.gt order_dt cutoff
  end.

(** [s] holds a character at which [str.splitlines] breaks. *)
Fixpoint has_linebreak (s : string) : bool :=
  match s with
  | EmptyString => false
  | String c s' => Str.islinebreak c || has_linebreak s'
  end.

(** A field that the reader can deliver from text cut by [splitlines]: free
    of line boundaries and within the field size limit. *)
Definition field_ok (f : string) : Prop :=
  has_linebreak f = false /\ (N.of_nat (String.length f) <= Csv.field_limit)%N.

(** The text that the writer produces for a sequence of records. *)
Fixpoint write_records (recs : list (list string)) : string :=
  match recs with
  | [] => ""
  | fs :: recs' => Csv.writerow (map Some fs) ++ write_records recs'
  end.

(** The states in which a field is complete but not yet saved. *)
Definition field_read (st : Csv.parser_state) : Prop :=
  st = Csv.START_FIELD \/ st = Csv.IN_FIELD \/ st = Csv.QUOTE_IN_QUOTED_FIELD.

(** The fields of a reader, complete or under way, are deliverable. *)
Definition reader_ok (r : Csv.reader) : Prop :=
  Forall field_ok (Csv.fields r) /\ field_ok (Csv.field r).

(** ** Sample data for the worked instances *)

Module Sample.

Definition nl : string := String "010" "".

(** The clock reads 1 March 2024, midnight; thirty days earlier is
    31 January 2024. *)
Definition clock : datetime := mkdatetime 2024 3 1 0 0 0 0.
Definition cutoff : datetime := mkdatetime 2024 1 31 0 0 0 0.

(** A client that serves [text] for every key and accepts every write. *)
Definition client (text : string) : env :=
  mkenv (fun k => k) (fun _ _ => Ok text) (fun _ _ _ _ => Ok tt) clock.

Definition notification : event := mkevent [mkrecord "orders" "raw/2024/jan.csv"].

Definition header : list string := ["Status"; "OrderDate"].

Definition at_cutoff : row := DictReader.make_row header ["pending"; "2024-01-31"].
Definition recent : row := DictReader.make_row header ["pending"; "2024-02-01"].
Definition shipped : row := DictReader.make_row header ["shipped"; "2020-01-01"].
Definition undated : row := DictReader.make_row header ["shipped"; "soon"].

Definition orders : string :=
  "Status,OrderDate" ++ nl ++ "shipped,2020-01-01" ++ nl ++ nl
  ++ "pending,2024-02-01" ++ nl.

Definition no_columns : string := "Name,Total" ++ nl ++ "x,1" ++ nl.

(** Three inputs on which nothing is filtered out: a record longer than the
    header, a record shorter than the header, and a header name that occurs
    twice. *)
Definition long_record : string :=
  "Status,OrderDate" ++ nl ++ "shipped,2024-01-15,gift" ++ nl.

(** The [put_object] call expected for the notification, with body [text]. *)
Definition written (text : string) : put_call :=
  mkput "orders" "processed/2024/jan.csv" text content_type.

End Sample.

(** ** Further notions *)

(** [lines] joined into a text, each followed by the terminator [term]. *)
Fixpoint join_lines (term : string) (lines : list string) : string :=
  match lines with
  | [] => ""
  | l :: ls => l ++ term ++ join_lines term ls
  end.

(** The fields that [DictWriter] writes for a row: the value under each
    header name, the empty string where the row has none. *)
Definition row_values (fieldnames : list string) (r : row) : list string :=
  map (fun k => default "" (default (Some "") (cells r !! k))) fieldnames.

(** The number of characters in a list of lines. *)
Definition total_length (lines : list string) : nat :=
  foldr (fun l n => (String.length l + n)%nat) 0%nat lines.

(** A character that a date directive can match: a digit or a space. *)
Definition digit_or_space (c : ascii) : bool := Str.isdigit c || Ascii.eqb c " ".

(** The first character of [s] that is neither a digit nor a space, with its
    offset. *)
Fixpoint first_separator (s : string) : option (nat * ascii) :=
  match s with
  | EmptyString => None
  | String c s' =>
      if digit_or_space c then
        match first_separator s' with
        | Some (n, x) => Some (S n, x)
        | None => None
        end
      else Some (0%nat, c)
  end.

(** An atom that matches digits and spaces only. *)
Definition numeric_atom (x : Strptime.atom) : bool :=
  match x with
  | Strptime.Digit => true
  | Strptime.Range lo hi => ((48 <=? Str.code lo) && (Str.code hi <=? 57))%N
  | Strptime.Char c => digit_or_space c
  end.

(** The decimal digit for the units of [n]. *)
Definition digit_char (n : Z) : ascii := ascii_of_N (Z.to_N (48 + n mod 10)).

(** [n] written with two and with four digits, zero-padded. *)
Definition two_digits (n : Z) : string :=
  String (digit_char (n / 10)) (String (digit_char n) "").

Definition four_digits (n : Z) : string :=
  String (digit_char (n / 1000)) (String (digit_char (n / 100)) (two_digits n)).

(** A date written year first with dashes, as in 2024-01-15. *)
Definition iso_date (y m d : Z) : string :=
  four_digits y ++ "-" ++ two_digits m ++ "-" ++ two_digits d.

(** A second client and notification for the same object: the client knows
    the object [raw/2024/jan.csv] only and accepts a write to
    [processed/2024/jan.csv] only, and the notification carries a further
    record. *)
Definition narrow_client (text : string) : env :=
  mkenv (fun k => k)
        (fun _ k => if String.eqb k "raw/2024/jan.csv" then Ok text else Raise ClientError)
        (fun _ k _ _ =>
           if String.eqb k "processed/2024/jan.csv" then Ok tt else Raise ClientError)
        Sample.clock.

Definition batch : event :=
  mkevent [mkrecord "orders" "raw/2024/jan.csv"; mkrecord "orders" "raw/2024/feb.csv"].

(** Three orders, the second with a date that no format parses. *)
Definition undated_orders : string :=
  "Status,OrderDate" ++ Sample.nl ++ "shipped,2020-01-01" ++ Sample.nl
  ++ "shipped,soon" ++ Sample.nl ++ "pending,2024-02-01" ++ Sample.nl.

(** A client whose store has no object. *)
Definition failing_client : env :=
  mkenv (fun k => k) (fun _ _ => Raise ClientError) (fun _ _ _ _ => Ok tt) Sample.clock.

(** * Properties *)

(** ** Results *)

Lemma is_ok_false {A} (r : result A) : is_ok r = false <-> exists e, r = Raise e.
Proof.
  destruct r as [a | e]; simpl; split; intros H; try discriminate; eauto.
  destruct H as [e H]; discriminate.
Qed.

(** ** [parse_date] *)

Lemma make_fields y m d hh mm ss us dt :
  Datetime.make y m d hh mm ss us = Ok dt ->
  dt = mkdatetime y m d hh mm ss us /\ Datetime.check_date_fields y m d = true.
Proof.
  unfold Datetime.make. intros H.
  destruct (Datetime.check_date_fields y m d) eqn:Hc; simpl in H; [| discriminate].
  split; [| reflexivity].
  destruct (_ && _) in H; congruence.
Qed.

Lemma strptime_midnight s fmt dt :
  Strptime.strptime s fmt = Ok dt ->
  hour dt = 0 /\ minute dt = 0 /\ second dt = 0 /\ microsecond dt = 0
  /\ Datetime.check_date_fields (year dt) (month dt) (day dt) = true.
Proof.
  unfold Strptime.strptime. intros H.
  destruct (Strptime.pattern fmt) as [p |]; [| discriminate].
  destruct (Strptime.re_match p s) as [[g rest] |]; [| discriminate].
  destruct (negb _); [discriminate |].
  apply make_fields in H as [-> Hc]. simpl. auto.
Qed.

Lemma parse_date_loop_ok fmts s dt :
  parse_date_loop fmts s = Ok dt <->
  exists (i : nat) fmt,
    fmts !! i = Some fmt
    /\ Strptime.strptime (Str.strip s) fmt = Ok dt
    /\ forall (j : nat) fmt', (j < i)%nat -> fmts !! j = Some fmt' ->
         is_ok (Strptime.strptime (Str.strip s) fmt') = false.
Proof.
  induction fmts as [| f fmts IH]; simpl.
  - split; [discriminate |]. intros (i & fmt & H & _). destruct i; discriminate.
  - destruct (Strptime.strptime (Str.strip s) f) as [dt' | e] eqn:Hf.
    + split.
      * intros [= ->]. exists 0%nat, f. repeat split; auto. intros j ? Hj. lia.
      * intros (i & fmt & Hi & Hfmt & Hprev). destruct i as [| i].
        -- injection Hi as <-. congruence.
        -- specialize (Hprev 0%nat f ltac:(lia) eq_refl). rewrite Hf in Hprev. discriminate.
    + rewrite IH. split.
      * intros (i & fmt & Hi & Hfmt & Hprev). exists (S i), fmt. repeat split; auto.
        intros [| j] fmt' Hj Hl.
        -- injection Hl as <-. rewrite Hf. reflexivity.
        -- apply (Hprev j); [lia | exact Hl].
      * intros (i & fmt & Hi & Hfmt & Hprev). destruct i as [| i].
        -- injection Hi as <-. congruence.
        -- exists i, fmt. repeat split; auto.
           intros j fmt' Hj Hl. apply (Hprev (S j)); [lia | exact Hl].
Qed.

Lemma parse_date_loop_raise fmts s e :
  parse_date_loop fmts s = Raise e <->
  e = ValueError /\
  forall fmt, fmt ∈ fmts -> is_ok (Strptime.strptime (Str.strip s) fmt) = false.
Proof.
  induction fmts as [| f fmts IH]; simpl.
  - split.
    + intros [= <-]. split; [reflexivity |]. intros fmt H. inversion H.
    + intros [-> _]. reflexivity.
  - destruct (Strptime.strptime (Str.strip s) f) as [dt' | e'] eqn:Hf.
    + split; [discriminate |]. intros [_ H].
      specialize (H f ltac:(left)). rewrite Hf in H. discriminate.
    + rewrite IH. split; intros [-> H]; (split; [reflexivity |]).
      * intros fmt Hin. apply elem_of_cons in Hin as [-> | Hin]; [by rewrite Hf | auto].
      * intros fmt Hin. apply H. by right.
Qed.

(** ** Strings *)

Lemma sapp_cons c (s t : string) : String c s ++ t = String c (s ++ t).
Proof. reflexivity. Qed.

Lemma sapp_nil_l (s : string) : "" ++ s = s.
Proof. reflexivity. Qed.

Lemma sapp_nil_r (s : string) : s ++ "" = s.
Proof. induction s as [| c s IH]; [reflexivity |]. rewrite sapp_cons, IH. reflexivity. Qed.

Lemma sapp_assoc (a b c : string) : (a ++ b) ++ c = a ++ b ++ c.
Proof. induction a as [| x a IH]; [reflexivity |]. rewrite !sapp_cons, IH. reflexivity. Qed.

Lemma slength_app (a b : string) :
  String.length (a ++ b) = (String.length a + String.length b)%nat.
Proof. induction a as [| x a IH]; [reflexivity |]. rewrite sapp_cons. simpl. rewrite IH. reflexivity. Qed.

Lemma startswith_spec p s : Str.startswith p s = true <-> exists t, s = p ++ t.
Proof.
  revert s. induction p as [| a p IH]; intros s; simpl.
  - split; eauto.
  - destruct s as [| b s].
    + split; [discriminate |]. intros [t H]. discriminate.
    + rewrite andb_true_iff, Ascii.eqb_eq, IH. split.
      * intros [-> [t ->]]. exists t. reflexivity.
      * intros [t H]. rewrite sapp_cons in H. injection H as -> ->. eauto.
Qed.

Lemma occurs_at_0 sub s : occurs_at sub s 0 <-> Str.startswith sub s = true.
Proof.
  rewrite startswith_spec. split.
  - intros (pre & post & -> & Hl). destruct pre; [| discriminate]. eauto.
  - intros [t ->]. exists "", t. split; reflexivity.
Qed.

Lemma occurs_at_S sub c s n : occurs_at sub (String c s) (S n) <-> occurs_at sub s n.
Proof.
  split.
  - intros (pre & post & H & Hl). destruct pre as [| c' pre]; [discriminate |].
    rewrite sapp_cons in H. injection H as -> ->. injection Hl as Hl.
    exists pre, post. auto.
  - intros (pre & post & -> & Hl). exists (String c pre), post. simpl. auto.
Qed.

(** Once the count is used up, the scan only passes over the rest of the
    occurrence and copies what follows. *)
Lemma replace_from_done old new (a b : string) :
  Str.replace_from old new (Some 0%nat) (String.length a) (a ++ b) = b.
Proof.
  induction a as [| c a IH].
  - simpl. rewrite sapp_nil_l. induction b as [| c b IH]; [reflexivity |].
    simpl. rewrite IH. reflexivity.
  - rewrite sapp_cons. simpl. exact IH.
Qed.

Lemma replace_first_occurrence old new pre post :
  old <> "" ->
  (forall m, (m < String.length pre)%nat -> ~ occurs_at old (pre ++ old ++ post) m) ->
  Str.replace old new (Some 1%nat) (pre ++ old ++ post) = pre ++ new ++ post.
Proof.
  intros Hne. unfold Str.replace. induction pre as [| c pre IH]; intros Hfirst.
  - rewrite !sapp_nil_l. destruct old as [| c old]; [congruence |].
    rewrite sapp_cons.
    change (Str.replace_from (String c old) new (Some 1%nat) 0 (String c (old ++ post)))
      with (if true && Str.startswith (String c old) (String c (old ++ post))
            then new ++ Str.replace_from (String c old) new (Some 0%nat)
                          (Nat.pred (String.length (String c old))) (old ++ post)
            else String c (Str.replace_from (String c old) new (Some 1%nat) 0 (old ++ post))).
    assert (Str.startswith (String c old) (String c (old ++ post)) = true) as ->.
    { apply startswith_spec. exists post. reflexivity. }
    simpl andb. cbv iota. simpl Nat.pred. rewrite replace_from_done. reflexivity.
  - rewrite !sapp_cons.
    assert (Str.startswith old (String c (pre ++ old ++ post)) = false) as Hs.
    { destruct (Str.startswith old _) eqn:E; [| reflexivity].
      exfalso. apply (Hfirst 0%nat); [simpl; lia |].
      apply occurs_at_0. exact E. }
    simpl. rewrite Hs. simpl. f_equal. apply IH.
    intros m Hm Hocc. apply (Hfirst (S m)); [simpl; lia |].
    rewrite sapp_cons. apply occurs_at_S. exact Hocc.
Qed.

Lemma replace_absent old new count s :
  (forall m, ~ occurs_at old s m) -> Str.replace old new count s = s.
Proof.
  unfold Str.replace. induction s as [| c s IH]; intros Habs; [reflexivity |].
  simpl.
  assert (Str.startswith old (String c s) = false) as ->.
  { destruct (Str.startswith old _) eqn:E; [| reflexivity].
    exfalso. apply (Habs 0%nat). apply occurs_at_0. exact E. }
  rewrite andb_false_r. f_equal. apply IH.
  intros m Hocc. apply (Habs (S m)). apply occurs_at_S. exact Hocc.
Qed.

(** The [put_object] calls of an invocation: none, or one under the derived
    key. *)
Lemma write_output_puts e bucket raw_key fieldnames st :
  forall call, call ∈ puts (write_output e bucket raw_key fieldnames st) ->
    put_bucket call = bucket /\ put_key call = processed_key_of raw_key
    /\ put_content_type call = content_type.
Proof.
  intros call. unfold write_output.
  destruct (render fieldnames (kept_rows st)) as [text | ex]; simpl.
  - destruct (put_object e _ _ _ _); simpl; intros ->%list_elem_of_singleton; auto.
  - intros H. inversion H.
Qed.

Lemma process_puts e bucket raw_key fieldnames lines :
  forall call, call ∈ puts (process e bucket raw_key fieldnames lines) ->
    put_bucket call = bucket /\ put_key call = processed_key_of raw_key
    /\ put_content_type call = content_type.
Proof.
  intros call. unfold process.
  destruct (falsy _ || falsy _); [intros H; inversion H |].
  destruct (find_status_key _) as [sk |]; [| intros H; inversion H].
  destruct (find_date_key _) as [dk |]; [| intros H; inversion H].
  destruct (Datetime.sub_days _ _) as [cutoff | ex]; [| intros H; inversion H].
  destruct (DictReader.rows fieldnames lines) as [rows [ex |]]; [intros H; inversion H |].
  apply write_output_puts.
Qed.

Lemma lambda_handler_puts e ev rec recs :
  Records ev = rec :: recs ->
  forall call, call ∈ puts (lambda_handler e ev) ->
    put_bucket call = bucket_name rec
    /\ put_key call = processed_key_of (unquote_plus e (object_key rec))
    /\ put_content_type call = content_type.
Proof.
  intros Hev call. unfold lambda_handler. rewrite Hev.
  destruct (get_object e _ _) as [text | ex]; [| intros H; inversion H].
  destruct (splitlines text) as [| l ls] eqn:Hl; [intros H; inversion H |].
  destruct (Csv.iternext (l :: ls)) as [[[hdr |] rest] | ex];
    try (intros H; inversion H; fail).
  apply process_puts.
Qed.

(** C4: the destination key is the decoded source key with its first
    occurrence of [raw/] replaced by [processed/]; a key in which [raw/] does
    not occur is left as it is; every [put_object] call of the handler goes
    to that key.  [raw/2024/jan.csv] maps to [processed/2024/jan.csv] and
    [archive/jan.csv] to itself. *)
Theorem C4_destination_key :
  (forall pre post,
      (forall m, (m < String.length pre)%nat ->
         ~ occurs_at "raw/" (pre ++ "raw/" ++ post) m) ->
      processed_key_of (pre ++ "raw/" ++ post) = pre ++ "processed/" ++ post)
  /\ (forall key, (forall m, ~ occurs_at "raw/" key m) -> processed_key_of key = key)
  /\ (forall e ev rec recs call,
        Records ev = rec :: recs -> call ∈ puts (lambda_handler e ev) ->
        put_key call = processed_key_of (unquote_plus e (object_key rec)))
  /\ processed_key_of "raw/2024/jan.csv" = "processed/2024/jan.csv"
  /\ processed_key_of "archive/jan.csv" = "archive/jan.csv".
Proof.
  split.
  { intros pre post H. apply replace_first_occurrence; [discriminate | exact H]. }
  split.
  { intros key H. apply replace_absent, H. }
  split.
  { intros e ev rec recs call Hev Hin.
    destruct (lambda_handler_puts e ev rec recs Hev call Hin) as (_ & H & _). exact H. }
  split; reflexivity.
Qed.

(** ** Trimming *)

Lemma rstrip_app_space s w : all_space w = true -> Str.rstrip (s ++ w) = Str.rstrip s.
Proof.
  intros Hw. induction s as [| c s IH].
  - rewrite sapp_nil_l. induction w as [| c w IHw]; [reflexivity |].
    simpl in Hw. apply andb_true_iff in Hw as [Hc Hw].
    simpl. rewrite IHw, Hc by exact Hw. reflexivity.
  - rewrite sapp_cons. simpl. rewrite IH. reflexivity.
Qed.

Lemma lstrip_space_app w s : all_space w = true -> Str.lstrip (w ++ s) = Str.lstrip s.
Proof.
  induction w as [| c w IH]; intros Hw; [reflexivity |].
  simpl in Hw. apply andb_true_iff in Hw as [Hc Hw].
  rewrite sapp_cons. simpl. rewrite Hc. apply IH, Hw.
Qed.

Lemma rstrip_space_app w s :
  all_space w = true ->
  Str.rstrip (w ++ s) = if String.eqb (Str.rstrip s) "" then "" else w ++ Str.rstrip s.
Proof.
  induction w as [| c w IH]; intros Hw.
  - rewrite !sapp_nil_l. destruct (String.eqb_spec (Str.rstrip s) ""); congruence.
  - simpl in Hw. apply andb_true_iff in Hw as [Hc Hw].
    rewrite sapp_cons. simpl. rewrite IH, Hc by exact Hw.
    destruct (String.eqb_spec (Str.rstrip s) "") as [E | E]; [reflexivity |].
    destruct (w ++ Str.rstrip s) eqn:Happ; [| rewrite sapp_cons, Happ; reflexivity].
    exfalso. destruct w; [rewrite sapp_nil_l in Happ; contradiction | discriminate].
Qed.

Lemma strip_surrounding w1 s w2 :
  all_space w1 = true -> all_space w2 = true ->
  Str.strip (w1 ++ s ++ w2) = Str.strip s.
Proof.
  intros H1 H2. unfold Str.strip.
  rewrite <- sapp_assoc, rstrip_app_space, rstrip_space_app by assumption.
  destruct (String.eqb_spec (Str.rstrip s) "") as [-> | _]; [reflexivity |].
  apply lstrip_space_app, H1.
Qed.

Lemma parse_date_loop_strip fmts s s' :
  Str.strip s = Str.strip s' -> parse_date_loop fmts s = parse_date_loop fmts s'.
Proof.
  intros E. induction fmts as [| f fmts IH]; [reflexivity |].
  simpl. rewrite E, IH. reflexivity.
Qed.

(** C3: [parse_date] trims the string and tries the formats of
    [DATE_FORMATS] -- YYYY-MM-DD, MM/DD/YYYY, YYYY/MM/DD, DD-MM-YYYY -- in that
    order; it returns the first successful parse, which is midnight of a valid
    calendar date, and it fails, with [ValueError], exactly when no format
    matches.  White space around the string does not change the result.  The
    four sample spellings of 15 January 2024 parse to the same date, each
    under its own format, and [not-a-date] fails. *)
Theorem C3_parse_date_first_matching_format (s : string) :
  DATE_FORMATS = ["%Y-%m-%d"; "%m/%d/%Y"; "%Y/%m/%d"; "%d-%m-%Y"]
  /\ (forall dt, parse_date s = Ok dt <->
        exists (i : nat) fmt,
          DATE_FORMATS !! i = Some fmt
          /\ Strptime.strptime (Str.strip s) fmt = Ok dt
          /\ forall (j : nat) fmt', (j < i)%nat -> DATE_FORMATS !! j = Some fmt' ->
               is_ok (Strptime.strptime (Str.strip s) fmt') = false)
  /\ (forall w1 w2, all_space w1 = true -> all_space w2 = true ->
        parse_date (w1 ++ s ++ w2) = parse_date s)
  /\ (forall dt, parse_date s = Ok dt ->
        hour dt = 0 /\ minute dt = 0 /\ second dt = 0 /\ microsecond dt = 0
        /\ Datetime.check_date_fields (year dt) (month dt) (day dt) = true)
  /\ (is_ok (parse_date s) = false <->
        forall fmt, fmt ∈ DATE_FORMATS ->
          is_ok (Strptime.strptime (Str.strip s) fmt) = false)
  /\ (forall e, parse_date s = Raise e -> e = ValueError)
  /\ parse_date "2024-01-15" = Ok (mkdatetime 2024 1 15 0 0 0 0)
  /\ parse_date "01/15/2024" = Ok (mkdatetime 2024 1 15 0 0 0 0)
  /\ parse_date "2024/01/15" = Ok (mkdatetime 2024 1 15 0 0 0 0)
  /\ parse_date "15-01-2024" = Ok (mkdatetime 2024 1 15 0 0 0 0)
  /\ Strptime.strptime "2024-01-15" "%Y-%m-%d" = Ok (mkdatetime 2024 1 15 0 0 0 0)
  /\ Strptime.strptime "01/15/2024" "%m/%d/%Y" = Ok (mkdatetime 2024 1 15 0 0 0 0)
  /\ Strptime.strptime "2024/01/15" "%Y/%m/%d" = Ok (mkdatetime 2024 1 15 0 0 0 0)
  /\ Strptime.strptime "15-01-2024" "%d-%m-%Y" = Ok (mkdatetime 2024 1 15 0 0 0 0)
  /\ parse_date "not-a-date" = Raise ValueError.
Proof.
  split; [reflexivity |].
  split; [intros dt; apply parse_date_loop_ok |].
  split.
  { intros w1 w2 H1 H2. apply parse_date_loop_strip, strip_surrounding; assumption. }
  split.
  { intros dt H. apply parse_date_loop_ok in H as (i & fmt & _ & H & _).
    eapply strptime_midnight, H. }
  split.
  { rewrite is_ok_false. split.
    - intros [e H]. apply parse_date_loop_raise in H as [_ H]. exact H.
    - intros H. exists ValueError. apply parse_date_loop_raise. auto. }
  split.
  { intros e H. apply parse_date_loop_raise in H as [-> _]. reflexivity. }
  repeat split; vm_compute; reflexivity.
Qed.

(** ** Header resolution *)

Lemma replace_char_remove c s :
  Str.replace (String c "") "" None s = remove_chars (Ascii.eqb c) s.
Proof.
  unfold Str.replace. induction s as [| x s IH]; [reflexivity |].
  simpl. destruct (Ascii.eqb c x); simpl; rewrite IH; reflexivity.
Qed.

Lemma remove_chars_twice p q s :
  remove_chars q (remove_chars p s) = remove_chars (fun c => p c || q c) s.
Proof.
  induction s as [| x s IH]; [reflexivity |].
  simpl. destruct (p x); simpl; [exact IH |].
  destruct (q x); rewrite IH; reflexivity.
Qed.

Lemma normalize_spec h :
  normalize h = remove_chars space_or_underscore (Str.lower (Str.strip h)).
Proof.
  unfold normalize. rewrite !replace_char_remove, remove_chars_twice. reflexivity.
Qed.

Lemma foldl_header_map (m : gmap string string) (hs : list string) (k : string) :
  foldl (fun m h => <[normalize h := h]> m) m hs !! k
  = match last (filter (fun h => normalize h = k) hs) with
    | Some h => Some h
    | None => m !! k
    end.
Proof.
  revert m. induction hs as [| h hs IH]; intros m; [reflexivity |].
  simpl. rewrite IH. rewrite filter_cons.
  destruct (decide (normalize h = k)) as [Heq | Hne].
  - rewrite last_cons. destruct (last (filter _ hs)); [reflexivity |].
    rewrite <- Heq. apply lookup_insert_eq.
  - destruct (last _); [reflexivity |]. apply lookup_insert_ne. exact Hne.
Qed.

Lemma header_map_lookup (hs : list string) (k : string) :
  header_map hs !! k = last (filter (fun h => normalize h = k) hs).
Proof.
  unfold header_map. rewrite foldl_header_map, lookup_empty.
  destruct (last _); reflexivity.
Qed.

Lemma header_map_is_Some (hs : list string) (h : string) :
  h ∈ hs -> is_Some (header_map hs !! normalize h).
Proof.
  intros Hin. rewrite header_map_lookup.
  destruct (last _) eqn:Hl; [eauto |].
  apply last_None in Hl.
  assert (h ∈ filter (fun h' => normalize h' = normalize h) hs) as Hf
      by (apply list_elem_of_filter; auto).
  rewrite Hl in Hf. inversion Hf.
Qed.

Lemma header_map_value (hs : list string) (k h : string) :
  header_map hs !! k = Some h -> h ∈ hs /\ normalize h = k.
Proof.
  rewrite header_map_lookup. intros Hl.
  assert (h ∈ filter (fun h' => normalize h' = k) hs) as Hf.
  { apply last_Some in Hl as [l' ->]. apply elem_of_app. right. by left. }
  apply list_elem_of_filter in Hf as [? ?]. auto.
Qed.

(** C2, as worded, fails: the code also trims the white space around a
    header before it lower-cases it.  A header [Status] followed by a tab has
    the worded normal form [status] plus the tab, yet the code normalises it
    to [status] and resolves it as the status column.  Reading "space" as any
    white space does not help: [Order], tab, [Status] would then normalise to
    [orderstatus], yet the code does not resolve it. *)
Lemma C2_counterexample_trailing_tab :
  let tab := String "009" "" in
  normalize ("Status" ++ tab) <> worded_normalize ("Status" ++ tab)
  /\ worded_normalize ("Status" ++ tab) = "status" ++ tab
  /\ find_status_key (header_map ["Status" ++ tab; "Date"]) = Some ("Status" ++ tab)
  /\ worded_normalize_ws ("Order" ++ tab ++ "Status") = "orderstatus"
  /\ find_status_key (header_map ["Order" ++ tab ++ "Status"; "Date"]) = None.
Proof.
  vm_compute. repeat split; discriminate.
Qed.

(** C2, amended: a header is normalised by trimming the white space around
    it, lower-casing it and removing every space and underscore; among
    headers with one normal form the last one wins; the status column is the
    header under [status], else the one under [orderstatus]; the date column
    is the header under [orderdate], else the one under [date].  The headers
    [Status], [STATUS], [order_status] and [OrderStatus] all resolve. *)
Theorem C2_header_resolution (fieldnames : list string) :
  let hm := header_map fieldnames in
  (forall h, normalize h = remove_chars space_or_underscore (Str.lower (Str.strip h)))
  /\ (forall k, hm !! k = last (filter (fun h => normalize h = k) fieldnames))
  /\ find_status_key hm
     = match hm !! "status" with Some h => Some h | None => hm !! "orderstatus" end
  /\ find_date_key hm
     = match hm !! "orderdate" with Some h => Some h | None => hm !! "date" end
  /\ (forall h, h ∈ ["Status"; "STATUS"; "order_status"; "OrderStatus"] ->
        find_status_key (header_map [h]) = Some h
        /\ (h ∈ fieldnames -> is_Some (find_status_key hm))).
Proof.
  intros hm. split; [exact normalize_spec |].
  split; [intros k; apply header_map_lookup |].
  split.
  { unfold find_status_key, status_candidates. simpl.
    destruct (hm !! "status"); [reflexivity |]. destruct (hm !! "orderstatus"); reflexivity. }
  split.
  { unfold find_date_key, date_candidates. simpl.
    change (Str.replace "_" "" None "orderdate") with "orderdate".
    change (Str.replace "_" "" None "date") with "date".
    change (Str.replace "_" "" None "order_date") with "orderdate".
    destruct (hm !! "orderdate"); [reflexivity |]. destruct (hm !! "date"); reflexivity. }
  intros h Hh. split.
  { repeat (apply elem_of_cons in Hh as [-> | Hh]; [vm_compute; reflexivity |]).
    inversion Hh. }
  intros Hin. apply header_map_is_Some in Hin. fold hm in Hin.
  unfold find_status_key, status_candidates. simpl.
  assert (normalize h = "status" \/ normalize h = "orderstatus") as [E | E].
  { repeat (apply elem_of_cons in Hh as [-> | Hh]; [vm_compute; auto |]). inversion Hh. }
  - rewrite E in Hin. destruct Hin as [x ->]. eauto.
  - rewrite E in Hin. destruct (hm !! "status"); [eauto |].
    destruct Hin as [x ->]. eauto.
Qed.

(** ** Ordinals and calendar dates *)

Lemma month_day_checked leapyear r :
  0 <= r < 365 -> month_day_ok leapyear r = true.
Proof.
  intros Hr.
  assert (forallb (fun r => month_day_ok true r && month_day_ok false r) (seqZ 0 365) = true)
    as Hall by (vm_compute; reflexivity).
  rewrite forallb_forall in Hall.
  specialize (Hall r). rewrite <- list_elem_of_In, elem_of_seqZ in Hall.
  specialize (Hall ltac:(lia)). apply andb_true_iff in Hall as [Ht Hf].
  destruct leapyear; assumption.
Qed.

Lemma ord2ymd_unfold n :
  Datetime.ord2ymd n =
  let n0 := n - 1 in
  let n400 := n0 / 146097 in let r400 := n0 mod 146097 in
  let n100 := r400 / 36524 in let r100 := r400 mod 36524 in
  let n4 := r100 / 1461 in let r4 := r100 mod 1461 in
  let n1 := r4 / 365 in let r1 := r4 mod 365 in
  let y := n400 * 400 + 1 + n100 * 100 + n4 * 4 + n1 in
  if (n1 =? 4) || (n100 =? 4) then (y - 1, 12, 31)
  else
    let md := month_day ((n1 =? 3) && (negb (n4 =? 24) || (n100 =? 3))) r1 in
    (y, md.1, md.2).
Proof.
  unfold Datetime.ord2ymd, month_day, Datetime.DI400Y, Datetime.DI100Y, Datetime.DI4Y.
  cbv zeta.
  destruct (_ || _); [reflexivity |].
  destruct (_ <? _); reflexivity.
Qed.

Lemma ord2ymd_spec n :
  1 <= n <= Datetime.MAXORDINAL ->
  let '(y, m, d) := Datetime.ord2ymd n in
  Datetime.check_date_fields y m d = true /\ Datetime.ymd2ord y m d = n.
Proof.
  unfold Datetime.MAXORDINAL. intros Hn. rewrite ord2ymd_unfold. cbv zeta.
  set (n0 := n - 1).
  set (n400 := n0 / 146097). set (r400 := n0 mod 146097).
  set (n100 := r400 / 36524). set (r100 := r400 mod 36524).
  set (n4 := r100 / 1461). set (r4 := r100 mod 1461).
  set (n1 := r4 / 365). set (r1 := r4 mod 365).
  assert (n0 = 146097 * n400 + r400 /\ 0 <= r400 < 146097) as [E400 B400]
      by (subst n400 r400; Z.div_mod_to_equations; lia).
  assert (r400 = 36524 * n100 + r100 /\ 0 <= r100 < 36524) as [E100 B100]
      by (subst n100 r100; Z.div_mod_to_equations; lia).
  assert (r100 = 1461 * n4 + r4 /\ 0 <= r4 < 1461) as [E4 B4]
      by (subst n4 r4; Z.div_mod_to_equations; lia).
  assert (r4 = 365 * n1 + r1 /\ 0 <= r1 < 365) as [E1 B1]
      by (subst n1 r1; Z.div_mod_to_equations; lia).
  assert (0 <= n400 <= 24) by lia.
  assert (0 <= n100 <= 4) by lia.
  assert (0 <= n4 <= 24) by lia.
  assert (0 <= n1 <= 4) by lia.
  clearbody n400 r400 n100 r100 n4 r4 n1 r1. subst n0.
  set (y := n400 * 400 + 1 + n100 * 100 + n4 * 4 + n1).
  destruct (Z.eqb_spec n1 4) as [Hn1 | Hn1]; simpl orb.
  - (* the last day of a four-year cycle *)
    assert (Datetime.is_leap (y - 1) = true) as Hleap.
    { unfold Datetime.is_leap, y.
      apply andb_true_iff. split.
      - apply Z.eqb_eq. Z.div_mod_to_equations. lia.
      - apply orb_true_iff. left. apply negb_true_iff, Z.eqb_neq.
        Z.div_mod_to_equations. lia. }
    unfold Datetime.check_date_fields, Datetime.ymd2ord, Datetime.days_in_month,
      Datetime.days_before_month, Datetime.MINYEAR, Datetime.MAXYEAR.
    rewrite Hleap. simpl. split.
    + repeat (apply andb_true_iff; split); try reflexivity; apply Z.leb_le; unfold y; lia.
    + unfold Datetime.days_before_year, y. Z.div_mod_to_equations. lia.
  - destruct (Z.eqb_spec n100 4) as [Hn100 | Hn100].
    + (* the last day of a 400-year cycle *)
      assert (Datetime.is_leap (y - 1) = true) as Hleap.
      { unfold Datetime.is_leap, y.
        apply andb_true_iff. split.
        - apply Z.eqb_eq. Z.div_mod_to_equations. lia.
        - apply orb_true_iff. right. apply Z.eqb_eq. Z.div_mod_to_equations. lia. }
      unfold Datetime.check_date_fields, Datetime.ymd2ord, Datetime.days_in_month,
        Datetime.days_before_month, Datetime.MINYEAR, Datetime.MAXYEAR.
      rewrite Hleap. simpl. split.
      * repeat (apply andb_true_iff; split); try reflexivity; apply Z.leb_le; unfold y; lia.
      * unfold Datetime.days_before_year, y. Z.div_mod_to_equations. lia.
    + set (leapyear := (n1 =? 3) && (negb (n4 =? 24) || (n100 =? 3))).
      assert (Datetime.is_leap y = leapyear) as Hleap.
      { unfold Datetime.is_leap, leapyear, y.
        destruct (Z.eqb_spec n1 3) as [H3 | H3];
          destruct (Z.eqb_spec n4 24) as [H24 | H24];
          destruct (Z.eqb_spec n100 3) as [H1003 | H1003]; simpl;
          repeat match goal with
                 | |- context [?a mod ?b =? 0] =>
                     destruct (Z.eqb_spec (a mod b) 0)
                 end; simpl; try reflexivity; exfalso;
          Z.div_mod_to_equations; lia. }
      pose proof (month_day_checked leapyear r1 B1) as Hmd.
      unfold month_day_ok in Hmd.
      destruct (month_day leapyear r1) as [m d]. simpl fst. simpl snd.
      repeat (apply andb_true_iff in Hmd as [Hmd ?]).
      unfold Datetime.check_date_fields, Datetime.ymd2ord, Datetime.days_in_month,
        Datetime.days_before_month, Datetime.MINYEAR, Datetime.MAXYEAR.
      rewrite Hleap. split.
      * repeat (apply andb_true_iff; split); try assumption; apply Z.leb_le; unfold y; lia.
      * match goal with H : (_ =? r1 + 1) = true |- _ => apply Z.eqb_eq in H; rewrite <- (Z.add_assoc (Datetime.days_before_year y)), H end.
        unfold Datetime.days_before_year, y. Z.div_mod_to_equations. lia.
Qed.

(** Taking days off a datetime moves it back by that much time. *)
Lemma sub_days_spec t k c :
  valid_datetime t -> Datetime.sub_days t k = Ok c ->
  valid_datetime c /\ instant c = instant t - k * day_us.
Proof.
  intros (Hd & Hh & Hm & Hs & Hu). unfold Datetime.sub_days.
  destruct (_ && _) eqn:Hrange; [| discriminate].
  apply andb_true_iff in Hrange as [Hlo Hhi].
  apply Z.ltb_lt in Hlo. apply Z.leb_le in Hhi.
  pose proof (ord2ymd_spec (Datetime.toordinal t - k) ltac:(lia)) as Hord.
  destruct (Datetime.ord2ymd (Datetime.toordinal t - k)) as [[y m] d].
  destruct Hord as [Hc Ho]. intros [= <-]. split.
  - unfold valid_datetime. simpl. auto.
  - unfold instant, Datetime.toordinal, day_us. simpl. rewrite Ho.
    unfold Datetime.toordinal. lia.
Qed.

(** ** Chronological order *)

Lemma days_before_year_step y :
  Datetime.days_before_year (y + 1)
  = Datetime.days_before_year y + 365 + (if Datetime.is_leap y then 1 else 0).
Proof.
  unfold Datetime.days_before_year, Datetime.is_leap.
  replace (y + 1 - 1) with y by lia.
  destruct (Z.eqb_spec (y mod 4) 0) as [H4 | H4];
    destruct (Z.eqb_spec (y mod 100) 0) as [H100 | H100];
    destruct (Z.eqb_spec (y mod 400) 0) as [H400 | H400]; simpl;
    Z.div_mod_to_equations; lia.
Qed.

Lemma days_before_year_mono y1 y2 :
  y1 <= y2 -> Datetime.days_before_year y1 <= Datetime.days_before_year y2.
Proof.
  unfold Datetime.days_before_year. intros H. Z.div_mod_to_equations. lia.
Qed.

Lemma day_of_year_bounds y m d :
  Datetime.check_date_fields y m d = true ->
  1 <= Datetime.days_before_month y m + d
    <= 365 + (if Datetime.is_leap y then 1 else 0).
Proof.
  unfold Datetime.check_date_fields, Datetime.days_before_month, Datetime.days_in_month.
  intros H. repeat (apply andb_true_iff in H as [H ?]).
  assert (m = 1 \/ m = 2 \/ m = 3 \/ m = 4 \/ m = 5 \/ m = 6 \/ m = 7 \/ m = 8
          \/ m = 9 \/ m = 10 \/ m = 11 \/ m = 12) as Hm by lia.
  destruct (Datetime.is_leap y);
    repeat (destruct Hm as [-> | Hm]; [simpl in *; lia |]); subst m; simpl in *; lia.
Qed.

Lemma ymd2ord_year_lt y1 m1 d1 y2 m2 d2 :
  Datetime.check_date_fields y1 m1 d1 = true ->
  Datetime.check_date_fields y2 m2 d2 = true ->
  y1 < y2 -> Datetime.ymd2ord y1 m1 d1 < Datetime.ymd2ord y2 m2 d2.
Proof.
  intros H1 H2 Hy. unfold Datetime.ymd2ord.
  pose proof (day_of_year_bounds _ _ _ H1). pose proof (day_of_year_bounds _ _ _ H2).
  pose proof (days_before_year_step y1).
  pose proof (days_before_year_mono (y1 + 1) y2 ltac:(lia)). lia.
Qed.

Lemma ymd2ord_month_lt y m1 d1 m2 d2 :
  Datetime.check_date_fields y m1 d1 = true ->
  Datetime.check_date_fields y m2 d2 = true ->
  m1 < m2 -> Datetime.ymd2ord y m1 d1 < Datetime.ymd2ord y m2 d2.
Proof.
  unfold Datetime.ymd2ord, Datetime.check_date_fields, Datetime.days_before_month,
    Datetime.days_in_month.
  intros H1 H2 Hm.
  repeat (apply andb_true_iff in H1 as [H1 ?]).
  repeat (apply andb_true_iff in H2 as [H2 ?]).
  assert (m1 = 1 \/ m1 = 2 \/ m1 = 3 \/ m1 = 4 \/ m1 = 5 \/ m1 = 6 \/ m1 = 7 \/ m1 = 8
          \/ m1 = 9 \/ m1 = 10 \/ m1 = 11 \/ m1 = 12) as Hm1 by lia.
  assert (m2 = 1 \/ m2 = 2 \/ m2 = 3 \/ m2 = 4 \/ m2 = 5 \/ m2 = 6 \/ m2 = 7 \/ m2 = 8
          \/ m2 = 9 \/ m2 = 10 \/ m2 = 11 \/ m2 = 12) as Hm2 by lia.
  destruct (Datetime.is_leap y);
    repeat (destruct Hm1 as [-> | Hm1]); try subst m1;
    repeat (destruct Hm2 as [-> | Hm2]); try subst m2;
    simpl in *; lia.
Qed.

Lemma toordinal_order a b :
  valid_datetime a -> valid_datetime b ->
  (Datetime.toordinal a < Datetime.toordinal b <->
     year a < year b
     \/ (year a = year b /\ (month a < month b
                              \/ (month a = month b /\ day a < day b)))).
Proof.
  intros [Ha _] [Hb _]. unfold Datetime.toordinal.
  destruct (Z.lt_trichotomy (year a) (year b)) as [Hy | [Hy | Hy]].
  - pose proof (ymd2ord_year_lt _ _ _ _ _ _ Ha Hb Hy). lia.
  - rewrite Hy in *. destruct (Z.lt_trichotomy (month a) (month b)) as [Hm | [Hm | Hm]].
    + pose proof (ymd2ord_month_lt _ _ _ _ _ Ha Hb Hm). lia.
    + rewrite Hm in *. unfold Datetime.ymd2ord. lia.
    + pose proof (ymd2ord_month_lt _ _ _ _ _ Hb Ha Hm). lia.
  - pose proof (ymd2ord_year_lt _ _ _ _ _ _ Hb Ha Hy). lia.
Qed.

(** [>] on datetimes is "later than". *)
Lemma gt_chronological a b :
  valid_datetime a -> valid_datetime b ->
  (Datetime.gt a b = true <-> instant b < instant a).
Proof.
  intros Ha Hb.
  pose proof (toordinal_order a b Ha Hb) as Hab.
  pose proof (toordinal_order b a Hb Ha) as Hba.
  destruct Ha as (_ & ? & ? & ? & ?), Hb as (_ & ? & ? & ? & ?).
  unfold Datetime.gt, Datetime.fields, Datetime.lex_gt, instant.
  rewrite !orb_true_iff, !andb_true_iff, !Z.ltb_lt, !Z.eqb_eq.
  lia.
Qed.

Lemma parse_date_valid s dt : parse_date s = Ok dt -> valid_datetime dt.
Proof.
  intros H. apply parse_date_loop_ok in H as (i & fmt & _ & H & _).
  apply strptime_midnight in H as (Hh & Hm & Hs & Hu & Hc).
  unfold valid_datetime. rewrite Hh, Hm, Hs, Hu. repeat split; [exact Hc | lia ..].
Qed.

(** ** The row loop *)

Section RowLoop.

Variables (status_key date_key : string) (cutoff : datetime).

#[local] Abbreviation body := (loop_body status_key date_key cutoff).
#[local] Abbreviation keeps := (retained status_key date_key cutoff).

Lemma loop_body_retained st r :
  keeps r = true ->
  body st r = mkloop (kept_rows st ++ [r])%list (S (total st)) (filtered_out st).
Proof.
  unfold retained, loop_body. destruct (parse_date _); [| discriminate].
  intros ->. reflexivity.
Qed.

Lemma loop_body_dropped st r :
  keeps r = false ->
  body st r = mkloop (kept_rows st) (S (total st)) (S (filtered_out st)).
Proof.
  unfold retained, loop_body. destruct (parse_date _); [| reflexivity].
  intros ->. reflexivity.
Qed.

Lemma foldl_loop_kept st rows :
  kept_rows (foldl body st rows)
  = (kept_rows st ++ filter (fun r => keeps r = true) rows)%list.
Proof.
  revert st. induction rows as [| r rows IH]; intros st; simpl.
  - rewrite app_nil_r. reflexivity.
  - rewrite IH. destruct (keeps r) eqn:Hk.
    + rewrite loop_body_retained, filter_cons_True by exact Hk. simpl.
      rewrite <- app_assoc. reflexivity.
    + rewrite loop_body_dropped, filter_cons_False by congruence. reflexivity.
Qed.

Lemma foldl_loop_total st rows :
  total (foldl body st rows) = (total st + List.length rows)%nat.
Proof.
  revert st. induction rows as [| r rows IH]; intros st; simpl; [lia |].
  rewrite IH. destruct (keeps r) eqn:Hk.
  - rewrite loop_body_retained by exact Hk. simpl. lia.
  - rewrite loop_body_dropped by exact Hk. simpl. lia.
Qed.

Lemma foldl_loop_filtered st rows :
  filtered_out (foldl body st rows)
  = (filtered_out st + List.length (filter (fun r => keeps r = false) rows))%nat.
Proof.
  revert st. induction rows as [| r rows IH]; intros st; simpl; [lia |].
  rewrite IH. destruct (keeps r) eqn:Hk.
  - rewrite loop_body_retained, filter_cons_False by congruence. reflexivity.
  - rewrite loop_body_dropped, filter_cons_True by exact Hk. simpl. lia.
Qed.

(** Every pass keeps the books balanced. *)
Lemma loop_body_balance st r :
  total st = (List.length (kept_rows st) + filtered_out st)%nat ->
  total (body st r)
  = (List.length (kept_rows (body st r)) + filtered_out (body st r))%nat.
Proof.
  intros H. destruct (keeps r) eqn:Hk.
  - rewrite loop_body_retained by exact Hk. simpl. rewrite length_app. simpl. lia.
  - rewrite loop_body_dropped by exact Hk. simpl. lia.
Qed.

Lemma foldl_loop_balance st rows :
  total st = (List.length (kept_rows st) + filtered_out st)%nat ->
  let st' := foldl body st rows in
  total st' = (List.length (kept_rows st') + filtered_out st')%nat.
Proof.
  revert st. induction rows as [| r rows IH]; intros st H; simpl; [exact H |].
  apply IH, loop_body_balance, H.
Qed.

Lemma row_loop_kept rows :
  kept_rows (row_loop status_key date_key cutoff rows)
  = filter (fun r => keeps r = true) rows.
Proof. unfold row_loop. rewrite foldl_loop_kept. reflexivity. Qed.

Lemma row_loop_all_kept rows :
  Forall (fun r => keeps r = true) rows ->
  row_loop status_key date_key cutoff rows = mkloop rows (List.length rows) 0.
Proof.
  intros Hall. unfold row_loop.
  pose proof (foldl_loop_kept loop_init rows) as Hk.
  pose proof (foldl_loop_total loop_init rows) as Ht.
  pose proof (foldl_loop_filtered loop_init rows) as Hf.
  destruct (foldl body loop_init rows) as [k t f]. simpl in *.
  subst. f_equal.
  - induction Hall as [| r rows Hr Hall IH]; [reflexivity |].
    rewrite filter_cons_True by exact Hr. f_equal. exact IH.
  - induction Hall as [| r rows Hr Hall IH]; [reflexivity |].
    rewrite filter_cons_False by congruence. exact IH.
Qed.

(** Whether the output can be written does not depend on the counters. *)
Lemma write_output_same_kept e bucket raw_key fieldnames st st' :
  kept_rows st = kept_rows st' ->
  puts (write_output e bucket raw_key fieldnames st)
  = puts (write_output e bucket raw_key fieldnames st')
  /\ is_ok (returned (write_output e bucket raw_key fieldnames st))
     = is_ok (returned (write_output e bucket raw_key fieldnames st')).
Proof.
  intros Hk. unfold write_output. rewrite Hk.
  destruct (render fieldnames (kept_rows st')); [| auto].
  destruct (put_object e _ _ _ _); auto.
Qed.

Lemma write_output_ok e bucket raw_key fieldnames st resp :
  returned (write_output e bucket raw_key fieldnames st) = Ok resp ->
  resp = mkresponse 200 (summary (List.length (kept_rows st)) (total st)
                                 (processed_key_of raw_key)).
Proof.
  unfold write_output.
  destruct (render fieldnames (kept_rows st)); [| discriminate].
  destruct (put_object e _ _ _ _); [| discriminate].
  simpl. congruence.
Qed.

Lemma lex_gt_irrefl l : Datetime.lex_gt l l = false.
Proof.
  induction l as [| x l IH]; [reflexivity |].
  simpl. rewrite Z.ltb_irrefl, Z.eqb_refl, IH. reflexivity.
Qed.

Lemma gt_irrefl t : Datetime.gt t t = false.
Proof. apply lex_gt_irrefl. Qed.

Lemma terminal_status_spec s :
  terminal_status s = true <-> s = "pending" \/ s = "cancelled".
Proof.
  unfold terminal_status. rewrite orb_true_iff, !String.eqb_eq. reflexivity.
Qed.

End RowLoop.

(** C1: with the cutoff the invocation time minus thirty days, a row whose
    date value parses is among the kept rows exactly when its trimmed,
    lower-cased status is neither [pending] nor [cancelled], or its parsed
    date is strictly after the cutoff.  For a clock with fields in range the
    cutoff lies thirty days of time before the invocation and "after" is
    later in time.  A pending or cancelled row dated exactly at the cutoff is
    not kept. *)
Theorem C1_retention_rule (e : env) (status_key date_key : string)
        (cutoff : datetime) (rows : list row) (r : row) (dt : datetime) :
  Datetime.sub_days (now e) 30 = Ok cutoff ->
  r ∈ rows ->
  parse_date (Str.strip (get_or_empty r date_key)) = Ok dt ->
  let status := Str.lower (Str.strip (get_or_empty r status_key)) in
  let kept := kept_rows (row_loop status_key date_key cutoff rows) in
  (r ∈ kept <->
     (status <> "pending" /\ status <> "cancelled") \/ Datetime.gt dt cutoff = true)
  /\ (valid_datetime (now e) ->
      instant cutoff = instant (now e) - 30 * day_us
      /\ (Datetime.gt dt cutoff = true <-> instant cutoff < instant dt))
  /\ ((status = "pending" \/ status = "cancelled") -> dt = cutoff -> r ∉ kept).
Proof.
  intros Hcut Hin Hdt status kept.
  assert (r ∈ kept <->
          (status <> "pending" /\ status <> "cancelled") \/ Datetime.gt dt cutoff = true)
    as Hiff.
  { unfold kept. rewrite row_loop_kept, list_elem_of_filter.
    unfold retained. rewrite Hdt. fold status.
    rewrite orb_true_iff, negb_true_iff.
    pose proof (terminal_status_spec status) as Ht.
    destruct (terminal_status status).
    - split.
      + intros [[H | H] _]; [discriminate | auto].
      + intros [[H1 H2] | H]; [| auto].
        destruct (proj1 Ht eq_refl); contradiction.
    - split; [| auto]. intros _. left.
      split; intros E; assert (false = true) by (apply Ht; auto); discriminate. }
  split; [exact Hiff |].
  split.
  { intros Hnow. destruct (sub_days_spec _ _ _ Hnow Hcut) as [Hc Hi].
    split; [exact Hi |]. apply gt_chronological; [| exact Hc].
    eapply parse_date_valid, Hdt. }
  intros Hst -> Hk. apply Hiff in Hk as [[H1 H2] | Hgt].
  - destruct Hst; contradiction.
  - rewrite gt_irrefl in Hgt. discriminate.
Qed.

(** C1 at the boundary: a pending row dated at the cutoff is dropped. *)
Lemma C1_witness_boundary :
  Sample.at_cutoff ∉ kept_rows (row_loop "Status" "OrderDate" Sample.cutoff
                                  [Sample.shipped; Sample.at_cutoff; Sample.recent]).
Proof.
  refine (proj2 (proj2 (C1_retention_rule (Sample.client "") "Status" "OrderDate"
                   Sample.cutoff [Sample.shipped; Sample.at_cutoff; Sample.recent]
                   Sample.at_cutoff Sample.cutoff _ _ _)) _ _).
  - vm_compute. reflexivity.
  - apply list_elem_of_further, list_elem_of_here.
  - vm_compute. reflexivity.
  - left. vm_compute. reflexivity.
  - reflexivity.
Defined.

(** C9: after the row loop every row has been counted once, as kept or as
    filtered out: [total = len(kept_rows) + filtered_out], and [total] is the
    number of rows.  A returned summary therefore reads [Kept k of t rows]
    with [k <= t]. *)
Theorem C9_counters_balance (status_key date_key : string) (cutoff : datetime)
        (rows : list row) :
  let st := row_loop status_key date_key cutoff rows in
  total st = (List.length (kept_rows st) + filtered_out st)%nat
  /\ total st = List.length rows
  /\ (List.length (kept_rows st) <= total st)%nat
  /\ (forall e bucket raw_key fieldnames lines resp,
        returned (process e bucket raw_key fieldnames lines) = Ok resp ->
        exists kept total : nat,
          resp = mkresponse 200 (summary kept total (processed_key_of raw_key))
          /\ (kept <= total)%nat).
Proof.
  intros st.
  assert (forall sk dk c rs,
             let st := row_loop sk dk c rs in
             total st = (List.length (kept_rows st) + filtered_out st)%nat) as Hbal.
  { intros sk dk c rs. apply foldl_loop_balance. reflexivity. }
  split; [apply Hbal |].
  split; [unfold st, row_loop; rewrite foldl_loop_total; reflexivity |].
  split; [pose proof (Hbal status_key date_key cutoff rows) as H; cbv zeta in H; fold st in H; lia |].
  intros e bucket raw_key fieldnames lines resp. unfold process.
  destruct (falsy _ || falsy _); [discriminate |].
  destruct (find_status_key _) as [sk |]; [| discriminate].
  destruct (find_date_key _) as [dk |]; [| discriminate].
  destruct (Datetime.sub_days _ _) as [c | ex]; [| discriminate].
  destruct (DictReader.rows fieldnames lines) as [rs [ex |]]; [discriminate |].
  intros H%write_output_ok. eexists _, _. split; [exact H |].
  pose proof (Hbal sk dk c rs) as Hb. cbv zeta in Hb. lia.
Qed.

(** ** Row dictionaries *)

Section Dicts.

#[local] Abbreviation ins :=
  (fun (d : gmap string (option string)) (kv : string * string) =>
     <[kv.1 := Some kv.2]> d).

Lemma foldl_zip_absent (m : gmap string (option string)) ks vs k :
  k ∉ ks -> foldl ins m (zip ks vs) !! k = m !! k.
Proof.
  revert m vs. induction ks as [| k' ks IH]; intros m vs Hk; [reflexivity |].
  destruct vs as [| v vs]; [reflexivity |].
  apply not_elem_of_cons in Hk as [Hne Hk].
  simpl. rewrite IH by exact Hk. apply lookup_insert_ne. congruence.
Qed.

Lemma foldl_zip_keys (m : gmap string (option string)) ks vs k :
  is_Some (foldl ins m (zip ks vs) !! k) -> k ∈ ks \/ is_Some (m !! k).
Proof.
  destruct (decide (k ∈ ks)) as [Hin | Hnin]; [auto |].
  rewrite foldl_zip_absent by exact Hnin. auto.
Qed.

Lemma foldl_zip_self (m : gmap string (option string)) ks k :
  k ∈ ks -> foldl ins m (zip ks ks) !! k = Some (Some k).
Proof.
  revert m. induction ks as [| k' ks IH]; intros m Hk; [inversion Hk |].
  simpl. destruct (decide (k ∈ ks)) as [Hin | Hnin]; [apply IH, Hin |].
  apply elem_of_cons in Hk as [-> | Hk]; [| contradiction].
  rewrite foldl_zip_absent by exact Hnin. apply lookup_insert_eq.
Qed.

Lemma foldl_zip_values (m : gmap string (option string)) ks vs :
  NoDup ks -> List.length ks = List.length vs ->
  map (fun k => default (Some "") (foldl ins m (zip ks vs) !! k)) ks = map Some vs.
Proof.
  revert m vs. induction ks as [| k ks IH]; intros m vs Hnd Hlen.
  - destruct vs; [reflexivity | discriminate].
  - destruct vs as [| v vs]; [discriminate |].
    apply NoDup_cons in Hnd as [Hk Hnd]. injection Hlen as Hlen.
    simpl. rewrite foldl_zip_absent by exact Hk. rewrite lookup_insert_eq. simpl.
    f_equal. apply IH; assumption.
Qed.

End Dicts.

Lemma wrong_fields_false fieldnames d :
  (forall k, is_Some (d !! k) -> k ∈ fieldnames) ->
  DictWriter.wrong_fields fieldnames (mkrow d None) = false.
Proof.
  intros Hkeys. unfold DictWriter.wrong_fields. simpl. rewrite orb_false_r.
  apply negb_false_iff, forallb_forall. intros k Hin.
  apply bool_decide_eq_true, Hkeys.
  apply list_elem_of_In, list_elem_of_fmap in Hin as [[k' v] [-> Hin]].
  apply elem_of_map_to_list in Hin. simpl. eauto.
Qed.

Lemma wrong_fields_restkey fieldnames d rest :
  DictWriter.wrong_fields fieldnames (mkrow d (Some rest)) = true.
Proof. unfold DictWriter.wrong_fields. simpl. apply orb_true_r. Qed.

Lemma dict_zip_keys ks vs k : is_Some (DictReader.dict_zip ks vs !! k) -> k ∈ ks.
Proof.
  intros H. apply foldl_zip_keys in H as [H | H]; [exact H |].
  rewrite lookup_empty in H. destruct H; discriminate.
Qed.

(** The header row goes out as the header names, whatever they are. *)
Lemma writeheader_spec fieldnames :
  DictWriter.writeheader fieldnames = Ok (Csv.writerow (map Some fieldnames)).
Proof.
  unfold DictWriter.writeheader, DictWriter.writerow, DictWriter.dict_to_list.
  rewrite wrong_fields_false by apply dict_zip_keys. simpl.
  do 2 f_equal. apply map_ext_in. intros k Hk.
  unfold DictReader.dict_zip. rewrite foldl_zip_self by (apply list_elem_of_In, Hk).
  reflexivity.
Qed.


(** A record longer than the header cannot be written. *)
Lemma writerow_long_row fieldnames rec :
  (List.length fieldnames < List.length rec)%nat ->
  DictWriter.writerow fieldnames (DictReader.make_row fieldnames rec) = Raise ValueError.
Proof.
  intros Hlen. unfold DictReader.make_row.
  apply Nat.ltb_lt in Hlen. rewrite Hlen.
  unfold DictWriter.writerow, DictWriter.dict_to_list.
  rewrite wrong_fields_restkey. reflexivity.
Qed.

(** ** The handler *)

Lemma splitlines_nil text : splitlines text = [] <-> text = "".
Proof.
  split; [| intros ->; reflexivity].
  induction text as [| c text IH]; [reflexivity |]. simpl.
  destruct (Str.islinebreak c).
  - destruct (_ && _) eqn:E; [| discriminate].
    intros H. apply IH in H. subst text.
    apply andb_true_iff in E as [_ E]. discriminate.
  - destruct (splitlines text); discriminate.
Qed.

Lemma normalize_empty : normalize "" = "".
Proof. reflexivity. Qed.

Lemma first_candidate_value cands hs h :
  first_candidate cands (header_map hs) = Some h ->
  h ∈ hs /\ normalize h ∈ cands.
Proof.
  induction cands as [| c cands IH]; simpl; [discriminate |].
  destruct (header_map hs !! c) as [h' |] eqn:Hl.
  - intros [= ->]. apply header_map_value in Hl as [? <-]. split; [assumption | by left].
  - intros H. apply IH in H as [? ?]. split; [assumption | by right].
Qed.

Lemma first_candidate_truthy cands hs h :
  "" ∉ cands -> first_candidate cands (header_map hs) = Some h -> falsy (Some h) = false.
Proof.
  intros Hc H. apply first_candidate_value in H as [_ H].
  simpl. apply String.eqb_neq. intros ->. rewrite normalize_empty in H. contradiction.
Qed.

Lemma resolved_truthy hs sk dk :
  find_status_key (header_map hs) = Some sk ->
  find_date_key (header_map hs) = Some dk ->
  falsy (Some sk) || falsy (Some dk) = false.
Proof.
  intros Hs Hd. apply orb_false_iff. split.
  - eapply first_candidate_truthy; [| exact Hs].
    intros H%list_elem_of_In. simpl in H. intuition discriminate.
  - eapply first_candidate_truthy; [| exact Hd].
    intros H%list_elem_of_In. vm_compute in H. intuition discriminate.
Qed.

Lemma process_unresolved e bucket raw_key fieldnames lines :
  find_status_key (header_map fieldnames) = None
  \/ find_date_key (header_map fieldnames) = None ->
  process e bucket raw_key fieldnames lines = raising KeyError.
Proof.
  unfold process. intros [-> | ->]; simpl.
  - reflexivity.
  - rewrite orb_true_r. reflexivity.
Qed.

Lemma iternext_nil : Csv.iternext [] = Ok (None, []).
Proof. reflexivity. Qed.

Lemma iternext_single line x rest : Csv.iternext [line] = Ok (x, rest) -> rest = [].
Proof.
  unfold Csv.iternext. simpl.
  destruct (Csv.process_line Csv.parse_reset line) as [r' | ex]; simpl; [| discriminate].
  destruct (Csv.state_eqb _ _); [congruence |].
  destruct (Csv.pending r'); congruence.
Qed.

(** C5: when the status column or the date column does not resolve from
    the header row, the invocation raises [KeyError] without a [put_object]
    call, whatever lines follow the header: no row is looked at. *)
Theorem C5_missing_column_is_fatal (e : env) (ev : event) (rec : s3_record)
        (recs : list s3_record) (text : string) (fieldnames : list string)
        (rest : list string) :
  Records ev = rec :: recs ->
  get_object e (bucket_name rec) (unquote_plus e (object_key rec)) = Ok text ->
  Csv.iternext (splitlines text) = Ok (Some fieldnames, rest) ->
  find_status_key (header_map fieldnames) = None
  \/ find_date_key (header_map fieldnames) = None ->
  lambda_handler e ev = mkoutcome (Raise KeyError) []
  /\ forall lines, process e (bucket_name rec) (unquote_plus e (object_key rec))
                           fieldnames lines
                   = mkoutcome (Raise KeyError) [].
Proof.
  intros Hev Hget Hhdr Hmiss. split.
  - unfold lambda_handler. rewrite Hev, Hget.
    destruct (splitlines text) as [| l ls] eqn:Hl.
    + rewrite iternext_nil in Hhdr. discriminate.
    + rewrite Hhdr. apply process_unresolved, Hmiss.
  - intros lines. apply process_unresolved, Hmiss.
Qed.

(** C5 on a file with the columns [Name] and [Total]. *)
Lemma C5_witness_no_columns :
  lambda_handler (Sample.client Sample.no_columns) Sample.notification
  = mkoutcome (Raise KeyError) [].
Proof.
  refine (proj1 (C5_missing_column_is_fatal (Sample.client Sample.no_columns)
                   Sample.notification (mkrecord "orders" "raw/2024/jan.csv") []
                   Sample.no_columns ["Name"; "Total"] ["x,1"] _ _ _ _)).
  - reflexivity.
  - reflexivity.
  - vm_compute. reflexivity.
  - left. vm_compute. reflexivity.
Defined.

(** C6: for an object whose text has no lines -- the empty text -- the
    handler returns status 200 with the body [Empty file] and makes no
    [put_object] call. *)
Theorem C6_empty_input (e : env) (ev : event) (rec : s3_record)
        (recs : list s3_record) (text : string) :
  Records ev = rec :: recs ->
  get_object e (bucket_name rec) (unquote_plus e (object_key rec)) = Ok text ->
  splitlines text = [] ->
  lambda_handler e ev = mkoutcome (Ok (mkresponse 200 "Empty file")) []
  /\ text = "".
Proof.
  intros Hev Hget Hl. split.
  - unfold lambda_handler. rewrite Hev, Hget, Hl. reflexivity.
  - apply splitlines_nil, Hl.
Qed.

(** C6 on the empty object. *)
Lemma C6_witness_empty_object :
  lambda_handler (Sample.client "") Sample.notification
  = mkoutcome (Ok (mkresponse 200 "Empty file")) [].
Proof.
  refine (proj1 (C6_empty_input (Sample.client "") Sample.notification
                   (mkrecord "orders" "raw/2024/jan.csv") [] "" _ _ _));
    reflexivity.
Defined.


(** ** Lines *)

Lemma has_linebreak_app a b :
  has_linebreak (a ++ b) = has_linebreak a || has_linebreak b.
Proof.
  induction a as [| c a IH]; [reflexivity |].
  rewrite sapp_cons. simpl. rewrite IH, orb_assoc. reflexivity.
Qed.

Lemma splitlines_no_linebreak text :
  Forall (fun l => has_linebreak l = false) (splitlines text).
Proof.
  induction text as [| c text IH]; simpl; [constructor |].
  destruct (Str.islinebreak c) eqn:Hc.
  - destruct (_ && _); [exact IH | constructor; [reflexivity | exact IH]].
  - destruct (splitlines text) as [| l ls].
    + constructor; [| constructor]. simpl. rewrite Hc. reflexivity.
    + apply Forall_cons in IH as [Hl Hls]. constructor; [| exact Hls].
      simpl. rewrite Hc, Hl. reflexivity.
Qed.

(** A line written with its terminator comes back as that line. *)
Lemma splitlines_terminated l rest :
  has_linebreak l = false ->
  splitlines (l ++ Csv.lineterminator ++ rest) = l :: splitlines rest.
Proof.
  induction l as [| c l IH]; intros Hl.
  - reflexivity.
  - simpl in Hl. apply orb_false_iff in Hl as [Hc Hl].
    rewrite sapp_cons. simpl. rewrite Hc, IH by exact Hl. reflexivity.
Qed.

(** ** The reader on what the writer wrote *)

Lemma process_chars_app r a b :
  Csv.process_chars r (a ++ b)
  = (r' ← Csv.process_chars r a; Csv.process_chars r' b).
Proof.
  revert r. induction a as [| c a IH]; intros r; [reflexivity |].
  rewrite sapp_cons. simpl.
  destruct (Csv.parse_process_char r (Some c)) as [r' | ex]; simpl; [apply IH | reflexivity].
Qed.

Lemma parse_add_char_ok fs fld st c :
  (N.of_nat (String.length fld) < Csv.field_limit)%N ->
  Csv.parse_add_char (Csv.mkreader fs fld st) c
  = Ok (Csv.mkreader fs (fld ++ String c "") st).
Proof.
  intros H. unfold Csv.parse_add_char. simpl.
  destruct (N.leb_spec Csv.field_limit (N.of_nat (String.length fld))); [lia | reflexivity].
Qed.

Lemma special_false c :
  Csv.special c = false ->
  Csv.is_newline c = false /\ Ascii.eqb c Csv.quotechar = false
  /\ Ascii.eqb c Csv.delimiter = false.
Proof.
  unfold Csv.special, Csv.is_newline. intros H.
  repeat (apply orb_false_iff in H as [H ?]).
  repeat split; try assumption. apply orb_false_iff. auto.
Qed.

Lemma sapp_snoc (a : string) c (b : string) : (a ++ String c "") ++ b = a ++ String c b.
Proof. rewrite sapp_assoc. reflexivity. Qed.

Lemma process_chars_cons r c s :
  Csv.process_chars r (String c s)
  = (r' ← Csv.parse_process_char r (Some c); Csv.process_chars r' s).
Proof. reflexivity. Qed.

Lemma bind_ok {A B} (a : A) (k : A -> result B) : (x ← Ok a; k x) = k a.
Proof. reflexivity. Qed.

Lemma step_in_field fs fld c :
  Csv.special c = false ->
  (N.of_nat (String.length fld) < Csv.field_limit)%N ->
  Csv.parse_process_char (Csv.mkreader fs fld Csv.IN_FIELD) (Some c)
  = Ok (Csv.mkreader fs (fld ++ String c "") Csv.IN_FIELD).
Proof.
  intros (Hn & Hq & Hd)%special_false Hlen.
  unfold Csv.parse_process_char. simpl. rewrite Hn, Hd.
  apply parse_add_char_ok, Hlen.
Qed.

Lemma step_start_field fs c :
  Csv.special c = false ->
  Csv.parse_process_char (Csv.mkreader fs "" Csv.START_FIELD) (Some c)
  = Ok (Csv.mkreader fs (String c "") Csv.IN_FIELD).
Proof.
  intros (Hn & Hq & Hd)%special_false.
  unfold Csv.parse_process_char, Csv.start_field. simpl. rewrite Hn, Hq, Hd.
  reflexivity.
Qed.

Lemma step_open_quote fs :
  Csv.parse_process_char (Csv.mkreader fs "" Csv.START_FIELD) (Some Csv.quotechar)
  = Ok (Csv.mkreader fs "" Csv.IN_QUOTED_FIELD).
Proof. reflexivity. Qed.

Lemma step_quote_in_quoted fs fld :
  Csv.parse_process_char (Csv.mkreader fs fld Csv.IN_QUOTED_FIELD) (Some Csv.quotechar)
  = Ok (Csv.mkreader fs fld Csv.QUOTE_IN_QUOTED_FIELD).
Proof. reflexivity. Qed.

Lemma step_doubled_quote fs fld :
  (N.of_nat (String.length fld) < Csv.field_limit)%N ->
  Csv.parse_process_char (Csv.mkreader fs fld Csv.QUOTE_IN_QUOTED_FIELD)
                         (Some Csv.quotechar)
  = Ok (Csv.mkreader fs (fld ++ String Csv.quotechar "") Csv.IN_QUOTED_FIELD).
Proof.
  intros Hlen. unfold Csv.parse_process_char. simpl.
  rewrite parse_add_char_ok by exact Hlen. reflexivity.
Qed.

Lemma step_in_quoted fs fld c :
  Ascii.eqb c Csv.quotechar = false ->
  (N.of_nat (String.length fld) < Csv.field_limit)%N ->
  Csv.parse_process_char (Csv.mkreader fs fld Csv.IN_QUOTED_FIELD) (Some c)
  = Ok (Csv.mkreader fs (fld ++ String c "") Csv.IN_QUOTED_FIELD).
Proof.
  intros Hq Hlen. unfold Csv.parse_process_char. simpl. rewrite Hq.
  apply parse_add_char_ok, Hlen.
Qed.

(** Inside an unquoted field, ordinary characters accumulate. *)
Lemma read_plain fs fld s :
  Csv.has_special s = false ->
  (N.of_nat (String.length fld + String.length s) <= Csv.field_limit)%N ->
  Csv.process_chars (Csv.mkreader fs fld Csv.IN_FIELD) s
  = Ok (Csv.mkreader fs (fld ++ s) Csv.IN_FIELD).
Proof.
  revert fld. induction s as [| c s IH]; intros fld Hs Hlen.
  - rewrite sapp_nil_r. reflexivity.
  - simpl in Hs. apply orb_false_iff in Hs as [Hc Hs].
    rewrite process_chars_cons, step_in_field, bind_ok;
      [| exact Hc | simpl in Hlen; lia].
    rewrite IH; [rewrite sapp_snoc; reflexivity | exact Hs |].
    rewrite slength_app. simpl in *. lia.
Qed.

(** Inside quotes, the doubled quotes of the writer come back single. *)
Lemma read_quoted fs fld s :
  (N.of_nat (String.length fld + String.length s) <= Csv.field_limit)%N ->
  Csv.process_chars (Csv.mkreader fs fld Csv.IN_QUOTED_FIELD) (Csv.join_append_data s)
  = Ok (Csv.mkreader fs (fld ++ s) Csv.IN_QUOTED_FIELD).
Proof.
  revert fld. induction s as [| c s IH]; intros fld Hlen.
  - rewrite sapp_nil_r. reflexivity.
  - simpl Csv.join_append_data. destruct (Ascii.eqb c Csv.quotechar) eqn:Hq.
    + apply Ascii.eqb_eq in Hq. subst c.
      rewrite process_chars_cons, step_quote_in_quoted, bind_ok.
      rewrite process_chars_cons, step_doubled_quote, bind_ok by (simpl in Hlen; lia).
      rewrite IH; [rewrite sapp_snoc; reflexivity |].
      rewrite slength_app. simpl in *. lia.
    + rewrite process_chars_cons, step_in_quoted, bind_ok;
        [| exact Hq | simpl in Hlen; lia].
      rewrite IH; [rewrite sapp_snoc; reflexivity |].
      rewrite slength_app. simpl in *. lia.
Qed.

Lemma join_append_data_plain s :
  Csv.has_special s = false -> Csv.join_append_data s = s.
Proof.
  induction s as [| c s IH]; [reflexivity |].
  simpl. intros H. apply orb_false_iff in H as [Hc Hs].
  apply special_false in Hc as (_ & -> & _). rewrite IH by exact Hs. reflexivity.
Qed.


Lemma field_read_delimiter fs fld st :
  field_read st ->
  Csv.parse_process_char (Csv.mkreader fs fld st) (Some Csv.delimiter)
  = Ok (Csv.mkreader (fs ++ [fld]) "" Csv.START_FIELD).
Proof. intros [-> | [-> | ->]]; reflexivity. Qed.

Lemma field_read_eol fs fld st :
  field_read st ->
  Csv.parse_process_char (Csv.mkreader fs fld st) None
  = Ok (Csv.mkreader (fs ++ [fld]) "" Csv.START_RECORD).
Proof. intros [-> | [-> | ->]]; reflexivity. Qed.

(** One written field, read where a field is expected. *)
Lemma read_field fs f quoted :
  (N.of_nat (String.length f) <= Csv.field_limit)%N ->
  exists st,
    Csv.process_chars (Csv.mkreader fs "" Csv.START_FIELD)
                      (Csv.join_append (Some f) quoted)
    = Ok (Csv.mkreader fs f st)
    /\ field_read st.
Proof.
  intros Hlen. unfold Csv.join_append. simpl default.
  destruct (quoted || Csv.has_special f) eqn:Hq.
  - exists Csv.QUOTE_IN_QUOTED_FIELD. split; [| unfold field_read; auto].
    rewrite process_chars_cons, step_open_quote, bind_ok.
    rewrite process_chars_app, read_quoted, bind_ok by (simpl; lia).
    rewrite sapp_nil_l. reflexivity.
  - apply orb_false_iff in Hq as [_ Hs].
    rewrite join_append_data_plain by exact Hs.
    destruct f as [| c f].
    + exists Csv.START_FIELD. split; [reflexivity | unfold field_read; auto].
    + exists Csv.IN_FIELD. split; [| unfold field_read; auto].
      simpl in Hs. apply orb_false_iff in Hs as [Hc Hs].
      rewrite process_chars_cons, step_start_field, bind_ok by exact Hc.
      rewrite read_plain; [reflexivity | exact Hs |]. simpl in *. lia.
Qed.

(** A written record, read where a field is expected. *)
Lemma read_fields acc fs :
  fs <> [] ->
  Forall (fun f => (N.of_nat (String.length f) <= Csv.field_limit)%N) fs ->
  exists fs' fld st,
    Csv.process_chars (Csv.mkreader acc "" Csv.START_FIELD)
                      (Csv.join_fields (map Some fs))
    = Ok (Csv.mkreader fs' fld st)
    /\ (fs' ++ [fld] = acc ++ fs)%list /\ field_read st.
Proof.
  revert acc. induction fs as [| f fs IH]; intros acc Hne Hall; [congruence |].
  apply Forall_cons in Hall as [Hf Hall].
  destruct (read_field acc f false Hf) as (st & Hread & Hst).
  destruct fs as [| f2 fs].
  - exists acc, f, st. simpl. auto.
  - change (Csv.join_fields (map Some (f :: f2 :: fs)))
      with (Csv.join_append (Some f) false
            ++ String Csv.delimiter (Csv.join_fields (map Some (f2 :: fs)))).
    rewrite process_chars_app, Hread, bind_ok.
    rewrite process_chars_cons, field_read_delimiter, bind_ok by exact Hst.
    destruct (IH (acc ++ [f])%list ltac:(discriminate) Hall) as (fs' & fld & st' & -> & Heq & Hst').
    exists fs', fld, st'. rewrite Heq, <- app_assoc. auto.
Qed.

(** *** What the writer writes holds no line boundary of its own *)

Lemma has_linebreak_data s :
  has_linebreak (Csv.join_append_data s) = has_linebreak s.
Proof.
  induction s as [| c s IH]; [reflexivity |].
  simpl. destruct (Ascii.eqb c Csv.quotechar) eqn:Hq.
  - apply Ascii.eqb_eq in Hq. subst c. simpl. exact IH.
  - simpl. rewrite IH. reflexivity.
Qed.

Lemma has_linebreak_join_append f quoted :
  has_linebreak (Csv.join_append (Some f) quoted) = has_linebreak f.
Proof.
  unfold Csv.join_append. simpl default. destruct (quoted || Csv.has_special f).
  - simpl. rewrite has_linebreak_app, has_linebreak_data. simpl.
    rewrite orb_false_r. reflexivity.
  - apply has_linebreak_data.
Qed.

Lemma has_linebreak_join_fields fs :
  Forall (fun f => has_linebreak f = false) fs ->
  has_linebreak (Csv.join_fields (map Some fs)) = false.
Proof.
  induction fs as [| f fs IH]; intros Hall; [reflexivity |].
  apply Forall_cons in Hall as [Hf Hall].
  destruct fs as [| f2 fs].
  - simpl. rewrite has_linebreak_join_append. exact Hf.
  - change (Csv.join_fields (map Some (f :: f2 :: fs)))
      with (Csv.join_append (Some f) false
            ++ String Csv.delimiter (Csv.join_fields (map Some (f2 :: fs)))).
    rewrite has_linebreak_app, has_linebreak_join_append, Hf.
    simpl. apply IH, Hall.
Qed.

Lemma join_fields_empty fs :
  fs <> [] -> Forall (fun f => has_linebreak f = false) fs ->
  Csv.join_fields (map Some fs) = "" -> fs = [""].
Proof.
  intros Hne Hall. destruct fs as [| f [| f2 fs]]; [congruence | |].
  - simpl. unfold Csv.join_append. simpl default.
    destruct (Csv.has_special f) eqn:Hs; simpl; [discriminate |].
    rewrite join_append_data_plain by exact Hs. congruence.
  - change (Csv.join_fields (map Some (f :: f2 :: fs)))
      with (Csv.join_append (Some f) false
            ++ String Csv.delimiter (Csv.join_fields (map Some (f2 :: fs)))).
    destruct (Csv.join_append (Some f) false); discriminate.
Qed.

Lemma is_newline_linebreak c : Str.islinebreak c = false -> Csv.is_newline c = false.
Proof.
  unfold Csv.is_newline. intros H.
  destruct (Ascii.eqb_spec c Csv.LF) as [-> | _]; [discriminate |].
  destruct (Ascii.eqb_spec c Csv.CR) as [-> | _]; [discriminate |].
  reflexivity.
Qed.

Lemma start_record_as_start_field c s :
  Csv.is_newline c = false ->
  Csv.process_chars Csv.parse_reset (String c s)
  = Csv.process_chars (Csv.mkreader [] "" Csv.START_FIELD) (String c s).
Proof.
  intros Hn. rewrite !process_chars_cons.
  unfold Csv.parse_process_char. simpl. rewrite Hn. reflexivity.
Qed.

(** One written record is one line, and reading that line gives the record
    back. *)
Lemma read_written_record fs :
  fs <> [] -> Forall field_ok fs ->
  exists line,
    Csv.writerow (map Some fs) = line ++ Csv.lineterminator
    /\ has_linebreak line = false
    /\ Csv.process_line Csv.parse_reset line = Ok (Csv.mkreader fs "" Csv.START_RECORD).
Proof.
  intros Hne Hok.
  assert (Forall (fun f => has_linebreak f = false) fs) as Hlb
      by (eapply Forall_impl; [exact Hok | intros f [? ?]; assumption]).
  assert (Forall (fun f => (N.of_nat (String.length f) <= Csv.field_limit)%N) fs) as Hlen
      by (eapply Forall_impl; [exact Hok | intros f [? ?]; assumption]).
  unfold Csv.writerow. rewrite length_map.
  destruct (Csv.join_fields (map Some fs)) as [| c s] eqn:Hj.
  - apply join_fields_empty in Hj as ->; [| exact Hne | exact Hlb].
    exists (Csv.join_append None true). repeat split.
  - exists (String c s). rewrite andb_false_r. split; [reflexivity |].
    pose proof (has_linebreak_join_fields fs Hlb) as Hl. rewrite Hj in Hl.
    split; [exact Hl |].
    unfold Csv.process_line. rewrite start_record_as_start_field.
    2:{ apply is_newline_linebreak. simpl in Hl. apply orb_false_iff in Hl as [? _]. assumption. }
    rewrite <- Hj.
    destruct (read_fields [] fs Hne Hlen) as (fs' & fld & st & -> & Heq & Hst).
    rewrite bind_ok, field_read_eol by exact Hst. rewrite Heq. reflexivity.
Qed.

(** Reading back what the writer wrote for a sequence of records. *)
Lemma read_written_records recs :
  Forall (fun fs => fs <> [] /\ Forall field_ok fs) recs ->
  Csv.records (splitlines (write_records recs)) = (recs, None).
Proof.
  induction recs as [| fs recs IH]; intros Hall; [reflexivity |].
  apply Forall_cons in Hall as [[Hne Hok] Hall].
  destruct (read_written_record fs Hne Hok) as (line & Hw & Hl & Hread).
  simpl write_records. rewrite Hw, sapp_assoc, splitlines_terminated by exact Hl.
  unfold Csv.records. simpl. rewrite Hread. simpl.
  fold (Csv.records (splitlines (write_records recs))). rewrite IH by exact Hall.
  reflexivity.
Qed.

(** *** The fields that the reader delivers *)


Lemma field_ok_empty : field_ok "".
Proof. split; [reflexivity |]. unfold Csv.field_limit. simpl. lia. Qed.

Lemma reader_ok_reset : reader_ok Csv.parse_reset.
Proof. split; [constructor | apply field_ok_empty]. Qed.

Lemma reader_ok_set_state r st : reader_ok r -> reader_ok (Csv.set_state r st).
Proof. intros H. exact H. Qed.

Lemma reader_ok_save r : reader_ok r -> reader_ok (Csv.parse_save_field r).
Proof.
  intros [Hfs Hf]. split; simpl; [| apply field_ok_empty].
  apply Forall_app. split; [exact Hfs |]. constructor; [exact Hf | constructor].
Qed.

Lemma reader_ok_add r c r' :
  reader_ok r -> Str.islinebreak c = false ->
  Csv.parse_add_char r c = Ok r' -> reader_ok r'.
Proof.
  intros [Hfs [Hlb Hlen]] Hc. unfold Csv.parse_add_char.
  destruct (N.leb_spec Csv.field_limit (N.of_nat (String.length (Csv.field r))));
    [discriminate |].
  intros [= <-]. split; [exact Hfs |]. simpl. split.
  - rewrite has_linebreak_app, Hlb. simpl. rewrite Hc. reflexivity.
  - rewrite slength_app. simpl. lia.
Qed.

Lemma reader_ok_start_field r c r' :
  reader_ok r ->
  match c with Some ch => Str.islinebreak ch = false | None => True end ->
  Csv.start_field r c = Ok r' -> reader_ok r'.
Proof.
  intros Hr Hc. unfold Csv.start_field. destruct c as [ch |].
  - destruct (Csv.is_newline ch);
      [intros [= <-]; apply reader_ok_set_state, reader_ok_save, Hr |].
    destruct (Ascii.eqb ch Csv.quotechar);
      [intros [= <-]; apply reader_ok_set_state, Hr |].
    destruct (Ascii.eqb ch Csv.delimiter);
      [intros [= <-]; apply reader_ok_save, Hr |].
    destruct (Csv.parse_add_char r ch) as [r1 | ex] eqn:Ha; simpl; [| discriminate].
    intros [= <-]. apply reader_ok_set_state. eapply reader_ok_add; eauto.
  - intros [= <-]. apply reader_ok_set_state, reader_ok_save, Hr.
Qed.

Lemma reader_ok_step r c r' :
  reader_ok r ->
  match c with Some ch => Str.islinebreak ch = false | None => True end ->
  Csv.parse_process_char r c = Ok r' -> reader_ok r'.
Proof.
  intros Hr Hc. unfold Csv.parse_process_char.
  destruct (Csv.state r).
  - destruct c as [ch |]; [| intros [= <-]; exact Hr].
    destruct (Csv.is_newline ch);
      [intros [= <-]; apply reader_ok_set_state, Hr |].
    apply reader_ok_start_field; [apply reader_ok_set_state, Hr | exact Hc].
  - apply reader_ok_start_field; assumption.
  - destruct c as [ch |];
      [| intros [= <-]; apply reader_ok_set_state, reader_ok_save, Hr].
    destruct (Csv.is_newline ch);
      [intros [= <-]; apply reader_ok_set_state, reader_ok_save, Hr |].
    destruct (Ascii.eqb ch Csv.delimiter);
      [intros [= <-]; apply reader_ok_set_state, reader_ok_save, Hr |].
    intros Ha. eapply reader_ok_add; eauto.
  - destruct c as [ch |]; [| intros [= <-]; exact Hr].
    destruct (Ascii.eqb ch Csv.quotechar);
      [intros [= <-]; apply reader_ok_set_state, Hr |].
    intros Ha. eapply reader_ok_add; eauto.
  - destruct c as [ch |];
      [| intros [= <-]; apply reader_ok_set_state, reader_ok_save, Hr].
    destruct (Ascii.eqb ch Csv.quotechar).
    { destruct (Csv.parse_add_char r ch) as [r1 | ex] eqn:Ha; simpl; [| discriminate].
      intros [= <-]. apply reader_ok_set_state. eapply reader_ok_add; eauto. }
    destruct (Ascii.eqb ch Csv.delimiter);
      [intros [= <-]; apply reader_ok_set_state, reader_ok_save, Hr |].
    destruct (Csv.is_newline ch);
      [intros [= <-]; apply reader_ok_set_state, reader_ok_save, Hr |].
    destruct (Csv.parse_add_char r ch) as [r1 | ex] eqn:Ha; simpl; [| discriminate].
    intros [= <-]. apply reader_ok_set_state. eapply reader_ok_add; eauto.
  - destruct c as [ch |]; [| intros [= <-]; apply reader_ok_set_state, Hr].
    destruct (Csv.is_newline ch); [intros [= <-]; exact Hr | discriminate].
Qed.

Lemma reader_ok_chars r s r' :
  reader_ok r -> has_linebreak s = false ->
  Csv.process_chars r s = Ok r' -> reader_ok r'.
Proof.
  revert r. induction s as [| c s IH]; intros r Hr Hs.
  - intros [= <-]. exact Hr.
  - simpl in Hs. apply orb_false_iff in Hs as [Hc Hs].
    rewrite process_chars_cons.
    destruct (Csv.parse_process_char r (Some c)) as [r1 | ex] eqn:Hstep; [| discriminate].
    rewrite bind_ok. apply IH; [| exact Hs].
    eapply reader_ok_step; [exact Hr | | exact Hstep]. exact Hc.
Qed.

Lemma reader_ok_line r l r' :
  reader_ok r -> has_linebreak l = false ->
  Csv.process_line r l = Ok r' -> reader_ok r'.
Proof.
  intros Hr Hl. unfold Csv.process_line.
  destruct (Csv.process_chars r l) as [r1 | ex] eqn:Hchars; [| discriminate].
  rewrite bind_ok. apply reader_ok_step; [| exact I].
  eapply reader_ok_chars; eauto.
Qed.

Lemma records_from_ok r lines recs stop :
  reader_ok r -> Forall (fun l => has_linebreak l = false) lines ->
  Csv.records_from r lines = (recs, stop) ->
  Forall (Forall field_ok) recs.
Proof.
  revert r recs. induction lines as [| l ls IH]; intros r recs Hr Hls; simpl.
  - destruct (Csv.pending r); intros [= <- <-]; [| constructor].
    constructor; [| constructor]. apply reader_ok_save in Hr as [H _]. exact H.
  - apply Forall_cons in Hls as [Hl Hls].
    destruct (Csv.process_line r l) as [r1 | ex] eqn:Hline;
      [| intros [= <- <-]; constructor].
    pose proof (reader_ok_line _ _ _ Hr Hl Hline) as Hr1.
    destruct (Csv.state_eqb (Csv.state r1) Csv.START_RECORD).
    + destruct (Csv.records_from Csv.parse_reset ls) as [rs e] eqn:Hrest.
      intros [= <- <-]. constructor; [apply Hr1 |].
      eapply IH; [apply reader_ok_reset | exact Hls | exact Hrest].
    + apply IH; assumption.
Qed.

(** [next(reader)] followed by the rest of the iteration is the whole
    iteration. *)
Lemma records_from_iternext r lines x rest :
  Csv.iternext_from r lines = Ok (Some x, rest) ->
  Csv.records_from r lines
  = (x :: (Csv.records rest).1, (Csv.records rest).2).
Proof.
  revert r. induction lines as [| l ls IH]; intros r; simpl.
  - destruct (Csv.pending r); intros [= <- <-]. reflexivity.
  - destruct (Csv.process_line r l) as [r1 | ex]; [| discriminate].
    rewrite bind_ok.
    destruct (Csv.state_eqb (Csv.state r1) Csv.START_RECORD).
    + intros [= <- <-]. unfold Csv.records.
      destruct (Csv.records_from Csv.parse_reset ls). reflexivity.
    + apply IH.
Qed.

(** ** Writing the kept rows *)



Lemma iternext_header_records lines hdr rest :
  Csv.iternext lines = Ok (Some hdr, rest) ->
  Csv.records lines = (hdr :: (Csv.records rest).1, (Csv.records rest).2).
Proof. apply records_from_iternext. Qed.

Lemma input_fields_ok text recs stop :
  Csv.records (splitlines text) = (recs, stop) -> Forall (Forall field_ok) recs.
Proof.
  apply records_from_ok; [apply reader_ok_reset | apply splitlines_no_linebreak].
Qed.

Lemma resolved_header_nonempty hdr sk :
  find_status_key (header_map hdr) = Some sk -> hdr <> [].
Proof.
  intros H%first_candidate_value. destruct H as [H _]. intros ->. inversion H.
Qed.




(** C10: for an input of exactly one line, a header row whose status and
    date columns resolve, the handler makes one [put_object] call whose body
    is the header record alone -- reading it back gives the header names and
    nothing else -- and, the call succeeding, returns status 200 with the
    summary [Kept 0 of 0 rows] for the destination key. *)
Theorem C10_header_only_input (e : env) (ev : event) (rec : s3_record)
        (recs : list s3_record) (text line : string) (fieldnames : list string)
        (rest : list string) (sk dk : string) (cutoff : datetime) :
  Records ev = rec :: recs ->
  get_object e (bucket_name rec) (unquote_plus e (object_key rec)) = Ok text ->
  splitlines text = [line] ->
  Csv.iternext [line] = Ok (Some fieldnames, rest) ->
  find_status_key (header_map fieldnames) = Some sk ->
  find_date_key (header_map fieldnames) = Some dk ->
  Datetime.sub_days (now e) 30 = Ok cutoff ->
  let key := processed_key_of (unquote_plus e (object_key rec)) in
  let out := Csv.writerow (map Some fieldnames) in
  put_object e (bucket_name rec) key out content_type = Ok tt ->
  lambda_handler e ev
  = mkoutcome (Ok (mkresponse 200 ("Kept 0 of 0 rows -> " ++ key)))
              [mkput (bucket_name rec) key out content_type]
  /\ Csv.records (splitlines out) = ([fieldnames], None).
Proof.
  intros Hev Hget Hl Hhdr Hs Hd Hcut key out Hput. split.
  - unfold lambda_handler. rewrite Hev, Hget, Hl, Hhdr.
    apply iternext_single in Hhdr as ->.
    unfold process. rewrite Hs, Hd, (resolved_truthy _ _ _ Hs Hd), Hcut.
    change (DictReader.rows fieldnames []) with (@nil row, @None exn).
    cbv iota beta. change (row_loop sk dk cutoff []) with loop_init.
    unfold write_output, render. rewrite writeheader_spec. simpl.
    fold key. rewrite sapp_nil_r. fold out. rewrite Hput. reflexivity.
  - rewrite <- Hl in Hhdr. apply iternext_header_records in Hhdr.
    apply input_fields_ok, Forall_cons in Hhdr as [Hok _].
    pose proof (read_written_records [fieldnames]) as Hread.
    simpl write_records in Hread. rewrite sapp_nil_r in Hread.
    apply Hread. constructor; [| constructor].
    split; [eapply resolved_header_nonempty, Hs | exact Hok].
Qed.

(** C10 on a file that holds the header line only. *)
Lemma C10_witness_header_only :
  lambda_handler (Sample.client "Status,OrderDate") Sample.notification
  = mkoutcome (Ok (mkresponse 200 "Kept 0 of 0 rows -> processed/2024/jan.csv"))
              [mkput "orders" "processed/2024/jan.csv"
                     ("Status,OrderDate" ++ Csv.lineterminator) content_type]
  /\ Csv.records (splitlines ("Status,OrderDate" ++ Csv.lineterminator))
     = ([["Status"; "OrderDate"]], None).
Proof.
  refine (C10_header_only_input (Sample.client "Status,OrderDate")
            Sample.notification (mkrecord "orders" "raw/2024/jan.csv") []
            "Status,OrderDate" "Status,OrderDate" Sample.header []
            "Status" "OrderDate" Sample.cutoff _ _ _ _ _ _ _ _).
  - reflexivity.
  - reflexivity.
  - reflexivity.
  - vm_compute. reflexivity.
  - vm_compute. reflexivity.
  - vm_compute. reflexivity.
  - vm_compute. reflexivity.
  - reflexivity.
Defined.

(** * Further properties of the handler *)

(** ** The shape of an invocation *)

Lemma row_loop_spec sk dk cutoff rows :
  row_loop sk dk cutoff rows
  = mkloop (filter (fun r => retained sk dk cutoff r = true) rows)
           (List.length rows)
           (List.length (filter (fun r => retained sk dk cutoff r = false) rows)).
Proof.
  unfold row_loop.
  pose proof (foldl_loop_kept sk dk cutoff loop_init rows) as Hk.
  pose proof (foldl_loop_total sk dk cutoff loop_init rows) as Ht.
  pose proof (foldl_loop_filtered sk dk cutoff loop_init rows) as Hf.
  destruct (foldl _ loop_init rows) as [k t f]. simpl in *. subst. reflexivity.
Qed.

(** An invocation that gets past the fetch, the empty-file test and the
    header is [process] on the lines after the header. *)
Lemma lambda_handler_process e ev rec others text hdr rest :
  Records ev = rec :: others ->
  get_object e (bucket_name rec) (unquote_plus e (object_key rec)) = Ok text ->
  Csv.iternext (splitlines text) = Ok (Some hdr, rest) ->
  lambda_handler e ev
  = process e (bucket_name rec) (unquote_plus e (object_key rec)) hdr rest.
Proof.
  intros Hev Hget Hhdr. unfold lambda_handler. rewrite Hev, Hget.
  destruct (splitlines text) as [| l ls]; [discriminate |].
  rewrite Hhdr. reflexivity.
Qed.

(** What a successful or a writing invocation has gone through. *)
Lemma process_inv e bucket raw_key hdr lines :
  process e bucket raw_key hdr lines = raising KeyError
  \/ (exists ex, process e bucket raw_key hdr lines = raising ex)
  \/ exists sk dk cutoff recs,
       find_status_key (header_map hdr) = Some sk
       /\ find_date_key (header_map hdr) = Some dk
       /\ Datetime.sub_days (now e) 30 = Ok cutoff
       /\ Csv.records lines = (recs, None)
       /\ process e bucket raw_key hdr lines
          = write_output e bucket raw_key hdr
              (row_loop sk dk cutoff
                 (map (DictReader.make_row hdr)
                      (filter (fun fs => DictReader.is_blank fs = false) recs))).
Proof.
  unfold process.
  destruct (falsy _ || falsy _); [auto |].
  destruct (find_status_key _) as [sk |]; [| auto].
  destruct (find_date_key _) as [dk |]; [| auto].
  destruct (Datetime.sub_days _ _) as [cutoff | ex]; [| eauto].
  unfold DictReader.rows.
  destruct (Csv.records lines) as [recs [ex |]]; [eauto |].
  right. right. exists sk, dk, cutoff, recs. auto.
Qed.

Lemma write_output_inv e bucket raw_key hdr st :
  let key := processed_key_of raw_key in
  (exists ex, write_output e bucket raw_key hdr st = raising ex
              /\ render hdr (kept_rows st) = Raise ex)
  \/ exists out,
       render hdr (kept_rows st) = Ok out
       /\ write_output e bucket raw_key hdr st
          = mkoutcome
              (match put_object e bucket key out content_type with
               | Ok _ => Ok (mkresponse 200
                               (summary (List.length (kept_rows st)) (total st) key))
               | Raise ex => Raise ex
               end)
              [mkput bucket key out content_type].
Proof.
  intros key. unfold write_output. fold key.
  destruct (render hdr (kept_rows st)) as [out | ex]; [| eauto].
  right. exists out. split; [reflexivity |].
  destruct (put_object e bucket key out content_type); reflexivity.
Qed.

(** The three ways an invocation can end: the empty file, an exception
    before any write, or one [put_object] call whose result decides. *)
Lemma lambda_handler_outcome e ev rec others :
  Records ev = rec :: others ->
  let o := lambda_handler e ev in
  let bucket := bucket_name rec in
  let raw_key := unquote_plus e (object_key rec) in
  let key := processed_key_of raw_key in
  (o = mkoutcome (Ok (mkresponse 200 "Empty file")) []
   /\ get_object e bucket raw_key = Ok "")
  \/ (exists ex, o = raising ex)
  \/ exists out kept total,
       (kept <= total)%nat
       /\ o = mkoutcome
                (match put_object e bucket key out content_type with
                 | Ok _ => Ok (mkresponse 200 (summary kept total key))
                 | Raise ex => Raise ex
                 end)
                [mkput bucket key out content_type].
Proof.
  intros Hev o bucket raw_key key.
  unfold o, lambda_handler. rewrite Hev. fold bucket raw_key.
  destruct (get_object e bucket raw_key) as [text | ex] eqn:Hget; [| eauto].
  destruct (splitlines text) as [| l ls] eqn:Hl.
  { left. apply splitlines_nil in Hl. subst text. auto. }
  right.
  destruct (Csv.iternext (l :: ls)) as [[[hdr |] rest] | ex]; [| eauto | eauto].
  destruct (process_inv e bucket raw_key hdr rest)
    as [H | [H | (sk & dk & cutoff & recs & _ & _ & _ & _ & H)]]; [eauto | eauto |].
  rewrite H.
  match goal with |- context [write_output _ _ _ _ ?st] =>
    destruct (write_output_inv e bucket raw_key hdr st)
      as [(ex & Hw & _) | (out & _ & Hw)]
  end; [eauto |].
  right. rewrite Hw. eexists out, _, _. split; [| reflexivity].
  rewrite row_loop_spec. simpl. apply length_filter.
Qed.

(** ** A row whose date does not parse *)

(** C7: a row whose date value does not parse is left out of the kept rows
    and counted as filtered out; the loop goes on with the rows after it,
    which fare as they would without it; whether the output can then be
    written and the invocation succeeds is the same as without the row.  An
    invocation whose rows hold such a row goes on to write the kept rows: it
    makes the [put_object] call for the rows kept without it, returns the
    summary when that call succeeds, and raises nothing but what the
    rendering or the write of those kept rows raises. *)
Theorem C7_unparseable_date_is_skipped (status_key date_key : string)
        (cutoff : datetime) (before after : list row) (r : row) :
  is_ok (parse_date (Str.strip (get_or_empty r date_key))) = false ->
  let loop := row_loop status_key date_key cutoff in
  let st0 := loop before in
  let st1 := loop_body status_key date_key cutoff st0 r in
  let with_row := loop (before ++ r :: after)%list in
  let without := loop (before ++ after)%list in
  (kept_rows st1 = kept_rows st0
   /\ filtered_out st1 = S (filtered_out st0)
   /\ total st1 = S (total st0))
  /\ with_row = foldl (loop_body status_key date_key cutoff) st1 after
  /\ (kept_rows with_row = kept_rows without
      /\ filtered_out with_row = S (filtered_out without)
      /\ total with_row = S (total without))
  /\ (forall e bucket raw_key fieldnames,
        puts (write_output e bucket raw_key fieldnames with_row)
        = puts (write_output e bucket raw_key fieldnames without)
        /\ is_ok (returned (write_output e bucket raw_key fieldnames with_row))
           = is_ok (returned (write_output e bucket raw_key fieldnames without)))
  /\ (forall (e : env) (ev : event) (rec : s3_record) (others : list s3_record)
             (text : string) (hdr rest : list string),
        Records ev = rec :: others ->
        get_object e (bucket_name rec) (unquote_plus e (object_key rec)) = Ok text ->
        Csv.iternext (splitlines text) = Ok (Some hdr, rest) ->
        DictReader.rows hdr rest = ((before ++ r :: after)%list, None) ->
        find_status_key (header_map hdr) = Some status_key ->
        find_date_key (header_map hdr) = Some date_key ->
        Datetime.sub_days (now e) 30 = Ok cutoff ->
        let bucket := bucket_name rec in
        let raw_key := unquote_plus e (object_key rec) in
        let key := processed_key_of raw_key in
        let o := lambda_handler e ev in
        o = write_output e bucket raw_key hdr with_row
        /\ (forall out,
              render hdr (kept_rows without) = Ok out ->
              puts o = [mkput bucket key out content_type]
              /\ (put_object e bucket key out content_type = Ok tt ->
                  returned o
                  = Ok (mkresponse 200
                          (summary (List.length (kept_rows without))
                                   (S (total without)) key))))
        /\ (forall ex,
              returned o = Raise ex ->
              render hdr (kept_rows without) = Raise ex
              \/ exists out,
                   render hdr (kept_rows without) = Ok out
                   /\ put_object e bucket key out content_type = Raise ex)).
Proof.
  intros Hbad loop st0 st1 with_row without.
  assert (retained status_key date_key cutoff r = false) as Hk.
  { unfold retained. destruct (parse_date _); [discriminate | reflexivity]. }
  assert (kept_rows with_row = kept_rows without) as Hkept.
  { unfold with_row, without, loop. rewrite !row_loop_kept, !filter_app.
    rewrite filter_cons_False by congruence. reflexivity. }
  assert (kept_rows with_row = kept_rows without
          /\ filtered_out with_row = S (filtered_out without)
          /\ total with_row = S (total without)) as Hcount.
  { split; [exact Hkept |]. unfold with_row, without, loop, row_loop.
    rewrite !foldl_loop_filtered, !foldl_loop_total, !filter_app.
    rewrite filter_cons_True by exact Hk. rewrite !length_app. simpl. lia. }
  split.
  { unfold st1. rewrite loop_body_dropped by exact Hk. simpl. auto. }
  split.
  { unfold with_row, loop, row_loop. rewrite foldl_app. reflexivity. }
  split; [exact Hcount |].
  split.
  { intros e bucket raw_key fieldnames. apply write_output_same_kept, Hkept. }
  intros e ev rec others text hdr rest Hev Hget Hhdr Hrows Hs Hd Hcut
         bucket raw_key key o.
  destruct Hcount as (_ & _ & Htotal).
  assert (o = write_output e bucket raw_key hdr with_row) as Hrun.
  { unfold o. rewrite (lambda_handler_process e ev rec others text hdr rest Hev Hget Hhdr).
    unfold process. rewrite Hs, Hd, (resolved_truthy _ _ _ Hs Hd), Hcut, Hrows.
    reflexivity. }
  split; [exact Hrun |].
  split.
  - intros out Hrender. rewrite Hrun. unfold write_output.
    rewrite Hkept, Hrender, Htotal. cbv zeta. fold key.
    destruct (put_object e bucket key out content_type) as [[] | ex];
      simpl; (split; [reflexivity |]); [reflexivity | discriminate].
  - intros ex. rewrite Hrun. unfold write_output. rewrite Hkept.
    destruct (render hdr (kept_rows without)) as [out | ex'].
    + cbv zeta. fold key.
      destruct (put_object e bucket key out content_type) as [[] | ex'] eqn:Hput;
        simpl; [discriminate |].
      intros [= ->]. right. exists out. auto.
    + simpl. intros [= ->]. left. reflexivity.
Qed.

(** C7 on a row dated [soon]: the row is dropped, and the invocation on
    three orders of which it is the second writes the other two and returns
    the summary. *)
Lemma C7_witness_undated_row :
  kept_rows (row_loop "Status" "OrderDate" Sample.cutoff
               [Sample.shipped; Sample.undated; Sample.recent])
  = kept_rows (row_loop "Status" "OrderDate" Sample.cutoff
                 [Sample.shipped; Sample.recent])
  /\ lambda_handler (Sample.client undated_orders) Sample.notification
     = mkoutcome
         (Ok (mkresponse 200 "Kept 2 of 3 rows -> processed/2024/jan.csv"))
         [Sample.written
            (write_records [Sample.header; ["shipped"; "2020-01-01"];
                            ["pending"; "2024-02-01"]])].
Proof.
  destruct (C7_unparseable_date_is_skipped
              "Status" "OrderDate" Sample.cutoff [Sample.shipped] [Sample.recent]
              Sample.undated) as (_ & _ & (Hk & _) & _ & Hrun).
  - vm_compute. reflexivity.
  - split; [exact Hk |].
    destruct (Hrun (Sample.client undated_orders) Sample.notification
                (mkrecord "orders" "raw/2024/jan.csv") [] undated_orders
                Sample.header
                ["shipped,2020-01-01"; "shipped,soon"; "pending,2024-02-01"])
      as (Heq & _).
    + reflexivity.
    + reflexivity.
    + vm_compute. reflexivity.
    + vm_compute. reflexivity.
    + vm_compute. reflexivity.
    + vm_compute. reflexivity.
    + vm_compute. reflexivity.
    + rewrite Heq. vm_compute. reflexivity.
Defined.

(** ** Writes and results *)

(** X1: an invocation calls [put_object] at most once, and then for the
    notified bucket, the destination key derived from the decoded object key
    and the content type [text/csv; charset=utf-8].  Whatever it returns has
    status 200 and is either [Empty file], for an empty object and without a
    write, or the summary [Kept k of t rows] for the destination key, with
    [k] at most [t], after the one write has succeeded. *)
Theorem X1_write_discipline (e : env) (ev : event) (rec : s3_record)
        (others : list s3_record) :
  Records ev = rec :: others ->
  let o := lambda_handler e ev in
  let bucket := bucket_name rec in
  let key := processed_key_of (unquote_plus e (object_key rec)) in
  (puts o = [] \/ exists out, puts o = [mkput bucket key out content_type])
  /\ (forall resp, returned o = Ok resp ->
        statusCode resp = 200
        /\ ((resp = mkresponse 200 "Empty file" /\ puts o = []
             /\ get_object e bucket (unquote_plus e (object_key rec)) = Ok "")
            \/ exists out kept total,
                 puts o = [mkput bucket key out content_type]
                 /\ put_object e bucket key out content_type = Ok tt
                 /\ resp = mkresponse 200 (summary kept total key)
                 /\ (kept <= total)%nat)).
Proof.
  intros Hev o bucket key.
  destruct (lambda_handler_outcome e ev rec others Hev)
    as [[Ho Hget] | [[ex Ho] | (out & kept & total & Hle & Ho)]];
    fold o bucket key in Ho; rewrite Ho; simpl.
  - split; [auto |]. intros resp [= <-]. auto.
  - split; [auto |]. discriminate.
  - split; [eauto |]. intros resp.
    destruct (put_object e bucket key out content_type) as [[] | ex] eqn:Hput;
      [| discriminate].
    intros [= <-]. split; [reflexivity |]. right.
    exists out, kept, total. auto.
Qed.

(** X1 on the two sample orders: the summary that is returned comes with
    one object written, under the destination key. *)
Lemma X1_witness_orders :
  exists out kept total,
    puts (lambda_handler (Sample.client Sample.orders) Sample.notification)
    = [Sample.written out]
    /\ put_object (Sample.client Sample.orders) "orders" "processed/2024/jan.csv"
                  out content_type = Ok tt
    /\ mkresponse 200 "Kept 2 of 2 rows -> processed/2024/jan.csv"
       = mkresponse 200 (summary kept total "processed/2024/jan.csv")
    /\ (kept <= total)%nat.
Proof.
  destruct (proj2 (X1_write_discipline (Sample.client Sample.orders)
                     Sample.notification (mkrecord "orders" "raw/2024/jan.csv") []
                     eq_refl)
                  (mkresponse 200 "Kept 2 of 2 rows -> processed/2024/jan.csv"))
    as (_ & [(Hempty & _) | (out & kept & total & H)]).
  - vm_compute. reflexivity.
  - discriminate Hempty.
  - exists out, kept, total. exact H.
Defined.

(** X2: a failure of the fetch is raised as it is, and nothing is written;
    a failure of the write is raised as it is. *)
Theorem X2_io_failures_propagate (e : env) (ev : event) (rec : s3_record)
        (others : list s3_record) :
  Records ev = rec :: others ->
  let o := lambda_handler e ev in
  let bucket := bucket_name rec in
  let raw_key := unquote_plus e (object_key rec) in
  (forall ex, get_object e bucket raw_key = Raise ex -> o = mkoutcome (Raise ex) [])
  /\ (forall call ex,
        call ∈ puts o ->
        put_object e (put_bucket call) (put_key call) (put_body call)
                   (put_content_type call) = Raise ex ->
        returned o = Raise ex).
Proof.
  intros Hev o bucket raw_key. split.
  - intros ex Hget. unfold o, lambda_handler. rewrite Hev. fold bucket raw_key.
    rewrite Hget. reflexivity.
  - intros call ex.
    destruct (lambda_handler_outcome e ev rec others Hev)
      as [[Ho _] | [[ex' Ho] | (out & kept & total & _ & Ho)]];
      fold o bucket raw_key in Ho; rewrite Ho; simpl.
    + intros H. inversion H.
    + intros H. inversion H.
    + intros ->%list_elem_of_singleton. simpl. intros ->. reflexivity.
Qed.

(** X2 on a store that has no object. *)
Lemma X2_witness_missing_object :
  lambda_handler failing_client Sample.notification = mkoutcome (Raise ClientError) [].
Proof.
  exact (proj1 (X2_io_failures_propagate failing_client Sample.notification
                  (mkrecord "orders" "raw/2024/jan.csv") [] eq_refl)
               ClientError eq_refl).
Defined.

(** X3: a summary is returned only when the object was fetched, its lines
    were read as CSV without an error into a header and records, both columns
    were resolved and the rows could be written.  The body written is the
    rendering of the rows that the filter retains, and the summary counts
    those rows against the rows of the non-blank records. *)
Theorem X3_success_reports_the_filter (e : env) (ev : event) (rec : s3_record)
        (others : list s3_record) (resp : response) :
  Records ev = rec :: others ->
  returned (lambda_handler e ev) = Ok resp ->
  resp <> mkresponse 200 "Empty file" ->
  let bucket := bucket_name rec in
  let raw_key := unquote_plus e (object_key rec) in
  let key := processed_key_of raw_key in
  exists text hdr recs sk dk cutoff out,
    get_object e bucket raw_key = Ok text
    /\ Csv.records (splitlines text) = (hdr :: recs, None)
    /\ find_status_key (header_map hdr) = Some sk
    /\ find_date_key (header_map hdr) = Some dk
    /\ Datetime.sub_days (now e) 30 = Ok cutoff
    /\ let rows := map (DictReader.make_row hdr)
                       (filter (fun fs => DictReader.is_blank fs = false) recs) in
       let kept := filter (fun r => retained sk dk cutoff r = true) rows in
       render hdr kept = Ok out
       /\ puts (lambda_handler e ev) = [mkput bucket key out content_type]
       /\ resp = mkresponse 200 (summary (List.length kept) (List.length rows) key).
Proof.
  intros Hev Hok Hne bucket raw_key key.
  unfold lambda_handler in Hok |- *. rewrite Hev in Hok |- *.
  fold bucket raw_key in Hok |- *.
  destruct (get_object e bucket raw_key) as [text | ex] eqn:Hget; [| discriminate].
  destruct (splitlines text) as [| l ls] eqn:Hl.
  { simpl in Hok. congruence. }
  destruct (Csv.iternext (l :: ls)) as [[[hdr |] rest] | ex] eqn:Hhdr;
    try discriminate.
  destruct (process_inv e bucket raw_key hdr rest)
    as [H | [[ex H] | (sk & dk & cutoff & recs & Hs & Hd & Hcut & Hrecs & H)]];
    rewrite H in Hok |- *; try discriminate.
  match type of Hok with context [write_output _ _ _ _ ?st] =>
    destruct (write_output_inv e bucket raw_key hdr st)
      as [(ex & Hw & _) | (out & Hr & Hw)]
  end; rewrite Hw in Hok |- *; [discriminate |].
  fold key in Hok |- *. simpl in Hok.
  destruct (put_object e bucket key out content_type); [| discriminate].
  injection Hok as <-.
  rewrite row_loop_spec in Hr |- *. simpl in Hr |- *.
  exists text, hdr, recs, sk, dk, cutoff, out.
  split; [reflexivity |].
  split.
  { rewrite <- Hl in Hhdr. apply iternext_header_records in Hhdr.
    rewrite Hrecs in Hhdr. exact Hhdr. }
  repeat split; auto.
Qed.

(** X3 on the two sample orders, both of which are kept. *)
Lemma X3_witness_orders :
  exists out,
    puts (lambda_handler (Sample.client Sample.orders) Sample.notification)
    = [Sample.written out].
Proof.
  destruct (X3_success_reports_the_filter (Sample.client Sample.orders)
              Sample.notification (mkrecord "orders" "raw/2024/jan.csv") []
              (mkresponse 200 "Kept 2 of 2 rows -> processed/2024/jan.csv"))
    as (text & hdr & recs & sk & dk & cutoff & out & _ & _ & _ & _ & _ & _ & Hputs & _).
  - reflexivity.
  - vm_compute. reflexivity.
  - discriminate.
  - exists out. exact Hputs.
Defined.

(** X4: the resolved status and date columns are two different, non-empty
    names of the header; the status column normalizes to [status] or
    [orderstatus], the date column to [orderdate] or [date]. *)
Theorem X4_resolved_columns (hdr : list string) (sk dk : string) :
  find_status_key (header_map hdr) = Some sk ->
  find_date_key (header_map hdr) = Some dk ->
  sk ∈ hdr /\ dk ∈ hdr /\ sk <> dk /\ sk <> "" /\ dk <> ""
  /\ (normalize sk = "status" \/ normalize sk = "orderstatus")
  /\ (normalize dk = "orderdate" \/ normalize dk = "date")
  /\ falsy (Some sk) || falsy (Some dk) = false.
Proof.
  intros Hs Hd.
  pose proof (resolved_truthy hdr sk dk Hs Hd) as Ht.
  apply first_candidate_value in Hs as [Hsin Hsn].
  apply first_candidate_value in Hd as [Hdin Hdn].
  assert (normalize sk = "status" \/ normalize sk = "orderstatus") as Hsk.
  { unfold status_candidates in Hsn.
    repeat (apply elem_of_cons in Hsn as [Hsn | Hsn]); auto. inversion Hsn. }
  assert (normalize dk = "orderdate" \/ normalize dk = "date") as Hdk.
  { change (map (Str.replace "_" "" None) date_candidates)
      with ["orderdate"; "date"; "orderdate"] in Hdn.
    repeat (apply elem_of_cons in Hdn as [Hdn | Hdn]); auto. inversion Hdn. }
  repeat split; auto.
  - intros ->. destruct Hsk as [E | E], Hdk as [E' | E']; rewrite E in E'; discriminate.
  - intros ->. rewrite normalize_empty in Hsk. destruct Hsk; discriminate.
  - intros ->. rewrite normalize_empty in Hdk. destruct Hdk; discriminate.
Qed.

(** X4 on the sample header. *)
Lemma X4_witness_sample_header :
  "Status" ∈ Sample.header /\ "OrderDate" ∈ Sample.header.
Proof.
  destruct (X4_resolved_columns Sample.header "Status" "OrderDate") as (H1 & H2 & _).
  - vm_compute. reflexivity.
  - vm_compute. reflexivity.
  - exact (conj H1 H2).
Defined.

(** ** Rows without a date *)

Lemma strip_all_space s : all_space s = true -> Str.strip s = "".
Proof.
  intros H. pose proof (strip_surrounding s "" "" H eq_refl) as E.
  rewrite sapp_nil_l, sapp_nil_r in E. exact E.
Qed.

Lemma parse_date_blank s : all_space s = true -> parse_date s = Raise ValueError.
Proof.
  intros H. unfold parse_date.
  rewrite (parse_date_loop_strip DATE_FORMATS s "").
  - reflexivity.
  - rewrite strip_all_space by exact H. reflexivity.
Qed.

Lemma all_space_strip s : all_space s = true -> all_space (Str.strip s) = true.
Proof. intros H. rewrite strip_all_space by exact H. reflexivity. Qed.

(** X5: a row whose date cell is missing, is [None] (the record stopped
    before the date column) or holds white space only is never kept: the loop
    counts it as filtered out. *)
Theorem X5_row_without_date_is_dropped (status_key date_key : string)
        (cutoff : datetime) (rows : list row) (r : row) :
  match cells r !! date_key with
  | Some (Some s) => all_space s = true
  | _ => True
  end ->
  retained status_key date_key cutoff r = false
  /\ (r ∉ kept_rows (row_loop status_key date_key cutoff rows))
  /\ (forall st, loop_body status_key date_key cutoff st r
                 = mkloop (kept_rows st) (S (total st)) (S (filtered_out st))).
Proof.
  intros Hcell.
  assert (all_space (get_or_empty r date_key) = true) as Hsp.
  { unfold get_or_empty. destruct (cells r !! date_key) as [[s |] |]; auto. }
  assert (retained status_key date_key cutoff r = false) as Hret.
  { unfold retained. rewrite parse_date_blank; [reflexivity |].
    apply all_space_strip, Hsp. }
  split; [exact Hret |]. split.
  - rewrite row_loop_kept. intros [H _]%list_elem_of_filter. congruence.
  - intros st. apply loop_body_dropped, Hret.
Qed.

(** X5 on a record that stops before the date column. *)
Lemma X5_witness_short_record :
  retained "Status" "OrderDate" Sample.cutoff
           (DictReader.make_row Sample.header ["pending"]) = false.
Proof.
  refine (proj1 (X5_row_without_date_is_dropped "Status" "OrderDate" Sample.cutoff []
                   (DictReader.make_row Sample.header ["pending"]) _)).
  vm_compute. exact I.
Defined.

(** ** Order and idempotence of the filter *)

(** X6: the kept rows are a subsequence of the rows, in their order;
    running the filter on its own kept rows keeps all of them and filters
    none out; and the filter works row by row: on a concatenation it gives
    the concatenation of the kept rows and the sums of the counters. *)
Theorem X6_filter_keeps_order_and_is_idempotent (status_key date_key : string)
        (cutoff : datetime) (rows : list row) :
  let loop := row_loop status_key date_key cutoff in
  let kept := kept_rows (loop rows) in
  sublist kept rows
  /\ loop kept = mkloop kept (List.length kept) 0
  /\ (forall a b, loop (a ++ b)%list
                  = mkloop (kept_rows (loop a) ++ kept_rows (loop b))%list
                           (total (loop a) + total (loop b))%nat
                           (filtered_out (loop a) + filtered_out (loop b))%nat).
Proof.
  intros loop kept. unfold kept, loop. split; [| split].
  - rewrite row_loop_kept. apply sublist_filter.
  - apply row_loop_all_kept. rewrite row_loop_kept.
    apply Forall_forall. intros r [H _]%list_elem_of_filter. exact H.
  - intros a b. rewrite !row_loop_spec. simpl.
    rewrite !filter_app, !length_app. reflexivity.
Qed.

(** ** Blank lines *)

Lemma eol_state r r' :
  Csv.parse_process_char r None = Ok r' ->
  Csv.state r' = Csv.START_RECORD \/ Csv.state r' = Csv.IN_QUOTED_FIELD.
Proof.
  unfold Csv.parse_process_char, Csv.start_field.
  destruct (Csv.state r) eqn:Hst; intros [= <-]; simpl; auto.
Qed.

Lemma process_line_state r l r' :
  Csv.process_line r l = Ok r' ->
  Csv.state r' = Csv.START_RECORD \/ Csv.state r' = Csv.IN_QUOTED_FIELD.
Proof.
  unfold Csv.process_line.
  destruct (Csv.process_chars r l) as [r1 | ex]; [| discriminate].
  rewrite bind_ok. apply eol_state.
Qed.

Lemma state_eqb_spec a b : Csv.state_eqb a b = true <-> a = b.
Proof. destruct a, b; simpl; split; intros H; congruence. Qed.

(** A blank line adds at most a blank record to what the reader yields. *)
Lemma records_from_blank_line r l1 l2 :
  r = Csv.parse_reset \/ Csv.state r = Csv.IN_QUOTED_FIELD ->
  filter (fun fs => DictReader.is_blank fs = false)
         (Csv.records_from r (l1 ++ "" :: l2)).1
  = filter (fun fs => DictReader.is_blank fs = false)
           (Csv.records_from r (l1 ++ l2)).1
  /\ (Csv.records_from r (l1 ++ "" :: l2)).2 = (Csv.records_from r (l1 ++ l2)).2.
Proof.
  revert r. induction l1 as [| l l1 IH]; intros r Hr.
  - simpl app. simpl Csv.records_from at 1 3.
    unfold Csv.process_line. simpl Csv.process_chars. rewrite bind_ok.
    destruct Hr as [-> | Hq].
    + simpl. destruct (Csv.records_from Csv.parse_reset l2) as [rs e]. simpl.
      rewrite filter_cons_False by (simpl; congruence). auto.
    + unfold Csv.parse_process_char. rewrite Hq. simpl. rewrite Hq. simpl. auto.
  - simpl.
    destruct (Csv.process_line r l) as [r1 | ex] eqn:Hline; [| auto].
    destruct (Csv.state_eqb (Csv.state r1) Csv.START_RECORD) eqn:Hst.
    + destruct (IH Csv.parse_reset (or_introl eq_refl)) as [Hf He].
      destruct (Csv.records_from Csv.parse_reset (l1 ++ "" :: l2)) as [rs1 e1].
      destruct (Csv.records_from Csv.parse_reset (l1 ++ l2)) as [rs2 e2].
      simpl in *. subst e2. split; [| reflexivity].
      rewrite !filter_cons. destruct (decide _); [f_equal |]; exact Hf.
    + apply IH. right.
      destruct (process_line_state _ _ _ Hline) as [H | H]; [| exact H].
      apply state_eqb_spec in H. congruence.
Qed.

(** X7: an empty line among the lines after the header changes neither
    the rows nor the outcome of the invocation. *)
Theorem X7_blank_lines_are_ignored (e : env) (bucket raw_key : string)
        (hdr : list string) (before after : list string) :
  DictReader.rows hdr (before ++ "" :: after) = DictReader.rows hdr (before ++ after)
  /\ process e bucket raw_key hdr (before ++ "" :: after)
     = process e bucket raw_key hdr (before ++ after).
Proof.
  assert (DictReader.rows hdr (before ++ "" :: after)
          = DictReader.rows hdr (before ++ after)) as Hrows.
  { unfold DictReader.rows, Csv.records.
    destruct (records_from_blank_line Csv.parse_reset before after (or_introl eq_refl))
      as [Hf He].
    destruct (Csv.records_from Csv.parse_reset (before ++ "" :: after)) as [rs1 e1].
    destruct (Csv.records_from Csv.parse_reset (before ++ after)) as [rs2 e2].
    simpl in *. rewrite Hf, He. reflexivity. }
  split; [exact Hrows |].
  unfold process. rewrite Hrows. reflexivity.
Qed.

(** ** Line endings *)

Lemma splitlines_lf l rest :
  has_linebreak l = false ->
  splitlines (l ++ String Csv.LF rest) = l :: splitlines rest.
Proof.
  induction l as [| c l IH]; intros Hl; [reflexivity |].
  simpl in Hl. apply orb_false_iff in Hl as [Hc Hl].
  rewrite sapp_cons. simpl. rewrite Hc, IH by exact Hl. reflexivity.
Qed.

Lemma splitlines_cons c s :
  splitlines (String c s)
  = if Str.islinebreak c then
      if Ascii.eqb c "013" && Str.startswith (String "010" "") s
      then splitlines s
      else "" :: splitlines s
    else
      match splitlines s with
      | [] => [String c ""]
      | l :: ls => String c l :: ls
      end.
Proof. reflexivity. Qed.

Lemma splitlines_cr l rest :
  has_linebreak l = false ->
  Str.startswith (String Csv.LF "") rest = false ->
  splitlines (l ++ String Csv.CR rest) = l :: splitlines rest.
Proof.
  induction l as [| c l IH]; intros Hl Hrest.
  - rewrite sapp_nil_l, splitlines_cons. unfold Csv.LF in Hrest. rewrite Hrest.
    reflexivity.
  - simpl in Hl. apply orb_false_iff in Hl as [Hc Hl].
    rewrite sapp_cons. simpl. rewrite Hc, IH by assumption. reflexivity.
Qed.

Lemma join_lines_no_lf term lines :
  term <> "" ->
  Str.startswith (String Csv.LF "") term = false ->
  Forall (fun l => has_linebreak l = false) lines ->
  Str.startswith (String Csv.LF "") (join_lines term lines) = false.
Proof.
  intros Hne Hterm Hall. destruct Hall as [| l ls Hl _]; [reflexivity |].
  simpl join_lines. destruct l as [| c l].
  - rewrite sapp_nil_l. destruct term as [| t term]; [congruence |].
    rewrite sapp_cons. exact Hterm.
  - rewrite sapp_cons. simpl in Hl. apply orb_false_iff in Hl as [Hc _].
    change (Str.startswith (String Csv.LF "") (String c (l ++ term ++ join_lines term ls)))
      with (Ascii.eqb Csv.LF c && true).
    destruct (Ascii.eqb_spec Csv.LF c) as [<- | _]; [discriminate | reflexivity].
Qed.

Lemma splitlines_join_lines term lines :
  term = String Csv.LF "" \/ term = Csv.lineterminator \/ term = String Csv.CR "" ->
  Forall (fun l => has_linebreak l = false) lines ->
  splitlines (join_lines term lines) = lines.
Proof.
  intros Hterm. induction 1 as [| l ls Hl Hall IH]; [reflexivity |].
  simpl join_lines. destruct Hterm as [-> | [-> | ->]].
  - rewrite sapp_cons, sapp_nil_l, splitlines_lf, IH by auto. reflexivity.
  - rewrite splitlines_terminated, IH by auto. reflexivity.
  - rewrite sapp_cons, sapp_nil_l, splitlines_cr, IH; auto.
    apply join_lines_no_lf; [discriminate | reflexivity | exact Hall].
Qed.

Lemma lambda_handler_lines e1 e2 ev text1 text2 :
  unquote_plus e1 = unquote_plus e2 -> put_object e1 = put_object e2 ->
  now e1 = now e2 ->
  (forall b k, get_object e1 b k = Ok text1) ->
  (forall b k, get_object e2 b k = Ok text2) ->
  splitlines text1 = splitlines text2 ->
  lambda_handler e1 ev = lambda_handler e2 ev.
Proof.
  intros Hu Hp Hn Hg1 Hg2 Hl. unfold lambda_handler.
  destruct (Records ev) as [| rec others]; [reflexivity |].
  rewrite Hg1, Hg2, Hl, Hu.
  destruct (splitlines text2) as [| l ls]; [reflexivity |].
  destruct (Csv.iternext (l :: ls)) as [[[hdr |] rest] | ex]; try reflexivity.
  unfold process, write_output. rewrite Hn, Hp. reflexivity.
Qed.

(** X8: whether the lines of the object end in LF, in CR LF or in CR
    makes no difference: [splitlines] gives the same lines and the invocation
    the same outcome. *)
Theorem X8_line_endings_do_not_matter (e : env) (ev : event) (lines : list string) :
  Forall (fun l => has_linebreak l = false) lines ->
  let served text := mkenv (unquote_plus e) (fun _ _ => Ok text) (put_object e) (now e) in
  let lf := join_lines (String Csv.LF "") lines in
  let crlf := join_lines Csv.lineterminator lines in
  let cr := join_lines (String Csv.CR "") lines in
  splitlines lf = lines /\ splitlines crlf = lines /\ splitlines cr = lines
  /\ lambda_handler (served crlf) ev = lambda_handler (served lf) ev
  /\ lambda_handler (served cr) ev = lambda_handler (served lf) ev.
Proof.
  intros Hall served lf crlf cr.
  assert (splitlines lf = lines) as Hlf by (apply splitlines_join_lines; auto).
  assert (splitlines crlf = lines) as Hcrlf by (apply splitlines_join_lines; auto).
  assert (splitlines cr = lines) as Hcr by (apply splitlines_join_lines; auto).
  repeat split; try assumption.
  - apply (lambda_handler_lines _ _ _ crlf lf); try reflexivity. congruence.
  - apply (lambda_handler_lines _ _ _ cr lf); try reflexivity. congruence.
Qed.

(** X8 on a header line and one order. *)
Lemma X8_witness_two_lines :
  lambda_handler
    (Sample.client (join_lines Csv.lineterminator ["Status,OrderDate"; "shipped,2020-01-01"]))
    Sample.notification
  = lambda_handler
      (Sample.client (join_lines (String Csv.LF "") ["Status,OrderDate"; "shipped,2020-01-01"]))
      Sample.notification.
Proof.
  refine (proj1 (proj2 (proj2 (proj2 (X8_line_endings_do_not_matter
            (Sample.client "") Sample.notification
            ["Status,OrderDate"; "shipped,2020-01-01"] _))))).
  repeat constructor.
Defined.

(** ** Records longer or shorter than the header *)

Lemma writerow_raises hdr r e : DictWriter.writerow hdr r = Raise e -> e = ValueError.
Proof.
  unfold DictWriter.writerow, DictWriter.dict_to_list.
  destruct (DictWriter.wrong_fields hdr r); simpl; congruence.
Qed.

Lemma writerows_wrong_row hdr rs r :
  r ∈ rs -> DictWriter.wrong_fields hdr r = true ->
  DictWriter.writerows hdr rs = Raise ValueError.
Proof.
  intros Hin Hw. induction rs as [| r' rs IH]; [inversion Hin |].
  simpl. destruct (DictWriter.writerow hdr r') as [line | e] eqn:Hrow.
  - rewrite bind_ok. apply elem_of_cons in Hin as [-> | Hin].
    + unfold DictWriter.writerow, DictWriter.dict_to_list in Hrow.
      rewrite Hw in Hrow. discriminate.
    + rewrite IH by exact Hin. reflexivity.
  - apply writerow_raises in Hrow as ->. reflexivity.
Qed.

Lemma render_wrong_row hdr rs r :
  r ∈ rs -> DictWriter.wrong_fields hdr r = true -> render hdr rs = Raise ValueError.
Proof.
  intros Hin Hw. unfold render. rewrite writeheader_spec, bind_ok.
  pose proof (writerows_wrong_row hdr rs r Hin Hw) as Hrows.
  destruct rs as [| r' rs]; [inversion Hin |]. rewrite Hrows. reflexivity.
Qed.

(** X9: a kept record with more fields than the header makes the
    invocation fail with [ValueError], without a write. *)
Theorem X9_kept_long_record_is_fatal (e : env) (ev : event) (rec : s3_record)
        (others : list s3_record) (text : string) (hdr rest : list string)
        (recs : list (list string)) (sk dk : string) (cutoff : datetime)
        (fs : list string) :
  Records ev = rec :: others ->
  get_object e (bucket_name rec) (unquote_plus e (object_key rec)) = Ok text ->
  Csv.iternext (splitlines text) = Ok (Some hdr, rest) ->
  Csv.records rest = (recs, None) ->
  find_status_key (header_map hdr) = Some sk ->
  find_date_key (header_map hdr) = Some dk ->
  Datetime.sub_days (now e) 30 = Ok cutoff ->
  fs ∈ recs ->
  (List.length hdr < List.length fs)%nat ->
  retained sk dk cutoff (DictReader.make_row hdr fs) = true ->
  lambda_handler e ev = mkoutcome (Raise ValueError) [].
Proof.
  intros Hev Hget Hhdr Hrecs Hs Hd Hcut Hin Hlen Hret.
  rewrite (lambda_handler_process e ev rec others text hdr rest Hev Hget Hhdr).
  unfold process. rewrite Hs, Hd, (resolved_truthy _ _ _ Hs Hd), Hcut.
  unfold DictReader.rows. rewrite Hrecs.
  unfold write_output. rewrite row_loop_spec. simpl kept_rows.
  rewrite (render_wrong_row hdr _ (DictReader.make_row hdr fs)); [reflexivity | |].
  - apply list_elem_of_filter. split; [exact Hret |].
    apply list_elem_of_fmap. exists fs. split; [reflexivity |].
    apply list_elem_of_filter. split; [| exact Hin].
    destruct fs; [simpl in Hlen; lia | reflexivity].
  - unfold DictReader.make_row. apply Nat.ltb_lt in Hlen. rewrite Hlen.
    apply wrong_fields_restkey.
Qed.

(** X9 on an order with a field beyond the header. *)
Lemma X9_witness_long_record :
  lambda_handler (Sample.client Sample.long_record) Sample.notification
  = mkoutcome (Raise ValueError) [].
Proof.
  refine (X9_kept_long_record_is_fatal (Sample.client Sample.long_record)
            Sample.notification (mkrecord "orders" "raw/2024/jan.csv") []
            Sample.long_record Sample.header ["shipped,2024-01-15,gift"]
            [["shipped"; "2024-01-15"; "gift"]] "Status" "OrderDate" Sample.cutoff
            ["shipped"; "2024-01-15"; "gift"] _ _ _ _ _ _ _ _ _ _).
  - reflexivity.
  - reflexivity.
  - vm_compute. reflexivity.
  - vm_compute. reflexivity.
  - vm_compute. reflexivity.
  - vm_compute. reflexivity.
  - vm_compute. reflexivity.
  - constructor.
  - simpl. lia.
  - vm_compute. reflexivity.
Defined.

Lemma fill_restval_in keys (d : gmap string (option string)) k :
  k ∈ keys -> DictReader.fill_restval keys d !! k = Some None.
Proof.
  unfold DictReader.fill_restval. revert d.
  induction keys as [| k' keys IH]; intros d Hin; [inversion Hin |].
  simpl. destruct (decide (k ∈ keys)) as [H | H]; [apply IH, H |].
  apply elem_of_cons in Hin as [-> | Hin]; [| contradiction].
  clear IH. revert d. induction keys as [| k2 keys IH]; intros d.
  - simpl. apply lookup_insert_eq.
  - apply not_elem_of_cons in H as [Hne H]. simpl.
    assert (<[k2:=None]> (<[k':=None]> d) = <[k':=None]> (<[k2:=None]> d)) as ->
        by (apply insert_insert_ne; congruence).
    apply IH, H.
Qed.

Lemma fill_restval_notin keys (d : gmap string (option string)) k :
  k ∉ keys -> DictReader.fill_restval keys d !! k = d !! k.
Proof.
  unfold DictReader.fill_restval. revert d.
  induction keys as [| k' keys IH]; intros d Hk; [reflexivity |].
  apply not_elem_of_cons in Hk as [Hne Hk]. simpl.
  rewrite IH by exact Hk. apply lookup_insert_ne. congruence.
Qed.

Lemma fill_restval_keys keys (d : gmap string (option string)) k :
  is_Some (DictReader.fill_restval keys d !! k) -> k ∈ keys \/ is_Some (d !! k).
Proof.
  destruct (decide (k ∈ keys)) as [H | H]; [auto |].
  rewrite fill_restval_notin by exact H. auto.
Qed.

(** X10: under pairwise distinct header names, a record with fewer fields
    than the header is written as its fields followed by an empty field for
    each missing column; to the filter the missing cells read as empty
    strings. *)
Theorem X10_short_record_is_padded (hdr fs : list string) :
  NoDup hdr ->
  (List.length fs <= List.length hdr)%nat ->
  let missing := (List.length hdr - List.length fs)%nat in
  DictWriter.dict_to_list hdr (DictReader.make_row hdr fs)
  = Ok (map Some fs ++ replicate missing None)%list
  /\ DictWriter.writerow hdr (DictReader.make_row hdr fs)
     = Ok (Csv.writerow (map Some fs ++ replicate missing None)%list)
  /\ (forall k, k ∈ drop (List.length fs) hdr ->
        get_or_empty (DictReader.make_row hdr fs) k = "").
Proof.
  intros Hnd Hlen missing.
  assert (hdr = take (List.length fs) hdr ++ drop (List.length fs) hdr)%list as Hsplit
      by (symmetry; apply take_drop).
  assert (NoDup (take (List.length fs) hdr ++ drop (List.length fs) hdr)%list) as Hnd'
      by (rewrite <- Hsplit; exact Hnd).
  apply NoDup_app in Hnd' as (Hnd1 & Hdisj & Hnd2).
  assert (zip hdr fs = zip (take (List.length fs) hdr) fs) as Hzip.
  { clear. revert hdr. induction fs as [| f fs IH]; intros [| h hdr]; simpl; try reflexivity.
    f_equal. apply IH. }
  assert (forall k, is_Some (cells (DictReader.make_row hdr fs) !! k) -> k ∈ hdr) as Hkeys.
  { intros k. unfold DictReader.make_row.
    destruct (_ <? _)%nat; [simpl; apply dict_zip_keys |].
    destruct (_ <? _)%nat; simpl; [| apply dict_zip_keys].
    intros [H | H]%fill_restval_keys.
    - rewrite Hsplit. apply elem_of_app. auto.
    - apply dict_zip_keys in H. exact H. }
  assert (restkey (DictReader.make_row hdr fs) = None) as Hrest.
  { unfold DictReader.make_row.
    destruct (Nat.ltb_spec (List.length hdr) (List.length fs)); [lia |].
    destruct (_ <? _)%nat; reflexivity. }
  assert (map (fun k => default (Some "") (cells (DictReader.make_row hdr fs) !! k)) hdr
          = (map Some fs ++ replicate missing None)%list) as Hvals.
  { set (f := fun k => default (Some "") (cells (DictReader.make_row hdr fs) !! k)).
    rewrite Hsplit. subst f. rewrite map_app. f_equal.
    - assert (map (fun k => default (Some "") (DictReader.dict_zip hdr fs !! k))
                  (take (List.length fs) hdr) = map Some fs) as <-.
      { unfold DictReader.dict_zip. rewrite Hzip. apply foldl_zip_values; [exact Hnd1 |].
        rewrite length_take. lia. }
      apply map_ext_in. intros k Hk%list_elem_of_In.
      unfold DictReader.make_row.
      destruct (Nat.ltb_spec (List.length hdr) (List.length fs)); [lia |].
      destruct (_ <? _)%nat; simpl; [| reflexivity].
      rewrite fill_restval_notin; [reflexivity |]. intros H'. eapply Hdisj; eauto.
    - assert (List.length (drop (List.length fs) hdr) = missing) as Hm
          by (rewrite length_drop; reflexivity).
      rewrite <- Hm. clear Hm.
      assert (forall k, k ∈ drop (List.length fs) hdr ->
                default (Some "") (cells (DictReader.make_row hdr fs) !! k) = None) as Hnone.
      { intros k Hk. unfold DictReader.make_row.
        destruct (Nat.ltb_spec (List.length hdr) (List.length fs)); [lia |].
        destruct (Nat.ltb_spec (List.length fs) (List.length hdr)); simpl.
        - rewrite fill_restval_in by exact Hk. reflexivity.
        - rewrite drop_ge in Hk by lia. inversion Hk. }
      revert Hnone. generalize (drop (List.length fs) hdr) as ks.
      induction ks as [| k ks IH]; intros Hnone; [reflexivity |].
      simpl. rewrite Hnone by (by left). f_equal. apply IH.
      intros k' Hk'. apply Hnone. by right. }
  assert (DictWriter.dict_to_list hdr (DictReader.make_row hdr fs)
          = Ok (map Some fs ++ replicate missing None)%list) as Hlist.
  { unfold DictWriter.dict_to_list.
    destruct (DictReader.make_row hdr fs) as [d rk] eqn:Hrow. simpl in Hrest. subst rk.
    rewrite wrong_fields_false by exact Hkeys. simpl in Hvals |- *. rewrite Hvals.
    reflexivity. }
  split; [exact Hlist |]. split.
  - unfold DictWriter.writerow. rewrite Hlist. reflexivity.
  - intros k Hk. unfold get_or_empty, DictReader.make_row.
    destruct (Nat.ltb_spec (List.length hdr) (List.length fs)); [lia |].
    destruct (Nat.ltb_spec (List.length fs) (List.length hdr)); simpl.
    + rewrite fill_restval_in by exact Hk. reflexivity.
    + rewrite drop_ge in Hk by lia. inversion Hk.
Qed.

(** X10 on an order without its note. *)
Lemma X10_witness_short_record :
  DictWriter.writerow ["Status"; "OrderDate"; "Note"]
    (DictReader.make_row ["Status"; "OrderDate"; "Note"] ["shipped"; "2024-01-15"])
  = Ok (Csv.writerow [Some "shipped"; Some "2024-01-15"; None]).
Proof.
  refine (proj1 (proj2 (X10_short_record_is_padded ["Status"; "OrderDate"; "Note"]
                          ["shipped"; "2024-01-15"] _ _))).
  - apply (bool_decide_unpack _). vm_compute. reflexivity.
  - simpl. lia.
Defined.

(** ** The written object *)

Lemma join_append_default f q : Csv.join_append f q = Csv.join_append (Some (default "" f)) q.
Proof. reflexivity. Qed.

Lemma join_fields_default fs :
  Csv.join_fields fs = Csv.join_fields (map Some (map (default "") fs)).
Proof.
  induction fs as [| f fs IH]; [reflexivity |].
  destruct fs as [| f' fs]; [reflexivity |].
  change (Csv.join_fields (f :: f' :: fs))
    with (Csv.join_append f false ++ String Csv.delimiter (Csv.join_fields (f' :: fs))).
  rewrite IH. reflexivity.
Qed.

(** [None] is written as the empty string. *)
Lemma writerow_default fs :
  Csv.writerow fs = Csv.writerow (map Some (map (default "") fs)).
Proof.
  unfold Csv.writerow. rewrite !length_map, <- join_fields_default. reflexivity.
Qed.

Lemma dict_zip_value_from (m : gmap string (option string)) ks vs k v :
  foldl (fun d kv => <[kv.1 := Some kv.2]> d) m (zip ks vs) !! k = Some (Some v) ->
  v ∈ vs \/ m !! k = Some (Some v).
Proof.
  revert m vs. induction ks as [| k' ks IH]; intros m vs; [auto |].
  destruct vs as [| v' vs]; [auto |]. simpl. intros [H | H]%IH.
  - left. by right.
  - destruct (decide (k' = k)) as [-> | Hne].
    + rewrite lookup_insert_eq in H. injection H as ->. left. by left.
    + rewrite lookup_insert_ne in H by exact Hne. auto.
Qed.

Lemma dict_zip_value ks vs k v : DictReader.dict_zip ks vs !! k = Some (Some v) -> v ∈ vs.
Proof.
  intros [H | H]%dict_zip_value_from; [exact H |].
  rewrite lookup_empty in H. discriminate.
Qed.

(** Every string in a row dictionary is a field of the record it was made
    of. *)
Lemma make_row_cell hdr fs k v :
  cells (DictReader.make_row hdr fs) !! k = Some (Some v) -> v ∈ fs.
Proof.
  unfold DictReader.make_row.
  destruct (_ <? _)%nat; [simpl; apply dict_zip_value |].
  destruct (_ <? _)%nat; simpl; [| apply dict_zip_value].
  destruct (decide (k ∈ drop (List.length fs) hdr)) as [H | H].
  - rewrite fill_restval_in by exact H. discriminate.
  - rewrite fill_restval_notin by exact H. apply dict_zip_value.
Qed.

Lemma row_values_ok hdr fs :
  Forall field_ok fs -> Forall field_ok (row_values hdr (DictReader.make_row hdr fs)).
Proof.
  intros Hfs. unfold row_values. apply Forall_forall. intros v Hv.
  apply list_elem_of_fmap in Hv as (k & -> & _).
  destruct (cells (DictReader.make_row hdr fs) !! k) as [[s |] |] eqn:Hk; simpl;
    try apply field_ok_empty.
  apply make_row_cell in Hk. eapply Forall_forall in Hfs; eauto.
Qed.

Lemma writerow_row_values hdr r line :
  DictWriter.writerow hdr r = Ok line -> line = Csv.writerow (map Some (row_values hdr r)).
Proof.
  unfold DictWriter.writerow, DictWriter.dict_to_list.
  destruct (DictWriter.wrong_fields hdr r); [discriminate |].
  rewrite bind_ok. intros [= <-]. rewrite writerow_default. unfold row_values.
  rewrite (map_map _ (default "")). reflexivity.
Qed.

Lemma writerows_row_values hdr rs text :
  DictWriter.writerows hdr rs = Ok text ->
  text = write_records (map (row_values hdr) rs).
Proof.
  revert text. induction rs as [| r rs IH]; intros text; simpl; [congruence |].
  destruct (DictWriter.writerow hdr r) as [line | ex] eqn:Hline; [| discriminate].
  rewrite bind_ok.
  destruct (DictWriter.writerows hdr rs) as [rest | ex]; [| discriminate].
  rewrite bind_ok. intros [= <-].
  rewrite (writerow_row_values _ _ _ Hline), (IH rest eq_refl). reflexivity.
Qed.

Lemma render_row_values hdr rs text :
  render hdr rs = Ok text -> text = write_records (hdr :: map (row_values hdr) rs).
Proof.
  unfold render. rewrite writeheader_spec, bind_ok.
  destruct rs as [| r rs].
  - rewrite bind_ok. intros [= <-]. reflexivity.
  - destruct (DictWriter.writerows hdr (r :: rs)) as [rest | ex] eqn:Hrows; [| discriminate].
    rewrite bind_ok. intros [= <-].
    rewrite (writerows_row_values _ _ _ Hrows). reflexivity.
Qed.

(** X11: the body of a [put_object] call is the header record followed by
    one record per kept row; read back with the same reader it gives, without
    an error, the header of the input and for each kept row as many fields as
    the header has. *)
Theorem X11_written_object_reads_back (e : env) (ev : event) (rec : s3_record)
        (others : list s3_record) (call : put_call) :
  Records ev = rec :: others ->
  call ∈ puts (lambda_handler e ev) ->
  exists text hdr recs sk dk cutoff,
    get_object e (bucket_name rec) (unquote_plus e (object_key rec)) = Ok text
    /\ Csv.records (splitlines text) = (hdr :: recs, None)
    /\ find_status_key (header_map hdr) = Some sk
    /\ find_date_key (header_map hdr) = Some dk
    /\ Datetime.sub_days (now e) 30 = Ok cutoff
    /\ let rows := map (DictReader.make_row hdr)
                       (filter (fun fs => DictReader.is_blank fs = false) recs) in
       let kept := filter (fun r => retained sk dk cutoff r = true) rows in
       let written := map (row_values hdr) kept in
       put_body call = write_records (hdr :: written)
       /\ Csv.records (splitlines (put_body call)) = (hdr :: written, None)
       /\ Forall (fun fs => List.length fs = List.length hdr) written.
Proof.
  intros Hev Hcall.
  unfold lambda_handler in Hcall. rewrite Hev in Hcall.
  set (bucket := bucket_name rec) in *. set (raw_key := unquote_plus e (object_key rec)) in *.
  cbv zeta in Hcall.
  destruct (get_object e bucket raw_key) as [text | ex] eqn:Hget; [| inversion Hcall].
  destruct (splitlines text) as [| l ls] eqn:Hl; [inversion Hcall |].
  destruct (Csv.iternext (l :: ls)) as [[[hdr |] rest] | ex] eqn:Hhdr;
    try (inversion Hcall; fail).
  destruct (process_inv e bucket raw_key hdr rest)
    as [H | [[ex H] | (sk & dk & cutoff & recs & Hs & Hd & Hcut & Hrecs & H)]];
    rewrite H in Hcall; try (inversion Hcall; fail).
  match type of Hcall with context [write_output _ _ _ _ ?st] =>
    destruct (write_output_inv e bucket raw_key hdr st)
      as [(ex & Hw & _) | (out & Hr & Hw)]
  end; rewrite Hw in Hcall; [inversion Hcall |].
  simpl in Hcall. apply list_elem_of_singleton in Hcall as ->.
  rewrite row_loop_spec in Hr. simpl in Hr.
  assert (Csv.records (splitlines text) = (hdr :: recs, None)) as Hall.
  { rewrite Hl. apply iternext_header_records in Hhdr. rewrite Hrecs in Hhdr. exact Hhdr. }
  exists text, hdr, recs, sk, dk, cutoff.
  repeat (split; [assumption || reflexivity |]).
  cbv zeta. simpl put_body.
  apply render_row_values in Hr. split; [exact Hr |].
  split.
  - rewrite Hr. apply read_written_records.
    pose proof (input_fields_ok _ _ _ Hall) as Hok.
    apply Forall_cons in Hok as [Hhok Hrok].
    pose proof (resolved_header_nonempty _ _ Hs) as Hne.
    constructor; [split; assumption |].
    apply Forall_forall. intros vs Hvs.
    apply list_elem_of_fmap in Hvs as (r & -> & Hr').
    apply list_elem_of_filter in Hr' as [_ Hr'].
    apply list_elem_of_fmap in Hr' as (fs & -> & Hfs).
    apply list_elem_of_filter in Hfs as [_ Hfs].
    split.
    + unfold row_values. destruct hdr; [congruence | discriminate].
    + apply row_values_ok. eapply Forall_forall in Hrok; eauto.
  - apply Forall_forall. intros vs Hvs.
    apply list_elem_of_fmap in Hvs as (r & -> & _).
    unfold row_values. apply length_map.
Qed.

(** X11 on the two sample orders. *)
Lemma X11_witness_orders :
  exists hdr written,
    Csv.records (splitlines (write_records
                   [Sample.header; ["shipped"; "2020-01-01"]; ["pending"; "2024-02-01"]]))
    = (hdr :: written, None).
Proof.
  destruct (X11_written_object_reads_back (Sample.client Sample.orders)
              Sample.notification (mkrecord "orders" "raw/2024/jan.csv") []
              (Sample.written (write_records
                 [Sample.header; ["shipped"; "2020-01-01"]; ["pending"; "2024-02-01"]])))
    as (text & hdr & recs & sk & dk & cutoff & _ & _ & _ & _ & _ & _ & Hback & _).
  - reflexivity.
  - vm_compute. constructor.
  - eexists hdr, _. exact Hback.
Defined.

(** ** Objects within the field size limit *)

Lemma splitlines_total_length text :
  (total_length (splitlines text) <= String.length text)%nat.
Proof.
  induction text as [| c text IH]; simpl; [lia |].
  destruct (Str.islinebreak c).
  - destruct (_ && _); simpl; lia.
  - destruct (splitlines text) as [| l ls]; simpl in *; lia.
Qed.

Lemma add_char_within r c :
  (N.of_nat (String.length (Csv.field r)) < Csv.field_limit)%N ->
  Csv.parse_add_char r c
  = Ok (Csv.mkreader (Csv.fields r) (Csv.field r ++ String c "") (Csv.state r)).
Proof.
  intros H. unfold Csv.parse_add_char.
  destruct (N.leb_spec Csv.field_limit (N.of_nat (String.length (Csv.field r))));
    [lia | reflexivity].
Qed.

Lemma char_within r c :
  Csv.state r <> Csv.EAT_CRNL -> Csv.is_newline c = false ->
  (N.of_nat (String.length (Csv.field r)) < Csv.field_limit)%N ->
  exists r', Csv.parse_process_char r (Some c) = Ok r'
             /\ Csv.state r' <> Csv.EAT_CRNL
             /\ (String.length (Csv.field r') <= S (String.length (Csv.field r)))%nat.
Proof.
  intros Hst Hnl Hlen. destruct r as [fs f st]. simpl in *.
  unfold Csv.parse_process_char, Csv.start_field. simpl. rewrite Hnl.
  destruct st; try congruence;
    repeat match goal with
           | |- context [if Ascii.eqb ?a ?b then _ else _] => destruct (Ascii.eqb a b)
           end;
    rewrite ?add_char_within by exact Hlen; simpl;
    eexists; (split; [reflexivity |]); simpl;
    rewrite ?slength_app; simpl; (split; [congruence | lia]).
Qed.

Lemma chars_within s : forall r,
  Csv.state r <> Csv.EAT_CRNL -> has_linebreak s = false ->
  (N.of_nat (String.length (Csv.field r) + String.length s) <= Csv.field_limit)%N ->
  exists r', Csv.process_chars r s = Ok r'
             /\ Csv.state r' <> Csv.EAT_CRNL
             /\ (String.length (Csv.field r')
                 <= String.length (Csv.field r) + String.length s)%nat.
Proof.
  induction s as [| c s IH]; intros r Hst Hlb Hlen.
  - exists r. split; [reflexivity |]. split; [exact Hst | simpl; lia].
  - simpl in Hlb, Hlen. apply orb_false_iff in Hlb as [Hc Hlb].
    pose proof (is_newline_linebreak c Hc) as Hnl.
    destruct (char_within r c Hst Hnl) as (r1 & H1 & Hst1 & Hl1); [lia |].
    destruct (IH r1 Hst1 Hlb) as (r2 & H2 & Hst2 & Hl2); [lia |].
    exists r2. rewrite process_chars_cons, H1, bind_ok.
    split; [exact H2 |]. split; [exact Hst2 | simpl; lia].
Qed.

Lemma line_within r l :
  Csv.state r <> Csv.EAT_CRNL -> has_linebreak l = false ->
  (N.of_nat (String.length (Csv.field r) + String.length l) <= Csv.field_limit)%N ->
  exists r', Csv.process_line r l = Ok r'
             /\ Csv.state r' <> Csv.EAT_CRNL
             /\ (String.length (Csv.field r')
                 <= String.length (Csv.field r) + String.length l)%nat.
Proof.
  intros Hst Hlb Hlen.
  destruct (chars_within l r Hst Hlb Hlen) as (r1 & H1 & Hst1 & Hl1).
  unfold Csv.process_line. rewrite H1, bind_ok.
  destruct r1 as [fs f st]. simpl in *.
  unfold Csv.parse_process_char, Csv.start_field. simpl.
  destruct st; try congruence; eexists; (split; [reflexivity |]); simpl;
    (split; [congruence | lia]).
Qed.

Lemma records_from_within lines : forall r,
  Csv.state r <> Csv.EAT_CRNL ->
  Forall (fun l => has_linebreak l = false) lines ->
  (N.of_nat (String.length (Csv.field r) + total_length lines) <= Csv.field_limit)%N ->
  (Csv.records_from r lines).2 = None.
Proof.
  induction lines as [| l ls IH]; intros r Hst Hls Hlen; simpl.
  - destruct (Csv.pending r); reflexivity.
  - apply Forall_cons in Hls as [Hl Hls]. simpl in Hlen.
    destruct (line_within r l Hst Hl) as (r1 & H1 & Hst1 & Hl1); [lia |].
    rewrite H1. destruct (Csv.state_eqb (Csv.state r1) Csv.START_RECORD).
    + specialize (IH Csv.parse_reset). simpl in IH.
      destruct (Csv.records_from Csv.parse_reset ls) as [rs stop]. simpl in *.
      apply IH; [discriminate | exact Hls | lia].
    + apply IH; [exact Hst1 | exact Hls | lia].
Qed.

Lemma iternext_from_within lines : forall r,
  Csv.state r <> Csv.EAT_CRNL ->
  Forall (fun l => has_linebreak l = false) lines ->
  (N.of_nat (String.length (Csv.field r) + total_length lines) <= Csv.field_limit)%N ->
  exists first, Csv.iternext_from r lines = Ok first.
Proof.
  induction lines as [| l ls IH]; intros r Hst Hls Hlen; simpl.
  - destruct (Csv.pending r); eauto.
  - apply Forall_cons in Hls as [Hl Hls]. simpl in Hlen.
    destruct (line_within r l Hst Hl) as (r1 & H1 & Hst1 & Hl1); [lia |].
    rewrite H1, bind_ok. destruct (Csv.state_eqb (Csv.state r1) Csv.START_RECORD); [eauto |].
    apply IH; [exact Hst1 | exact Hls | lia].
Qed.

Lemma sub_days_raises t n ex : Datetime.sub_days t n = Raise ex -> ex = OverflowError.
Proof.
  unfold Datetime.sub_days. destruct (_ && _); [| congruence].
  destruct (Datetime.ord2ymd _) as [[y m] d]. discriminate.
Qed.

Lemma writerows_raises hdr rs ex : DictWriter.writerows hdr rs = Raise ex -> ex = ValueError.
Proof.
  induction rs as [| r rs IH]; simpl; [discriminate |].
  destruct (DictWriter.writerow hdr r) as [line | ex'] eqn:Hrow.
  - rewrite bind_ok. destruct (DictWriter.writerows hdr rs); [discriminate |].
    simpl. intros [= <-]. apply IH. reflexivity.
  - simpl. intros [= <-]. eapply writerow_raises, Hrow.
Qed.

Lemma render_raises hdr rs ex : render hdr rs = Raise ex -> ex = ValueError.
Proof.
  unfold render. rewrite writeheader_spec, bind_ok.
  destruct rs as [| r rs]; [discriminate |].
  destruct (DictWriter.writerows hdr (r :: rs)) eqn:H; [discriminate |].
  simpl. intros [= <-]. eapply writerows_raises, H.
Qed.

(** X12: an object of at most 131072 characters, the field size limit of
    the reader, is read without [csv.Error]: the header and every record are
    delivered, and the invocation does not end in [csv.Error]. *)
Theorem X12_small_objects_are_always_readable (text : string) :
  (N.of_nat (String.length text) <= Csv.field_limit)%N ->
  (exists first, Csv.iternext (splitlines text) = Ok first)
  /\ (Csv.records (splitlines text)).2 = None
  /\ (forall (e : env) (ev : event) (rec : s3_record) (others : list s3_record),
        Records ev = rec :: others ->
        get_object e (bucket_name rec) (unquote_plus e (object_key rec)) = Ok text ->
        lambda_handler e ev <> raising CsvError).
Proof.
  intros Hlen.
  pose proof (splitlines_total_length text) as Htot.
  pose proof (splitlines_no_linebreak text) as Hlb.
  assert (exists first, Csv.iternext (splitlines text) = Ok first) as Hfirst.
  { apply iternext_from_within; [discriminate | exact Hlb | simpl; lia]. }
  assert ((Csv.records (splitlines text)).2 = None) as Hrecs.
  { apply records_from_within; [discriminate | exact Hlb | simpl; lia]. }
  split; [exact Hfirst |]. split; [exact Hrecs |].
  intros e ev rec others Hev Hget. unfold lambda_handler. rewrite Hev.
  cbv zeta. rewrite Hget.
  destruct Hfirst as [[first rest] Hfirst].
  destruct (splitlines text) as [| l ls] eqn:Hl; [discriminate |].
  rewrite Hfirst. destruct first as [hdr |]; [| discriminate].
  apply iternext_header_records in Hfirst. rewrite Hfirst in Hrecs. simpl in Hrecs.
  unfold process.
  destruct (falsy _ || falsy _); [discriminate |].
  destruct (find_status_key _) as [sk |]; [| discriminate].
  destruct (find_date_key _) as [dk |]; [| discriminate].
  destruct (Datetime.sub_days _ _) as [cutoff | ex] eqn:Hcut.
  - unfold DictReader.rows. destruct (Csv.records rest) as [recs stop].
    simpl in Hrecs. subst stop.
    unfold write_output.
    destruct (render hdr _) as [out | ex] eqn:Hr.
    + cbv zeta. destruct (put_object e _ _ _ _); discriminate.
    + apply render_raises in Hr as ->. discriminate.
  - apply sub_days_raises in Hcut as ->. discriminate.
Qed.

(** X12 on the two sample orders. *)
Lemma X12_witness_orders : (Csv.records (splitlines Sample.orders)).2 = None.
Proof.
  refine (proj1 (proj2 (X12_small_objects_are_always_readable Sample.orders _))).
  vm_compute. discriminate.
Defined.

(** ** The date formats exclude one another *)

Lemma numeric_atom_matches x c :
  numeric_atom x = true -> Strptime.atom_matches x c = true -> digit_or_space c = true.
Proof.
  unfold digit_or_space. destruct x as [| lo hi | c']; simpl.
  - intros _ ->. reflexivity.
  - unfold Str.isdigit. intros [H1 H2]%andb_true_iff [H3 H4]%andb_true_iff.
    apply N.leb_le in H1, H2, H3, H4. apply orb_true_iff. left.
    apply andb_true_iff. split; apply N.leb_le; lia.
  - intros H ->%Ascii.eqb_eq. exact H.
Qed.

Lemma match_alt_separator a : forall s txt c rest,
  forallb numeric_atom a = true ->
  Strptime.match_alt a s = Some (txt, String c rest) ->
  digit_or_space c = false ->
  first_separator s = Some (List.length a, c).
Proof.
  induction a as [| x a IH]; intros s txt c rest Hnum Hm Hc; simpl in Hm.
  - injection Hm as _ ->. simpl. rewrite Hc. reflexivity.
  - simpl in Hnum. apply andb_true_iff in Hnum as [Hx Hnum].
    destruct s as [| c0 s]; [discriminate |].
    destruct (Strptime.atom_matches x c0) eqn:Hx0; [| discriminate].
    destruct (Strptime.match_alt a s) as [[txt' rest'] |] eqn:Ha; [| discriminate].
    injection Hm as _ ->.
    simpl. rewrite (numeric_atom_matches _ _ Hx Hx0).
    rewrite (IH _ _ _ _ Hnum Ha Hc). reflexivity.
Qed.

(** A numeric group followed by a literal separator: the separator is the
    first one of the string, at the length of the alternative that
    matched. *)
Lemma group_literal_separator name alts c p s g rest :
  forallb (forallb numeric_atom) alts = true ->
  digit_or_space c = false ->
  Strptime.re_match (Strptime.Group name alts :: Strptime.Literal c :: p) s
  = Some (g, rest) ->
  In (first_separator s) (map (fun a => Some (List.length a, c)) alts).
Proof.
  intros Hnum Hc. simpl.
  induction alts as [| a alts IH]; [discriminate |].
  simpl in Hnum. apply andb_true_iff in Hnum as [Ha Hnum].
  destruct (Strptime.match_alt a s) as [[txt r] |] eqn:Hm; [| intros H; right; auto].
  destruct r as [| c' r]; [intros H; right; auto |].
  destruct (Ascii.eqb_spec c c') as [<- | _]; [| intros H; right; auto].
  intros _. left. symmetry. eapply match_alt_separator; eauto.
Qed.

Lemma strptime_pattern s fmt dt :
  Strptime.strptime s fmt = Ok dt ->
  exists p g, Strptime.pattern fmt = Some p /\ Strptime.re_match p s = Some (g, "").
Proof.
  unfold Strptime.strptime.
  destruct (Strptime.pattern fmt) as [p |]; [| discriminate].
  destruct (Strptime.re_match p s) as [[g rest] |] eqn:Hm; [| discriminate].
  destruct (String.eqb_spec rest "") as [-> | _]; [| discriminate].
  intros _. exists p, g. split; [reflexivity | exact Hm].
Qed.

Lemma strptime_separator s fmt dt :
  fmt ∈ DATE_FORMATS -> Strptime.strptime s fmt = Ok dt ->
  (fmt = "%Y-%m-%d" /\ first_separator s = Some (4%nat, "-"%char))
  \/ (fmt = "%m/%d/%Y"
      /\ (first_separator s = Some (1%nat, "/"%char)
          \/ first_separator s = Some (2%nat, "/"%char)))
  \/ (fmt = "%Y/%m/%d" /\ first_separator s = Some (4%nat, "/"%char))
  \/ (fmt = "%d-%m-%Y"
      /\ (first_separator s = Some (1%nat, "-"%char)
          \/ first_separator s = Some (2%nat, "-"%char))).
Proof.
  intros Hin Hok. apply strptime_pattern in Hok as (p & g & Hp & Hm).
  unfold DATE_FORMATS in Hin.
  repeat (apply elem_of_cons in Hin as [-> | Hin]); [| | | | inversion Hin];
    vm_compute in Hp; injection Hp as <-;
    apply group_literal_separator in Hm; try reflexivity;
    simpl in Hm; intuition auto.
Qed.

Lemma parse_date_loop_any fmts s fmt dt :
  (forall f1 f2 d1 d2, f1 ∈ fmts -> f2 ∈ fmts ->
     Strptime.strptime (Str.strip s) f1 = Ok d1 ->
     Strptime.strptime (Str.strip s) f2 = Ok d2 -> f1 = f2) ->
  fmt ∈ fmts -> Strptime.strptime (Str.strip s) fmt = Ok dt ->
  parse_date_loop fmts s = Ok dt.
Proof.
  induction fmts as [| f fmts IH]; intros Hex Hin Hok; [inversion Hin |].
  simpl. destruct (Strptime.strptime (Str.strip s) f) as [dt' | ex] eqn:Hf.
  - assert (f = fmt) as -> by (eapply Hex; eauto; by left). congruence.
  - apply elem_of_cons in Hin as [-> | Hin]; [congruence |].
    apply IH; [| exact Hin | exact Hok].
    intros f1 f2 d1 d2 H1 H2. apply Hex; by right.
Qed.

(** X13: no string is accepted by two of the four date formats.  So a
    string that one of the formats parses is parsed by [parse_date] to that
    result, and the order in which the formats are tried does not matter. *)
Theorem X13_date_formats_exclude_one_another (s : string) :
  (forall fmt1 fmt2 dt1 dt2,
     fmt1 ∈ DATE_FORMATS -> fmt2 ∈ DATE_FORMATS ->
     Strptime.strptime s fmt1 = Ok dt1 -> Strptime.strptime s fmt2 = Ok dt2 ->
     fmt1 = fmt2)
  /\ (forall fmt dt,
        fmt ∈ DATE_FORMATS ->
        Strptime.strptime (Str.strip s) fmt = Ok dt -> parse_date s = Ok dt)
  /\ (forall fmts, fmts ≡ₚ DATE_FORMATS -> parse_date_loop fmts s = parse_date s).
Proof.
  assert (forall t fmt1 fmt2 dt1 dt2,
            fmt1 ∈ DATE_FORMATS -> fmt2 ∈ DATE_FORMATS ->
            Strptime.strptime t fmt1 = Ok dt1 -> Strptime.strptime t fmt2 = Ok dt2 ->
            fmt1 = fmt2) as Hex.
  { intros t fmt1 fmt2 dt1 dt2 Hin1 Hin2 H1 H2.
    pose proof (strptime_separator _ _ _ Hin1 H1) as S1.
    pose proof (strptime_separator _ _ _ Hin2 H2) as S2.
    destruct S1 as [[-> S1] | [[-> [S1 | S1]] | [[-> S1] | [-> [S1 | S1]]]]];
      destruct S2 as [[-> S2] | [[-> [S2 | S2]] | [[-> S2] | [-> [S2 | S2]]]]];
      try reflexivity; rewrite S1 in S2; discriminate. }
  split; [apply Hex |].
  split.
  { intros fmt dt Hin Hok. apply parse_date_loop_any with fmt; auto.
    intros f1 f2 d1 d2. apply Hex. }
  intros fmts Hperm. unfold parse_date.
  destruct (parse_date_loop DATE_FORMATS s) as [dt | ex] eqn:Hd.
  - apply parse_date_loop_ok in Hd as (i & fmt & Hi & Hok & _).
    apply list_elem_of_lookup_2 in Hi.
    apply parse_date_loop_any with fmt; [| rewrite Hperm; exact Hi | exact Hok].
    intros f1 f2 d1 d2 H1 H2. rewrite Hperm in H1, H2. apply Hex; assumption.
  - apply parse_date_loop_raise in Hd as [-> Hall].
    apply parse_date_loop_raise. split; [reflexivity |].
    intros fmt Hin. apply Hall. rewrite <- Hperm. exact Hin.
Qed.

(** ** Dates written year first *)

Lemma digit_char_cases n :
  exists k, (k < 10)%nat /\ digit_char n = ascii_of_N (N.of_nat (48 + k))
            /\ n mod 10 = Z.of_nat k.
Proof.
  exists (Z.to_nat (n mod 10)).
  pose proof (Z.mod_pos_bound n 10 ltac:(lia)) as H.
  split; [lia |]. split; [| lia].
  unfold digit_char. f_equal. lia.
Qed.

Lemma digit_char_spec n :
  Str.isdigit (digit_char n) = true
  /\ Str.isspace (digit_char n) = false
  /\ Strptime.digit_value (digit_char n) = n mod 10.
Proof.
  destruct (digit_char_cases n) as (k & Hk & -> & ->).
  do 10 (destruct k as [| k]; [repeat split; reflexivity |]). lia.
Qed.

Lemma four_digits_int y : 0 <= y <= 9999 -> Strptime.int (four_digits y) = y.
Proof.
  intros Hy. unfold Strptime.int, four_digits, two_digits, Str.strip.
  destruct (digit_char_spec (y / 1000)) as (_ & S0 & V0).
  destruct (digit_char_spec (y / 100)) as (_ & S1 & V1).
  destruct (digit_char_spec (y / 10)) as (_ & S2 & V2).
  destruct (digit_char_spec y) as (_ & S3 & V3).
  simpl. rewrite S0, S1, S2, S3. simpl. rewrite S0. simpl.
  rewrite V0, V1, V2, V3. clear -Hy. Z.div_mod_to_equations. lia.
Qed.

Lemma year_group p y rest :
  Strptime.re_match
    (Strptime.Group "Y" [[Strptime.Digit; Strptime.Digit; Strptime.Digit; Strptime.Digit]]
       :: p) (four_digits y ++ rest)
  = match Strptime.re_match p rest with
    | Some (g, r) => Some (("Y"%char, four_digits y) :: g, r)
    | None => None
    end.
Proof.
  unfold four_digits, two_digits. rewrite !sapp_cons.
  change ("" ++ rest) with rest.
  destruct (digit_char_spec (y / 1000)) as (D0 & _ & _).
  destruct (digit_char_spec (y / 100)) as (D1 & _ & _).
  destruct (digit_char_spec (y / 10)) as (D2 & _ & _).
  destruct (digit_char_spec y) as (D3 & _ & _).
  cbn [Strptime.re_match Strptime.match_alt Strptime.atom_matches].
  rewrite D0, D1, D2, D3.
  destruct (Strptime.re_match p rest) as [[g r] |]; reflexivity.
Qed.

(** Month and day, each written with two digits, are read back as they
    are. *)
Lemma month_day_groups m d :
  1 <= m <= 12 -> 1 <= d <= 31 ->
  exists g,
    Strptime.re_match
      [Strptime.Literal "-";
       Strptime.Group "m" [[Strptime.Char "1"; Strptime.Range "0" "2"];
                           [Strptime.Char "0"; Strptime.Range "1" "9"];
                           [Strptime.Range "1" "9"]];
       Strptime.Literal "-";
       Strptime.Group "d" [[Strptime.Char "3"; Strptime.Range "0" "1"];
                           [Strptime.Range "1" "2"; Strptime.Digit];
                           [Strptime.Char "0"; Strptime.Range "1" "9"];
                           [Strptime.Range "1" "9"];
                           [Strptime.Char " "; Strptime.Range "1" "9"]]]
      ("-" ++ two_digits m ++ "-" ++ two_digits d) = Some (g, "")
    /\ Strptime.group_int "m" 1 g = m /\ Strptime.group_int "d" 1 g = d.
Proof.
  intros Hm Hd.
  assert (Hall : forallb (fun m => forallb (fun d =>
            match Strptime.re_match
                    [Strptime.Literal "-";
                     Strptime.Group "m" [[Strptime.Char "1"; Strptime.Range "0" "2"];
                                         [Strptime.Char "0"; Strptime.Range "1" "9"];
                                         [Strptime.Range "1" "9"]];
                     Strptime.Literal "-";
                     Strptime.Group "d" [[Strptime.Char "3"; Strptime.Range "0" "1"];
                                         [Strptime.Range "1" "2"; Strptime.Digit];
                                         [Strptime.Char "0"; Strptime.Range "1" "9"];
                                         [Strptime.Range "1" "9"];
                                         [Strptime.Char " "; Strptime.Range "1" "9"]]]
                    ("-" ++ two_digits m ++ "-" ++ two_digits d) with
            | Some (g, "") =>
                (Strptime.group_int "m" 1 g =? m) && (Strptime.group_int "d" 1 g =? d)
            | _ => false
            end) (seqZ 1 31)) (seqZ 1 12) = true) by (vm_compute; reflexivity).
  rewrite forallb_forall in Hall.
  specialize (Hall m). rewrite forallb_forall in Hall.
  specialize (Hall ltac:(apply list_elem_of_In, elem_of_seqZ; lia) d
                   ltac:(apply list_elem_of_In, elem_of_seqZ; lia)).
  destruct (Strptime.re_match _ _) as [[g [| ? ?]] |]; try discriminate.
  apply andb_true_iff in Hall as [H1 H2]. exists g. split; [reflexivity |]. lia.
Qed.

Lemma iso_date_strptime y m d :
  0 <= y <= 9999 -> 1 <= m <= 12 -> 1 <= d <= 31 ->
  Strptime.strptime (iso_date y m d) "%Y-%m-%d" = Datetime.make y m d 0 0 0 0.
Proof.
  intros Hy Hm Hd. unfold Strptime.strptime.
  change (Strptime.pattern "%Y-%m-%d") with (Some
    [Strptime.Group "Y" [[Strptime.Digit; Strptime.Digit; Strptime.Digit; Strptime.Digit]];
     Strptime.Literal "-";
       Strptime.Group "m" [[Strptime.Char "1"; Strptime.Range "0" "2"];
                           [Strptime.Char "0"; Strptime.Range "1" "9"];
                           [Strptime.Range "1" "9"]];
       Strptime.Literal "-";
       Strptime.Group "d" [[Strptime.Char "3"; Strptime.Range "0" "1"];
                           [Strptime.Range "1" "2"; Strptime.Digit];
                           [Strptime.Char "0"; Strptime.Range "1" "9"];
                           [Strptime.Range "1" "9"];
                           [Strptime.Char " "; Strptime.Range "1" "9"]]]).
  unfold iso_date. rewrite year_group.
  destruct (month_day_groups m d Hm Hd) as (g & -> & Gm & Gd).
  change (negb (String.eqb "" "")) with false. cbv iota.
  change (Strptime.group_int "Y" 1900 (("Y"%char, four_digits y) :: g))
    with (Strptime.int (four_digits y)).
  change (Strptime.group_int "m" 1 (("Y"%char, four_digits y) :: g))
    with (Strptime.group_int "m" 1 g).
  change (Strptime.group_int "d" 1 (("Y"%char, four_digits y) :: g))
    with (Strptime.group_int "d" 1 g).
  rewrite four_digits_int, Gm, Gd by exact Hy. reflexivity.
Qed.

Lemma iso_date_unfold y m d :
  iso_date y m d
  = String (digit_char (y / 1000)) (String (digit_char (y / 100))
      (String (digit_char (y / 10)) (String (digit_char y)
        (String "-" (String (digit_char (m / 10)) (String (digit_char m)
          (String "-" (String (digit_char (d / 10)) (String (digit_char d) ""))))))))).
Proof. reflexivity. Qed.

Lemma rstrip_last s c :
  Str.isspace c = false -> Str.rstrip (s ++ String c "") = s ++ String c "".
Proof.
  intros Hc. induction s as [| x s IH].
  - change (Str.rstrip ("" ++ String c ""))
      with (if Str.isspace c && true then "" else String c "").
    rewrite Hc. reflexivity.
  - rewrite sapp_cons.
    change (Str.rstrip (String x (s ++ String c "")))
      with (if Str.isspace x && String.eqb (Str.rstrip (s ++ String c "")) ""
            then "" else String x (Str.rstrip (s ++ String c ""))).
    rewrite IH. destruct s; rewrite ?sapp_cons; rewrite andb_false_r; reflexivity.
Qed.

Lemma iso_date_strip y m d : Str.strip (iso_date y m d) = iso_date y m d.
Proof.
  destruct (digit_char_spec (y / 1000)) as (_ & S0 & _).
  destruct (digit_char_spec d) as (_ & S1 & _).
  unfold Str.strip.
  change (iso_date y m d)
    with ((four_digits y ++ "-" ++ two_digits m ++ "-"
           ++ String (digit_char (d / 10)) "") ++ String (digit_char d) "") at 1.
  rewrite rstrip_last by exact S1.
  change (Str.lstrip (iso_date y m d) = iso_date y m d).
  rewrite iso_date_unfold. cbn [Str.lstrip]. rewrite S0. reflexivity.
Qed.

Lemma iso_date_separator y m d : first_separator (iso_date y m d) = Some (4%nat, "-"%char).
Proof.
  rewrite iso_date_unfold. cbn [first_separator]. unfold digit_or_space.
  destruct (digit_char_spec (y / 1000)) as (-> & _ & _).
  destruct (digit_char_spec (y / 100)) as (-> & _ & _).
  destruct (digit_char_spec (y / 10)) as (-> & _ & _).
  destruct (digit_char_spec y) as (-> & _ & _).
  reflexivity.
Qed.

(** X14: a year from 1 to 9999, a month and a day number written as
    YYYY-MM-DD with leading zeros parse to midnight of that very date when
    the month has such a day, and fail to parse otherwise. *)
Theorem X14_year_first_dates_round_trip (y m d : Z) :
  1 <= y <= 9999 -> 1 <= m <= 12 -> 1 <= d <= 31 ->
  parse_date (iso_date y m d)
  = (if d <=? Datetime.days_in_month y m
     then Ok (mkdatetime y m d 0 0 0 0) else Raise ValueError).
Proof.
  intros Hy Hm Hd.
  assert (Datetime.make y m d 0 0 0 0
          = if d <=? Datetime.days_in_month y m
            then Ok (mkdatetime y m d 0 0 0 0) else Raise ValueError) as Hmake.
  { unfold Datetime.make, Datetime.check_date_fields, Datetime.MINYEAR, Datetime.MAXYEAR.
    destruct (Z.leb_spec 1 y); [| lia]. destruct (Z.leb_spec y 9999); [| lia].
    destruct (Z.leb_spec 1 m); [| lia]. destruct (Z.leb_spec m 12); [| lia].
    destruct (Z.leb_spec 1 d); [| lia].
    destruct (d <=? Datetime.days_in_month y m); reflexivity. }
  pose proof (iso_date_strptime y m d ltac:(lia) Hm Hd) as Hfirst.
  rewrite Hmake in Hfirst.
  destruct (d <=? Datetime.days_in_month y m).
  - unfold parse_date, DATE_FORMATS. simpl. rewrite iso_date_strip, Hfirst. reflexivity.
  - apply parse_date_loop_raise. split; [reflexivity |].
    intros fmt Hin. rewrite iso_date_strip.
    destruct (Strptime.strptime (iso_date y m d) fmt) as [dt |] eqn:Hf; [| reflexivity].
    pose proof (strptime_separator _ _ _ Hin Hf) as S.
    rewrite iso_date_separator in S.
    destruct S as [[-> _] | [[_ [S | S]] | [[_ S] | [_ [S | S]]]]]; try discriminate.
    congruence.
Qed.

(** X14 on a leap day. *)
Lemma X14_witness_leap_day :
  parse_date (iso_date 2024 2 29) = Ok (mkdatetime 2024 2 29 0 0 0 0).
Proof.
  refine (X14_year_first_dates_round_trip 2024 2 29 _ _ _); lia.
Defined.

(** ** What an invocation depends on *)

(** X15: the outcome depends on the first record of the notification, on
    the decoded key, on the clock, on what the store returns for that one
    object and on how it answers the write under the destination key; further
    records and the rest of the store play no part. *)
Theorem X15_invocation_is_local (e1 e2 : env) (ev1 ev2 : event) (rec : s3_record)
        (others1 others2 : list s3_record) :
  Records ev1 = rec :: others1 ->
  Records ev2 = rec :: others2 ->
  unquote_plus e1 (object_key rec) = unquote_plus e2 (object_key rec) ->
  now e1 = now e2 ->
  let bucket := bucket_name rec in
  let raw_key := unquote_plus e1 (object_key rec) in
  get_object e1 bucket raw_key = get_object e2 bucket raw_key ->
  (forall out, put_object e1 bucket (processed_key_of raw_key) out content_type
               = put_object e2 bucket (processed_key_of raw_key) out content_type) ->
  lambda_handler e1 ev1 = lambda_handler e2 ev2.
Proof.
  intros Hev1 Hev2 Hkey Hnow bucket raw_key Hget Hput.
  unfold lambda_handler. rewrite Hev1, Hev2, <- Hkey.
  fold bucket raw_key. rewrite <- Hget.
  destruct (get_object e1 bucket raw_key) as [text | ex]; [| reflexivity].
  destruct (splitlines text) as [| l ls]; [reflexivity |].
  destruct (Csv.iternext (l :: ls)) as [[[hdr |] rest] | ex]; try reflexivity.
  unfold process, write_output. rewrite <- Hnow.
  destruct (falsy _ || falsy _); [reflexivity |].
  destruct (find_status_key _) as [sk |]; [| reflexivity].
  destruct (find_date_key _) as [dk |]; [| reflexivity].
  destruct (Datetime.sub_days _ _) as [cutoff | ex]; [| reflexivity].
  destruct (DictReader.rows hdr rest) as [rows [ex |]]; [reflexivity |].
  destruct (render hdr _) as [out | ex]; [| reflexivity].
  cbv zeta. rewrite <- Hput. reflexivity.
Qed.

(** X15 on a client that knows the one object only, notified with a batch
    of two records. *)
Lemma X15_witness_narrow_client :
  lambda_handler (Sample.client Sample.orders) Sample.notification
  = lambda_handler (narrow_client Sample.orders) batch.
Proof.
  refine (X15_invocation_is_local (Sample.client Sample.orders)
            (narrow_client Sample.orders) Sample.notification batch
            (mkrecord "orders" "raw/2024/jan.csv") []
            [mkrecord "orders" "raw/2024/feb.csv"] _ _ _ _ _ _).
  - reflexivity.
  - reflexivity.
  - reflexivity.
  - reflexivity.
  - reflexivity.
  - intros out. reflexivity.
Defined.

(** ** Rows without a status *)

(** X16: a row whose status cell is missing, is [None] or holds white
    space only is kept whenever its date parses, however old the date. *)
Theorem X16_row_without_status_is_kept (status_key date_key : string)
        (cutoff : datetime) (rows : list row) (r : row) (dt : datetime) :
  match cells r !! status_key with
  | Some (Some s) => all_space s = true
  | _ => True
  end ->
  parse_date (Str.strip (get_or_empty r date_key)) = Ok dt ->
  retained status_key date_key cutoff r = true
  /\ (r ∈ rows -> r ∈ kept_rows (row_loop status_key date_key cutoff rows)).
Proof.
  intros Hcell Hdate.
  assert (all_space (get_or_empty r status_key) = true) as Hsp.
  { unfold get_or_empty. destruct (cells r !! status_key) as [[s |] |]; auto. }
  assert (retained status_key date_key cutoff r = true) as Hret.
  { unfold retained. rewrite Hdate, (strip_all_space _ Hsp). reflexivity. }
  split; [exact Hret |].
  intros Hin. rewrite row_loop_kept. apply list_elem_of_filter. auto.
Qed.

(** X16 on an old order whose status is left empty. *)
Lemma X16_witness_empty_status :
  retained "Status" "OrderDate" Sample.cutoff
           (DictReader.make_row Sample.header [""; "2020-01-01"]) = true.
Proof.
  refine (proj1 (X16_row_without_status_is_kept "Status" "OrderDate" Sample.cutoff []
                   (DictReader.make_row Sample.header [""; "2020-01-01"])
                   (mkdatetime 2020 1 1 0 0 0 0) _ _)).
  - vm_compute. reflexivity.
  - vm_compute. reflexivity.
Defined.
